(** * Two Towers / SDVGame: the seeded outcome engines

    A shallow embedding of the TypeScript sources

      - [Rng.ts]                    (Mulberry32 generator),
      - [ProbabilityController.ts]  (discrete two-tower round resolution),
      - [OutcomeController.ts]      (incremental bomb hazard with streak memory),
      - [Card.ts], [ReelEngine.ts]  (card selection on top of the hazard engine),
      - [Simulation.ts]             (the Monte-Carlo run over the round resolution),
      - [Economy.ts]                (the balance side of a round),

    followed by the properties the specification states about them and
    by further properties read off the code.

    JavaScript numbers are IEEE-754 binary64 values; they are modelled by
    Rocq's primitive floats, whose operations are the same binary64
    operations with round-to-nearest-even.  The integers the generator mixes
    are modelled in [Z] with the 32-bit wrap-around written out. *)

From Stdlib Require Import ZArith Lia List Bool String Ascii.
From Stdlib Require Import Floats Uint63.
Import ListNotations.

#[local] Set Warnings "-inexact-float".
Local Open Scope Z_scope.

(* ================================================================== *)
(** ** IEEE-754 binary64 on the specification side *)
(* ================================================================== *)

Module Ieee.

(** What [n] right shifts leave of [m]: the quotient, the last bit
    shifted out and whether anything below it was set. *)
Definition shr_spec (m n : Z) : shr_record :=
  {| shr_m := m / 2 ^ n;
     shr_r := (0 <? n) && Z.testbit m (n - 1);
     shr_s := (0 <? n) && negb (m mod 2 ^ (n - 1) =? 0) |}.

(** Round to nearest, ties to even, of [m / 2^n]. *)
Definition rne (m n : Z) : Z :=
  round_nearest_even (shr_m (shr_spec m n)) (loc_of_shr_record (shr_spec m n)).

(** What the second normalisation of [binary_round_aux] makes of a
    rounded mantissa [m1] at exponent [e1]. *)
Definition round_result (sx : bool) (m1 e1 : Z) : spec_float :=
  match m1 with
  | Zpos p1 =>
      if Zpos p1 <? 2 ^ 53
      then (if e1 <=? 971 then S754_finite sx p1 e1 else S754_infinity sx)
      else (if e1 + 1 <=? 971
            then S754_finite sx 4503599627370496%positive (e1 + 1)
            else S754_infinity sx)
  | _ => S754_zero sx
  end.

(** The integer [Math.floor] denotes, read off the decoded double;
    [None] for NaN and the infinities. *)
Definition floorSF (x : spec_float) : option Z :=
  match x with
  | S754_zero _ => Some 0
  | S754_finite s m e =>
      let n := if s then Zneg m else Zpos m in
      Some (if 0 <=? e then n * 2 ^ e else n / 2 ^ (- e))
  | S754_infinity _ | S754_nan => None
  end.

(** A key that orders the doubles that are numbers: the comparison of
    two of them is the lexicographic comparison of their keys. *)
Definition SFkey (x : spec_float) : Z * Z * Z :=
  match x with
  | S754_infinity true => (-2, 0, 0)
  | S754_finite true m e => (-1, - e, - Zpos m)
  | S754_zero _ => (0, 0, 0)
  | S754_finite false m e => (1, e, Zpos m)
  | S754_infinity false => (2, 0, 0)
  | S754_nan => (3, 0, 0)
  end.

Definition key_lt (a b : Z * Z * Z) : Prop :=
  fst (fst a) < fst (fst b)
  \/ (fst (fst a) = fst (fst b)
      /\ (snd (fst a) < snd (fst b)
          \/ (snd (fst a) = snd (fst b) /\ snd a < snd b))).

Definition key_le (a b : Z * Z * Z) : Prop := key_lt a b \/ a = b.

(** Finite doubles. *)
Definition finiteSF (x : spec_float) : Prop :=
  match x with S754_finite _ _ _ => True | _ => False end.

(** Doubles that are not below zero. *)
Definition nonnegSF (x : spec_float) : Prop :=
  match x with
  | S754_zero _ | S754_infinity false | S754_finite false _ _ => True
  | _ => False
  end.

(** Doubles of at least 1/16, infinity included. *)
Definition sixteenthSF (x : spec_float) : Prop :=
  x = S754_infinity false
  \/ exists m e, x = S754_finite false m e /\ -56 <= e.

End Ieee.

(* ================================================================== *)
(** ** JavaScript number primitives *)
(* ================================================================== *)

Module Js.

Definition number := float.

(** [ToInt32]: wrap an integer to the signed 32-bit range. *)
Definition ToInt32 (z : Z) : Z := (z + 2 ^ 31) mod 2 ^ 32 - 2 ^ 31.

(** [ToUint32]: wrap an integer to the unsigned 32-bit range. *)
Definition ToUint32 (z : Z) : Z := z mod 2 ^ 32.

(** [a | b] *)
Definition bor (a b : Z) : Z := ToInt32 (Z.lor (ToInt32 a) (ToInt32 b)).

(** [a ^ b] *)
Definition bxor (a b : Z) : Z := ToInt32 (Z.lxor (ToInt32 a) (ToInt32 b)).

(** [a >>> n], the shift count taken modulo 32 *)
Definition ushr (a n : Z) : Z := Z.shiftr (ToUint32 a) (n mod 32).

(** [Math.imul(a, b)] *)
Definition imul (a b : Z) : Z := ToInt32 (ToInt32 a * ToInt32 b).

(** The double holding an integer (exact for magnitudes up to 2^53). *)
Definition of_Z (z : Z) : number :=
  match z with
  | Z0 => PrimFloat.of_uint63 0
  | Zpos _ => PrimFloat.of_uint63 (Uint63.of_Z z)
  | Zneg p => PrimFloat.opp (PrimFloat.of_uint63 (Uint63.of_Z (Zpos p)))
  end.

(** The [<] and [<=] of the language: false as soon as one side is NaN. *)
Definition lt (x y : number) : bool := PrimFloat.ltb x y.
Definition le (x y : number) : bool := PrimFloat.leb x y.

Definition is_nan (x : number) : bool := negb (PrimFloat.eqb x x).

(** [Math.max(a, b)]: NaN if either argument is NaN; [+0] is larger
    than [-0]. *)
Definition Math_max (a b : number) : number :=
  if is_nan a || is_nan b then PrimFloat.nan
  else if PrimFloat.ltb a b then b
  else if PrimFloat.ltb b a then a
  else if PrimFloat.get_sign a then b else a.

(** [Math.min(a, b)]: NaN if either argument is NaN; [-0] is smaller
    than [+0]. *)
Definition Math_min (a b : number) : number :=
  if is_nan a || is_nan b then PrimFloat.nan
  else if PrimFloat.ltb a b then a
  else if PrimFloat.ltb b a then b
  else if PrimFloat.get_sign a then a else b.

(** The integer [Math.floor(x)] denotes; [None] when [x] is NaN or
    infinite (the result is then [x] itself, which is no integer). *)
Definition Math_floor (x : number) : option Z := Ieee.floorSF (Prim2SF x).

(** [arr[k]] for an array [arr] and the number [Math.floor] returned:
    [undefined] (here [None]) unless the key is an index below the
    length. *)
Definition index {T : Type} (arr : list T) (k : option Z) : option T :=
  match k with
  | Some i => if i <? 0 then None else nth_error arr (Z.to_nat i)
  | None => None
  end.

(** How a call completes: the sources never throw, but the
    specification speaks of failures. *)
Inductive error := InvalidArgument | ContractViolation.

Inductive completion (T : Type) :=
| Returned (v : T)
| Thrown (e : error).
Arguments Returned {T} v.
Arguments Thrown {T} e.

End Js.

(* ================================================================== *)
(** ** JavaScript string primitives *)
(* ================================================================== *)

Module JsString.

(** The digit [Number.prototype.toString] writes for a value below the
    radix. *)
Definition digit (d : Z) : ascii :=
  ascii_of_nat (Z.to_nat (if d <? 10 then 48 + d else 87 + d)).

(** [n.toString(16)] for a non-negative integer [n]: the digits are
    produced from the last one, [fuel] bounds their number. *)
Fixpoint to_radix16 (fuel : nat) (n : Z) (acc : string) : string :=
  match fuel with
  | O => acc
  | S f =>
      let acc' := String (digit (n mod 16)) acc in
      if n / 16 =? 0 then acc' else to_radix16 f (n / 16) acc'
  end.

Definition toString16 (n : Z) : string :=
  to_radix16 (S (Z.to_nat (Z.log2 n))) n EmptyString.

Fixpoint replicate (n : nat) (c : ascii) : string :=
  match n with
  | O => EmptyString
  | S n' => String c (replicate n' c)
  end.

(** [s.padStart(target, pad)] for a one-character [pad]. *)
Definition padStart (target : nat) (pad : ascii) (s : string) : string :=
  append (replicate (target - String.length s) pad) s.

(** [toUpperCase] on the letters of ASCII; the strings it meets here
    hold nothing else. *)
Definition upper (c : ascii) : ascii :=
  let n := nat_of_ascii c in
  if ((97 <=? n) && (n <=? 122))%nat then ascii_of_nat (n - 32) else c.

Fixpoint toUpperCase (s : string) : string :=
  match s with
  | EmptyString => EmptyString
  | String c s' => String (upper c) (toUpperCase s')
  end.

End JsString.

(* ================================================================== *)
(** ** Rng.ts *)
(* ================================================================== *)

Module Rng.
Import Js.

Record t := mk { state : Z; seed : Z }.

(** [constructor(seed?)]: [fresh] stands for the value of
    [Math.floor(Math.random() * 0xffffffff)], used when no seed is
    given. *)
Definition new (seed : option Z) (fresh : Z) : t :=
  let s := match seed with Some s => s | None => fresh end in
  {| state := s; seed := s |}.

(** The integer part of [next]: the new state and the unsigned 32-bit
    value that is then divided by 2^32. *)
Definition next_bits (r : t) : t * Z :=
  let s0 := ToInt32 (state r) in
  let s1 := ToInt32 (s0 + 0x6d2b79f5) in
  let t1 := imul (bxor s1 (ushr s1 15)) (bor 1 s1) in
  let t2 := bxor (t1 + imul (bxor t1 (ushr t1 7)) (bor 61 t1)) t1 in
  ({| state := s1; seed := seed r |}, ushr (bxor t2 (ushr t2 14)) 0).

Definition next (r : t) : t * number :=
  let '(r', u) := next_bits r in
  (r', PrimFloat.div (of_Z u) 4294967296%float).

#[global] Arguments next_bits : simpl never.
#[global] Arguments next : simpl never.

(** [int(min, max)] *)
Definition int (min max : Z) (r : t) : t * option Z :=
  let '(r', x) := next r in
  (r', match Math_floor (PrimFloat.mul x (of_Z (max - min + 1))) with
       | Some k => Some (k + min)
       | None => None
       end).

(** [chance(p)] *)
Definition chance (p : number) (r : t) : t * bool :=
  let '(r', x) := next r in (r', lt x p).

(** [pick(arr)] *)
Definition pick {T : Type} (arr : list T) (r : t) : completion (t * option T) :=
  let '(r', x) := next r in
  Returned
    (r', index arr (Math_floor (PrimFloat.mul x (of_Z (Z.of_nat (List.length arr)))))).

(** The generator after [k] calls of [next]. *)
Fixpoint advance (k : nat) (r : t) : t :=
  match k with
  | O => r
  | S k' => advance k' (fst (next r))
  end.

(** The first [n] values [next] returns. *)
Fixpoint outputs (n : nat) (r : t) : list number :=
  match n with
  | O => []
  | S n' => let '(r', x) := next r in x :: outputs n' r'
  end.

(** [getSeedHex()] *)
Definition getSeedHex (r : t) : string :=
  JsString.toUpperCase
    (JsString.padStart 8 "0"%char (JsString.toString16 (ToUint32 (seed r)))).

End Rng.

(* ================================================================== *)
(** ** ProbabilityController.ts *)
(* ================================================================== *)

Module ProbabilityController.
Import Js.
Local Open Scope float_scope.

Inductive TowerId := A | B.
Inductive PlaneOutcome := hitA | hitB | miss.

(** [Record<TowerId, boolean>] *)
Record TowerFlags := { atA : bool; atB : bool }.

Definition at_tower (f : TowerFlags) (side : TowerId) : bool :=
  match side with A => atA f | B => atB f end.

Definition set_tower (f : TowerFlags) (side : TowerId) (v : bool) : TowerFlags :=
  match side with
  | A => {| atA := v; atB := atB f |}
  | B => {| atA := atA f; atB := v |}
  end.

Record RoundResolution := {
  firstPlane : PlaneOutcome;
  secondPlaneTriggered : bool;
  secondPlane : option PlaneOutcome;
  collapseTriggered : bool;
  collapsedTower : option TowerId;
  destroyed : TowerFlags;
  survives : TowerFlags;
  selectedTowerWins : bool
}.

Definition BET : number := 10.
Definition PAYOUT_ON_WIN : number := 20.
Definition TARGET_RTP : number := 0.95.
Definition TARGET_WIN_RATE : number := TARGET_RTP / 2.

Definition BASE_FIRST_PLANE (o : PlaneOutcome) : number :=
  match o with hitA => 0.4 | hitB => 0.4 | miss => 0.2 end.

Definition BASE_DOUBLE_PLANE_ON_MISS : number := 0.10.
Definition BASE_COLLAPSE : number := 0.05.

Definition hitWeightMultiplier : number := 1.125.
Definition missWeightMultiplier : number := 0.5.
Definition collapseMultiplier : number := 2.8.

Definition rollPlaneOutcome (r : Rng.t) : Rng.t * PlaneOutcome :=
  let hitAWeight := BASE_FIRST_PLANE hitA * hitWeightMultiplier in
  let hitBWeight := BASE_FIRST_PLANE hitB * hitWeightMultiplier in
  let missWeight := BASE_FIRST_PLANE miss * missWeightMultiplier in
  let total := hitAWeight + hitBWeight + missWeight in
  let '(r', x) := Rng.next r in
  let v := x * total in
  (r', if lt v hitAWeight then hitA
       else if lt v (hitAWeight + hitBWeight) then hitB
       else miss).

Definition applyPlaneOutcome (d : TowerFlags) (o : PlaneOutcome) : TowerFlags :=
  let d1 := match o with hitA => set_tower d A true | _ => d end in
  match o with hitB => set_tower d1 B true | _ => d1 end.

Definition getEffectiveCollapseChance : number :=
  Math_min 1 (BASE_COLLAPSE * collapseMultiplier).

Definition randomTower (r : Rng.t) : Rng.t * TowerId :=
  let '(r', b) := Rng.chance 0.5 r in (r', if b then A else B).

Definition resolveRound (selectedTower : TowerId) (r : Rng.t)
  : Rng.t * RoundResolution :=
  let '(r1, collapseTriggered) := Rng.chance getEffectiveCollapseChance r in
  let '(r2, collapsedTower) :=
    if collapseTriggered
    then let '(r', w) := randomTower r1 in (r', Some w)
    else (r1, None) in
  let '(r3, firstPlane) := rollPlaneOutcome r2 in
  let '(r4, secondPlaneTriggered) :=
    match firstPlane with
    | miss => Rng.chance BASE_DOUBLE_PLANE_ON_MISS r3
    | _ => (r3, false)
    end in
  let '(r5, secondPlane) :=
    if secondPlaneTriggered
    then let '(r', o) := rollPlaneOutcome r4 in (r', Some o)
    else (r4, None) in
  let d0 := {| atA := false; atB := false |} in
  let d1 := applyPlaneOutcome d0 firstPlane in
  let d2 := match secondPlane with
            | Some o => applyPlaneOutcome d1 o
            | None => d1
            end in
  let d3 := match collapsedTower with
            | Some w => set_tower d2 w true
            | None => d2
            end in
  let s := {| atA := negb (atA d3); atB := negb (atB d3) |} in
  (r5, {| firstPlane := firstPlane;
          secondPlaneTriggered := secondPlaneTriggered;
          secondPlane := secondPlane;
          collapseTriggered := collapseTriggered;
          collapsedTower := collapsedTower;
          destroyed := d3;
          survives := s;
          selectedTowerWins := at_tower s selectedTower |}).

End ProbabilityController.

(* ================================================================== *)
(** ** Card.ts *)
(* ================================================================== *)

Module Card.
Import Js.
Local Open Scope string_scope.

Inductive CardKind :=
| strawberry | butterfly | taxi | fruit
| guru | hydration | catceo | ramen | crypto
| mindfulness | cleaning | pizza | dog | drama
| bomb.

Record CardData := {
  kind : CardKind;
  emoji : string;
  title : string;
  subtitle : string;
  gradient : string * string;
  accentColor : string;
  isBomb : bool
}.

(** The double-quote character, for the one subtitle that holds it. *)
Definition dquote : string := String (ascii_of_nat 34) EmptyString.

Definition SAFE_CARDS : list CardData := [
  {| kind := strawberry; emoji := "🍓"; title := "Dancing Strawberry";
     subtitle := "#trending #fresh #vibe";
     gradient := ("#ff6b6b", "#ee0979"); accentColor := "#ff6b6b"; isBomb := false |};
  {| kind := butterfly; emoji := "🦋"; title := "Flying Butterfly";
     subtitle := "#nature #beauty #free";
     gradient := ("#667eea", "#764ba2"); accentColor := "#a78bfa"; isBomb := false |};
  {| kind := taxi; emoji := "🚕"; title := "Taxi Ad";
     subtitle := "📞 Call 7788 — Now!";
     gradient := ("#f7971e", "#ffd200"); accentColor := "#fbbf24"; isBomb := false |};
  {| kind := fruit; emoji := "🍉"; title := "Fruit Dance";
     subtitle := "#food #dance #summer";
     gradient := ("#56ab2f", "#a8e063"); accentColor := "#4ade80"; isBomb := false |};
  {| kind := guru; emoji := "🧠"; title := "WAKE UP AT 4AM AND OUTRUN YOUR PROBLEMS";
     subtitle := "Step 1: deny emotions. Step 2: spreadsheets.";
     gradient := ("#0f2027", "#2c5364"); accentColor := "#38bdf8"; isBomb := false |};
  {| kind := hydration; emoji := "🥤"; title := "DRINK WATER OR YOU'LL TURN INTO A RAISIN";
     subtitle := "Source: vibes.";
     gradient := ("#00c6ff", "#0072ff"); accentColor := "#7dd3fc"; isBomb := false |};
  {| kind := catceo; emoji := "🐈"; title := "HIRED. PROMOTED. FIRED.";
     subtitle := "The cat made the decision.";
     gradient := ("#1a1a2e", "#16213e"); accentColor := "#e2e8f0"; isBomb := false |};
  {| kind := ramen; emoji := "🍜"; title := "THIS RAMEN CHANGED MY PERSONALITY";
     subtitle := "Now I speak in slurps.";
     gradient := ("#e96c2e", "#c0392b"); accentColor := "#fb923c"; isBomb := false |};
  {| kind := crypto; emoji := "💸"; title := "TRUST ME BRO: IT'S GOING TO THE MOON";
     subtitle := "Chart analysis: I squinted.";
     gradient := ("#1a0533", "#7b2ff7"); accentColor := "#c084fc"; isBomb := false |};
  {| kind := mindfulness; emoji := "🧘"; title := "BREATHE IN… BREATHE OUT… PAYWALL";
     subtitle := "Unlock calm for only 9.99.";
     gradient := ("#11998e", "#38ef7d"); accentColor := "#6ee7b7"; isBomb := false |};
  {| kind := cleaning; emoji := "🧽"; title := "I CLEANED MY WHOLE LIFE WITH ONE SPONGE";
     subtitle := "It was a bad idea.";
     gradient := ("#4776e6", "#8e54e9"); accentColor := "#c4b5fd"; isBomb := false |};
  {| kind := pizza; emoji := "🍕"; title := "PINEAPPLE ON PIZZA: CIVIL WAR UPDATE";
     subtitle := "Comments are on fire (again).";
     gradient := ("#f7971e", "#e74c3c"); accentColor := "#fca5a5"; isBomb := false |};
  {| kind := dog; emoji := "🐕"; title := "I TRANSLATED MY DOG'S THOUGHTS";
     subtitle := ("Result: " ++ dquote ++ "snack?" ++ dquote);
     gradient := ("#f09819", "#edde5d"); accentColor := "#fde68a"; isBomb := false |};
  {| kind := drama; emoji := "🎭"; title := "THEY SAID WHAT?! (part 47)";
     subtitle := "Stay tuned for absolutely nothing.";
     gradient := ("#f953c6", "#b91d73"); accentColor := "#f9a8d4"; isBomb := false |}
].

Definition BOMB_CARD : CardData :=
  {| kind := bomb; emoji := "💣"; title := "BOOM!";
     subtitle := "Round Over";
     gradient := ("#1a0000", "#3d0000"); accentColor := "#ef4444"; isBomb := true |}.

(** [SAFE_CARDS[Math.floor(r * SAFE_CARDS.length)]]; [None] is
    [undefined]. *)
Definition pickSafeCard (r : number) : option CardData :=
  index SAFE_CARDS
    (Math_floor (PrimFloat.mul r (of_Z (Z.of_nat (List.length SAFE_CARDS))))).

End Card.

(* ================================================================== *)
(** ** OutcomeController.ts *)
(* ================================================================== *)

Module OutcomeController.
Import Js.
Local Open Scope float_scope.

Inductive RunType := short | medium | long.

(** The controller holds a reference to the generator it was built
    with; [rng] is that shared object.  The counters start at zero and
    only ever grow by one or return to zero, so they are natural
    numbers. *)
Record t := {
  rng : Rng.t;
  runType : RunType;
  consecutiveLosses : nat;
  consecutiveWins : nat;
  roundNumber : nat
}.

Definition BASE_PROB (k : RunType) : number :=
  match k with short => 0.25 | medium => 0.14 | long => 0.08 end.

Definition GROW_RATE (k : RunType) : number :=
  match k with short => 0.06 | medium => 0.03 | long => 0.015 end.

Definition new (r : Rng.t) : t :=
  {| rng := r; runType := medium;
     consecutiveLosses := 0; consecutiveWins := 0; roundNumber := 0 |}.

Definition with_rng (c : t) (r : Rng.t) : t :=
  {| rng := r; runType := runType c;
     consecutiveLosses := consecutiveLosses c;
     consecutiveWins := consecutiveWins c;
     roundNumber := roundNumber c |}.

Definition startRound (c : t) : t :=
  let '(r', x) := Rng.next (rng c) in
  {| rng := r';
     runType := if lt x 0.30 then short
                else if lt x 0.80 then medium
                else long;
     consecutiveLosses := consecutiveLosses c;
     consecutiveWins := consecutiveWins c;
     roundNumber := S (roundNumber c) |}.

Definition currentRunType (c : t) : RunType := runType c.

Definition getBombProbability (c : t) (swipeIndex : number) : number :=
  let prob := BASE_PROB (runType c) + GROW_RATE (runType c) * swipeIndex in
  let prob :=
    if (3 <=? consecutiveLosses c)%nat then prob * 0.80
    else if (3 <=? consecutiveWins c)%nat then prob * 1.10
    else prob in
  Math_min 0.30 (Math_max 0.04 prob).

Definition isBomb (swipeIndex : number) (c : t) : t * bool :=
  let '(r', b) := Rng.chance (getBombProbability c swipeIndex) (rng c) in
  (with_rng c r', b).

Definition onRoundLost (c : t) : t :=
  {| rng := rng c; runType := runType c;
     consecutiveLosses := S (consecutiveLosses c);
     consecutiveWins := 0;
     roundNumber := roundNumber c |}.

Definition onRoundWon (c : t) : t :=
  {| rng := rng c; runType := runType c;
     consecutiveLosses := 0;
     consecutiveWins := S (consecutiveWins c);
     roundNumber := roundNumber c |}.

(** The calls a client can make on a controller, and a run of them. *)
Inductive call :=
| CallStartRound
| CallGetBombProbability (swipeIndex : number)
| CallIsBomb (swipeIndex : number)
| CallOnRoundWon
| CallOnRoundLost.

Definition exec (k : call) (c : t) : t :=
  match k with
  | CallStartRound => startRound c
  | CallGetBombProbability _ => c
  | CallIsBomb i => fst (isBomb i c)
  | CallOnRoundWon => onRoundWon c
  | CallOnRoundLost => onRoundLost c
  end.

Definition run (ks : list call) (c : t) : t :=
  fold_left (fun c k => exec k c) ks c.

Definition is_verdict (k : call) : bool :=
  match k with
  | CallOnRoundWon | CallOnRoundLost => true
  | _ => false
  end.

End OutcomeController.

(* ================================================================== *)
(** ** ReelEngine.ts *)
(* ================================================================== *)

Module ReelEngine.
Import Js.

(** The engine's own [rng] field and its controller's [rng] field are
    the same object: the constructor hands its generator to the
    controller it creates.  The record therefore keeps the generator
    once, inside the controller. *)
Record t := { outcomeController : OutcomeController.t }.

Definition rng (e : t) : Rng.t := OutcomeController.rng (outcomeController e).

Definition new (r : Rng.t) : t :=
  {| outcomeController := OutcomeController.new r |}.

Definition controller (e : t) : OutcomeController.t := outcomeController e.

Definition startRound (e : t) : t :=
  {| outcomeController := OutcomeController.startRound (outcomeController e) |}.

Definition safePick (e : t) : t * option Card.CardData :=
  let '(r', x) := Rng.next (rng e) in
  ({| outcomeController := OutcomeController.with_rng (outcomeController e) r' |},
   Card.pickSafeCard x).

Definition nextCard (swipeIndex : number) (e : t) : t * option Card.CardData :=
  let '(c', b) := OutcomeController.isBomb swipeIndex (outcomeController e) in
  if b then ({| outcomeController := c' |}, Some Card.BOMB_CARD)
  else safePick {| outcomeController := c' |}.

Definition onRoundLost (e : t) : t :=
  {| outcomeController := OutcomeController.onRoundLost (outcomeController e) |}.

Definition onRoundWon (e : t) : t :=
  {| outcomeController := OutcomeController.onRoundWon (outcomeController e) |}.

End ReelEngine.

(* ================================================================== *)
(** ** Simulation.ts *)
(* ================================================================== *)

Module Simulation.
Import Js.

Record SimulationResults := {
  rounds : number;
  winRate : number;
  effectiveRtp : number;
  hitA : number;
  hitB : number;
  miss : number;
  doublePlane : number;
  collapse : number
}.

(** The local counters of [simulate].  They start at zero and grow by
    one, so they are natural numbers. *)
Module Counters.
Record t := {
  wins : nat;
  hitA : nat;
  hitB : nat;
  miss : nat;
  doublePlane : nat;
  collapse : nat
}.
Definition zero : t :=
  {| wins := 0; hitA := 0; hitB := 0; miss := 0; doublePlane := 0; collapse := 0 |}.
End Counters.

(** The inner function [countOutcome]. *)
Definition countOutcome (outcome : ProbabilityController.PlaneOutcome)
           (t : Counters.t) : Counters.t :=
  {| Counters.wins := Counters.wins t;
     Counters.hitA :=
       match outcome with
       | ProbabilityController.hitA => S (Counters.hitA t)
       | _ => Counters.hitA t
       end;
     Counters.hitB :=
       match outcome with
       | ProbabilityController.hitB => S (Counters.hitB t)
       | _ => Counters.hitB t
       end;
     Counters.miss :=
       match outcome with
       | ProbabilityController.miss => S (Counters.miss t)
       | _ => Counters.miss t
       end;
     Counters.doublePlane := Counters.doublePlane t;
     Counters.collapse := Counters.collapse t |}.

(** One turn of the loop, on the generator the simulation shares with
    its controller and on the counters. *)
Definition body (s : Rng.t * Counters.t) : Rng.t * Counters.t :=
  let '(r, t) := s in
  let '(r1, b) := Rng.chance 0.5%float r in
  let pickedTower := if b then ProbabilityController.A else ProbabilityController.B in
  let '(r2, resolution) := ProbabilityController.resolveRound pickedTower r1 in
  let t1 :=
    {| Counters.wins :=
         if ProbabilityController.selectedTowerWins resolution
         then S (Counters.wins t) else Counters.wins t;
       Counters.hitA := Counters.hitA t;
       Counters.hitB := Counters.hitB t;
       Counters.miss := Counters.miss t;
       Counters.doublePlane :=
         if ProbabilityController.secondPlaneTriggered resolution
         then S (Counters.doublePlane t) else Counters.doublePlane t;
       Counters.collapse :=
         if ProbabilityController.collapseTriggered resolution
         then S (Counters.collapse t) else Counters.collapse t |} in
  let t2 := countOutcome (ProbabilityController.firstPlane resolution) t1 in
  let t3 := match ProbabilityController.secondPlane resolution with
            | Some o => countOutcome o t2
            | None => t2
            end in
  (r2, t3).

(** [for (let i = 0; i < rounds; i++)], for a number of rounds that is
    a natural number. *)
Fixpoint loop (rounds : nat) (s : Rng.t * Counters.t) : Rng.t * Counters.t :=
  match rounds with
  | O => s
  | S n => loop n (body s)
  end.

(** The generator and the counters when the loop of [simulate(rounds)]
    ends. *)
Definition run (rounds : nat) : Rng.t * Counters.t :=
  loop rounds (Rng.new (Some 0x5eedc0de) 0, Counters.zero).

(** The double holding a counter (exact below 2^53). *)
Definition of_nat (n : nat) : number := of_Z (Z.of_nat n).

Definition simulate (rounds : nat) : SimulationResults :=
  let t := snd (run rounds) in
  let winRate := PrimFloat.div (of_nat (Counters.wins t)) (of_nat rounds) in
  let effectiveRtp :=
    PrimFloat.mul winRate
      (PrimFloat.div ProbabilityController.PAYOUT_ON_WIN ProbabilityController.BET) in
  {| rounds := of_nat rounds;
     winRate := winRate;
     effectiveRtp := effectiveRtp;
     hitA := PrimFloat.div (of_nat (Counters.hitA t)) (of_nat rounds);
     hitB := PrimFloat.div (of_nat (Counters.hitB t)) (of_nat rounds);
     miss := PrimFloat.div (of_nat (Counters.miss t)) (of_nat rounds);
     doublePlane := PrimFloat.div (of_nat (Counters.doublePlane t)) (of_nat rounds);
     collapse := PrimFloat.div (of_nat (Counters.collapse t)) (of_nat rounds) |}.

End Simulation.

(* ================================================================== *)
(** ** Economy.ts *)
(* ================================================================== *)

(** The balance side of [Economy]: the constructor, the getters,
    [canStartRound], [startRound] and [onBomb].  [onSafeSwipe],
    [cashOut] and the formatters go through [Math.pow] and decimal
    strings ([toFixed], [parseFloat]) and are not modelled. *)
Module Economy.
Import Js.
Local Open Scope float_scope.

Record t := {
  _balance : number;
  _roundValue : number;
  _multiplier : number;
  _swipeCount : nat
}.

(** The two fields no method assigns. *)
Definition _roundCost : number := 10.
Definition _multiplierStep : number := 1.1.

(** [constructor(initialBalance = 1000)] *)
Definition new (initialBalance : option number) : t :=
  {| _balance := match initialBalance with Some b => b | None => 1000 end;
     _roundValue := 0;
     _multiplier := 1.0;
     _swipeCount := 0 |}.

Definition balance (e : t) : number := _balance e.
Definition roundValue (e : t) : number := _roundValue e.
Definition multiplier (e : t) : number := _multiplier e.
Definition swipeCount (e : t) : nat := _swipeCount e.
Definition roundCost (e : t) : number := _roundCost.

(** [this._balance >= this._roundCost] *)
Definition canStartRound (e : t) : bool := le _roundCost (_balance e).

Definition startRound (e : t) : t * bool :=
  if negb (canStartRound e) then (e, false)
  else ({| _balance := _balance e - _roundCost;
           _roundValue := _roundCost;
           _multiplier := 1.0;
           _swipeCount := 0 |}, true).

Definition onBomb (e : t) : t :=
  {| _balance := _balance e;
     _roundValue := 0;
     _multiplier := _multiplier e;
     _swipeCount := _swipeCount e |}.

End Economy.

(* ================================================================== *)
(** ** Vocabulary of the properties *)
(* ================================================================== *)

Module Props.
Import Js.

(** A plane outcome names the tower it hits. *)
Definition names (o : ProbabilityController.PlaneOutcome)
           (side : ProbabilityController.TowerId) : bool :=
  match o, side with
  | ProbabilityController.hitA, ProbabilityController.A => true
  | ProbabilityController.hitB, ProbabilityController.B => true
  | _, _ => false
  end.

Definition same_tower (a b : ProbabilityController.TowerId) : bool :=
  match a, b with
  | ProbabilityController.A, ProbabilityController.A => true
  | ProbabilityController.B, ProbabilityController.B => true
  | _, _ => false
  end.

(** [destroyed[side]] as the specification derives it from the three
    draws of a round. *)
Definition derived_destroyed
           (first : ProbabilityController.PlaneOutcome)
           (second : option ProbabilityController.PlaneOutcome)
           (collapsed : option ProbabilityController.TowerId)
           (side : ProbabilityController.TowerId) : bool :=
  names first side
  || match second with Some o => names o side | None => false end
  || match collapsed with Some w => same_tower w side | None => false end.

(** The number of [next] calls a resolution record accounts for: the
    collapse draw and the first plane, plus one for the tower of a
    collapse, one for the double-plane draw after a miss, one for the
    second plane. *)
Definition draws_of (res : ProbabilityController.RoundResolution) : nat :=
  (2 + (if ProbabilityController.collapseTriggered res then 1 else 0)
     + (match ProbabilityController.firstPlane res with
        | ProbabilityController.miss => 1
        | _ => 0
        end)
     + (if ProbabilityController.secondPlaneTriggered res then 1 else 0))%nat.

(** Streak states. *)
Definition both_zero (c : OutcomeController.t) : Prop :=
  OutcomeController.consecutiveWins c = O
  /\ OutcomeController.consecutiveLosses c = O.

Definition exactly_one (c : OutcomeController.t) : Prop :=
  (OutcomeController.consecutiveWins c <> O
   /\ OutcomeController.consecutiveLosses c = O)
  \/ (OutcomeController.consecutiveWins c = O
      /\ OutcomeController.consecutiveLosses c <> O).

(** A controller in a given run type and streak state; the hazard only
    reads these three fields. *)
Definition controller_in (k : OutcomeController.RunType) (losses wins : nat)
  : OutcomeController.t :=
  {| OutcomeController.rng := Rng.new (Some 0) 0;
     OutcomeController.runType := k;
     OutcomeController.consecutiveLosses := losses;
     OutcomeController.consecutiveWins := wins;
     OutcomeController.roundNumber := 0 |}.

Definition pMin : number := 0.04%float.
Definition pMax : number := 0.30%float.

Definition in_band (p : number) : bool := le pMin p && le p pMax.

End Props.

(* ================================================================== *)
(** ** Vocabulary of the further properties *)
(* ================================================================== *)

Module Cycle.

(** The increment [next] adds to the state. *)
Definition golden : Z := 0x6d2b79f5.

(** The number of states of the generator. *)
Definition period : nat := Z.to_nat (2 ^ 32).

End Cycle.

Module Draws.

(** The 32-bit value the call of [next] number [k] draws, counting from
    zero. *)
Definition draw (r : Rng.t) (k : nat) : Z :=
  snd (Rng.next_bits (Rng.advance k r)).

(** What a 32-bit draw decides, as integer thresholds. *)
Definition plane (u : Z) : ProbabilityController.PlaneOutcome :=
  if u <? 1932735284 then ProbabilityController.hitA
  else if u <? 3865470567 then ProbabilityController.hitB
  else ProbabilityController.miss.

Definition tower (u : Z) : ProbabilityController.TowerId :=
  if u <? 2147483648 then ProbabilityController.A else ProbabilityController.B.

Definition is_miss (o : ProbabilityController.PlaneOutcome) : bool :=
  match o with ProbabilityController.miss => true | _ => false end.

End Draws.

Module Verdicts.

Definition is_lost (k : OutcomeController.call) : bool :=
  match k with OutcomeController.CallOnRoundLost => true | _ => false end.

Definition is_won (k : OutcomeController.call) : bool :=
  match k with OutcomeController.CallOnRoundWon => true | _ => false end.

(** How many calls of a run satisfy [f]. *)
Definition count (f : OutcomeController.call -> bool)
           (ks : list OutcomeController.call) : nat :=
  List.length (filter f ks).

End Verdicts.

Module Tally.

(** What the counters of a simulation satisfy after [n] rounds. *)
Definition balanced (n : nat) (t : Simulation.Counters.t) : Prop :=
  (Simulation.Counters.hitA t + Simulation.Counters.hitB t + Simulation.Counters.miss t
   = n + Simulation.Counters.doublePlane t
   /\ Simulation.Counters.doublePlane t <= Simulation.Counters.miss t
   /\ Simulation.Counters.doublePlane t <= n
   /\ Simulation.Counters.wins t <= n
   /\ Simulation.Counters.collapse t <= n)%nat.

End Tally.

Module Hex.

(** Reading a string of the digits 0-9 and A-F back as a number. *)
Definition digit_value (c : ascii) : option Z :=
  let n := Z.of_nat (nat_of_ascii c) in
  if (48 <=? n) && (n <=? 57) then Some (n - 48)
  else if (65 <=? n) && (n <=? 70) then Some (n - 55)
  else None.

Fixpoint value_from (s : string) (acc : Z) : option Z :=
  match s with
  | EmptyString => Some acc
  | String c s' =>
      match digit_value c with
      | Some d => value_from s' (16 * acc + d)
      | None => None
      end
  end.

Definition value (s : string) : option Z := value_from s 0.

(** The [k] last hexadecimal digits of [n], put before [acc]. *)
Fixpoint digits (k : nat) (n : Z) (acc : string) : string :=
  match k with
  | O => acc
  | S k' => digits k' (n / 16) (String (JsString.digit (n mod 16)) acc)
  end.

End Hex.

(* ================================================================== *)
(** ** Facts about binary64 rounding *)
(* ================================================================== *)

Section Digits.

Lemma digits2_pos_bounds (p : positive) :
  2 ^ (Zpos (digits2_pos p) - 1) <= Zpos p < 2 ^ Zpos (digits2_pos p).
Proof.
  induction p as [p IH | p IH | ]; cbn [digits2_pos].
  - rewrite Pos2Z.inj_succ.
    replace (Z.succ (Zpos (digits2_pos p)) - 1) with (Z.succ (Zpos (digits2_pos p) - 1)) by lia.
    rewrite !Z.pow_succ_r by lia. lia.
  - rewrite Pos2Z.inj_succ.
    replace (Z.succ (Zpos (digits2_pos p)) - 1) with (Z.succ (Zpos (digits2_pos p) - 1)) by lia.
    rewrite !Z.pow_succ_r by lia. lia.
  - cbn. lia.
Qed.

Lemma digits2_pos_unique (p : positive) (k : Z) :
  2 ^ (k - 1) <= Zpos p < 2 ^ k -> Zpos (digits2_pos p) = k.
Proof.
  intros [Hlo Hhi]. pose proof (digits2_pos_bounds p) as [Dlo Dhi].
  assert (0 < k).
  { destruct (Z_lt_le_dec 0 k); [assumption|].
    assert (2 ^ k <= 1).
    { destruct (Z.eq_dec k 0) as [->|]; [cbn; lia|]. rewrite Z.pow_neg_r by lia. lia. }
    lia. }
  destruct (Z.lt_trichotomy (Zpos (digits2_pos p)) k) as [L|[E|G]]; [|exact E|].
  - assert (2 ^ Zpos (digits2_pos p) <= 2 ^ (k - 1)) by (apply Z.pow_le_mono_r; lia). lia.
  - assert (2 ^ k <= 2 ^ (Zpos (digits2_pos p) - 1)) by (apply Z.pow_le_mono_r; lia). lia.
Qed.

Lemma digits2_pos_le (p : positive) (k : Z) :
  Zpos p < 2 ^ k -> Zpos (digits2_pos p) <= k.
Proof.
  intro H. pose proof (digits2_pos_bounds p) as [Dlo _].
  destruct (Z_lt_le_dec k (Zpos (digits2_pos p))) as [L|]; [|assumption].
  assert (0 <= k).
  { destruct (Z_lt_le_dec k 0); [|assumption]. rewrite Z.pow_neg_r in H by lia. lia. }
  assert (2 ^ k <= 2 ^ (Zpos (digits2_pos p) - 1)) by (apply Z.pow_le_mono_r; lia). lia.
Qed.

End Digits.

Section Shifts.

Lemma pow2_split (k : Z) : 0 < k -> 2 ^ k = 2 ^ (k - 1) * 2.
Proof.
  intro H. replace k with (Z.succ (k - 1)) at 1 by lia.
  rewrite Z.pow_succ_r by lia. lia.
Qed.


Lemma shr_1_nonneg (q : Z) (r s : bool) :
  0 <= q ->
  shr_1 {| shr_m := q; shr_r := r; shr_s := s |}
  = {| shr_m := q / 2; shr_r := Z.odd q; shr_s := r || s |}.
Proof.
  intro H. destruct q as [|p|p]; [reflexivity| |lia].
  destruct p as [p|p|]; cbn [shr_1].
  - f_equal. rewrite Pos2Z.inj_xI. 
    replace (2 * Zpos p + 1) with (1 + Zpos p * 2) by lia.
    rewrite Z.div_add by lia. reflexivity.
  - f_equal. rewrite Pos2Z.inj_xO. 
    replace (2 * Zpos p) with (Zpos p * 2) by lia.
    rewrite Z.div_mul by lia. reflexivity.
  - reflexivity.
Qed.

Lemma sticky_step (m k : Z) :
  0 <= m -> 0 <= k ->
  ((0 <? k) && Z.testbit m (k - 1)) || ((0 <? k) && negb (m mod 2 ^ (k - 1) =? 0))
  = negb (m mod 2 ^ k =? 0).
Proof.
  intros Hm Hk. destruct (Z.ltb_spec 0 k) as [P|P]; cbn [andb orb].
  - assert (E : 2 ^ k = 2 ^ (k - 1) * 2) by (apply pow2_split; lia).
    assert (Pp : 0 < 2 ^ (k - 1)) by (apply Z.pow_pos_nonneg; lia).
    rewrite E, Z.rem_mul_r by lia.
    rewrite Z.testbit_odd, Z.shiftr_div_pow2 by lia.
    pose proof (Z.mod_pos_bound m (2 ^ (k - 1)) Pp) as B.
    pose proof (Zmod_odd (m / 2 ^ (k - 1))) as O.
    destruct (Z.odd (m / 2 ^ (k - 1))); rewrite O;
      destruct (Z.eqb_spec (m mod 2 ^ (k - 1)) 0) as [Z0|NZ];
      match goal with |- context [?x =? 0] => destruct (Z.eqb_spec x 0) end;
      try reflexivity; exfalso; nia.
  - assert (k = 0) by lia. subst k. cbn. rewrite Z.mod_1_r. reflexivity.
Qed.

Lemma shr_1_spec (m k : Z) :
  0 <= m -> 0 <= k -> shr_1 (Ieee.shr_spec m k) = Ieee.shr_spec m (k + 1).
Proof.
  intros Hm Hk. unfold Ieee.shr_spec.
  assert (P : 0 < 2 ^ k) by (apply Z.pow_pos_nonneg; lia).
  rewrite shr_1_nonneg by (apply Z.div_pos; lia).
  f_equal.
  - rewrite Z.div_div by lia. f_equal. rewrite (pow2_split (k + 1)) by lia.
    f_equal. f_equal. lia.
  - replace (k + 1 - 1) with k by lia.
    destruct (Z.ltb_spec 0 (k + 1)); [|lia]. cbn [andb].
    now rewrite Z.testbit_odd, Z.shiftr_div_pow2 by lia.
  - replace (k + 1 - 1) with k by lia.
    destruct (Z.ltb_spec 0 (k + 1)); [|lia]. cbn [andb].
    now apply sticky_step.
Qed.

Lemma iter_shr_1_spec (m : Z) (p : positive) :
  0 <= m ->
  forall k, 0 <= k ->
    iter_pos shr_1 p (Ieee.shr_spec m k) = Ieee.shr_spec m (k + Zpos p).
Proof.
  intro Hm. induction p as [p IH | p IH | ]; intros k Hk; cbn [iter_pos].
  - rewrite shr_1_spec, IH, IH by lia. f_equal. lia.
  - rewrite IH, IH by lia. f_equal. lia.
  - now rewrite shr_1_spec.
Qed.

Lemma shr_spec_0 (m : Z) : Ieee.shr_spec m 0 = {| shr_m := m; shr_r := false; shr_s := false |}.
Proof. unfold Ieee.shr_spec. cbn. now rewrite Z.div_1_r. Qed.


Lemma rne_error (m n : Z) :
  0 <= m -> 0 < n ->
  - 2 ^ n <= 2 * (Ieee.rne m n * 2 ^ n - m) <= 2 ^ n
  /\ m / 2 ^ n <= Ieee.rne m n <= m / 2 ^ n + 1.
Proof.
  intros Hm Hn. unfold Ieee.rne, Ieee.shr_spec. cbn [shr_m loc_of_shr_record].
  destruct (Z.ltb_spec 0 n); [|lia]. cbn [andb].
  assert (E : 2 ^ n = 2 ^ (n - 1) * 2) by (apply pow2_split; lia).
  assert (Pp : 0 < 2 ^ (n - 1)) by (apply Z.pow_pos_nonneg; lia).
  rewrite Z.testbit_odd, Z.shiftr_div_pow2 by lia.
  pose proof (Z.mod_pos_bound m (2 ^ (n - 1)) Pp) as B.
  pose proof (Zmod_odd (m / 2 ^ (n - 1))) as O.
  pose proof (Z.div_mod m (2 ^ (n - 1)) ltac:(lia)) as D1.
  pose proof (Z.div_mod (m / 2 ^ (n - 1)) 2 ltac:(lia)) as D2.
  assert (Q : m / 2 ^ n = m / 2 ^ (n - 1) / 2) by (rewrite E, Z.div_div; lia).
  rewrite Q.
  set (a := m / 2 ^ (n - 1)) in *. set (lo := m mod 2 ^ (n - 1)) in *.
  set (q := a / 2) in *. rewrite E. set (P := 2 ^ (n - 1)) in *.
  destruct (Z.odd a); destruct (Z.eqb_spec lo 0) as [L0|L0];
    cbn [negb round_nearest_even]; try destruct (Z.even q); nia.
Qed.

Lemma rne_exact (q n : Z) :
  0 <= q -> 0 < n -> Ieee.rne (q * 2 ^ n) n = q.
Proof.
  intros Hq Hn.
  assert (P : 0 < 2 ^ n) by (apply Z.pow_pos_nonneg; lia).
  destruct (rne_error (q * 2 ^ n) n ltac:(nia) Hn) as [E _]. nia.
Qed.

End Shifts.

Section Rounding.

Lemma fexp64 (x : Z) : fexp prec emax x = Z.max (x - 53) (-1074).
Proof. reflexivity. Qed.


Lemma shr_fexp_exact_noshift (m e : Z) :
  fexp prec emax (Zdigits2 m + e) - e <= 0 ->
  shr_fexp prec emax m e loc_Exact
  = ({| shr_m := m; shr_r := false; shr_s := false |}, e).
Proof.
  intro H. unfold shr_fexp, shr. cbn [shr_record_of_loc].
  destruct (fexp prec emax (Zdigits2 m + e) - e); try reflexivity. lia.
Qed.

Lemma binary_round_aux_pos (sx : bool) (m : positive) (e : Z) :
  let n := fexp prec emax (Zpos (digits2_pos m) + e) - e in
  binary_round_aux prec emax sx (Zpos m) e loc_Exact
  = if n <=? 0
    then (if e <=? 971 then S754_finite sx m e else S754_infinity sx)
    else Ieee.round_result sx (Ieee.rne (Zpos m) n) (e + n).
Proof.
  intro n. unfold binary_round_aux.
  destruct (Z.leb_spec n 0) as [Hn|Hn].
  - rewrite shr_fexp_exact_noshift by exact Hn.
    cbn [shr_m loc_of_shr_record round_nearest_even].
    rewrite shr_fexp_exact_noshift by exact Hn. cbn [shr_m]. reflexivity.
  - assert (S1 : shr_fexp prec emax (Zpos m) e loc_Exact
                 = (Ieee.shr_spec (Zpos m) n, e + n)).
    { unfold shr_fexp, shr. cbn [Zdigits2 shr_record_of_loc]. fold n.
      destruct n as [|p|p] eqn:En; try lia.
      rewrite <- shr_spec_0, iter_shr_1_spec by lia. reflexivity. }
    rewrite S1. fold (Ieee.rne (Zpos m) n).
    pose proof (digits2_pos_bounds m) as [_ Dhi].
    assert (Pn : 0 < 2 ^ n) by (apply Z.pow_pos_nonneg; lia).
    assert (Hq : Zpos m / 2 ^ n < 2 ^ 53).
    { apply Z.div_lt_upper_bound; [lia|].
      rewrite <- Z.pow_add_r by lia.
      eapply Z.lt_le_trans; [exact Dhi|].
      apply Z.pow_le_mono_r; [lia|]. unfold n. rewrite fexp64. lia. }
    assert (Hq0 : 0 <= Zpos m / 2 ^ n) by (apply Z.div_pos; lia).
    destruct (rne_error (Zpos m) n ltac:(lia) Hn) as [_ [R1 R2]].
    assert (He1 : -1074 <= e + n) by (unfold n; rewrite fexp64; lia).
    destruct (Ieee.rne (Zpos m) n) as [|p1|p1] eqn:Er; [| |lia].
    + rewrite shr_fexp_exact_noshift by (cbn [Zdigits2]; rewrite fexp64; lia).
      reflexivity.
    + cbn [Ieee.round_result]. destruct (Z.ltb_spec (Zpos p1) (2 ^ 53)) as [Hlt|Hge].
      * rewrite shr_fexp_exact_noshift.
        -- cbn [shr_m]. reflexivity.
        -- cbn [Zdigits2]. pose proof (digits2_pos_le p1 53 Hlt). rewrite fexp64. lia.
      * assert (Ep : p1 = 9007199254740992%positive) by lia. subst p1.
        unfold shr_fexp. cbn [Zdigits2 digits2_pos Pos.succ].
        rewrite fexp64.
        replace (Z.max (54 + (e + n) - 53) (-1074) - (e + n)) with 1 by lia.
        cbn [shr shr_record_of_loc iter_pos shr_1 shr_m]. 
        replace (e + n + 1) with (e + n + 1) by lia. reflexivity.
Qed.

End Rounding.


Section Conversions.

Lemma valid_finite (s : bool) (m : positive) (e : Z) :
  valid_binary (S754_finite s m e) = true ->
  -1074 <= e <= 971
  /\ Zpos m < 2 ^ 53
  /\ (e = -1074 \/ 2 ^ 52 <= Zpos m).
Proof.
  cbn [SpecFloat.valid_binary]. unfold bounded, canonical_mantissa.
  rewrite andb_true_iff, Z.eqb_eq, Z.leb_le, fexp64.
  intros [C B]. pose proof (digits2_pos_bounds m) as [Dlo Dhi].
  repeat split; try (cbn in B; lia).
  - eapply Z.lt_le_trans; [exact Dhi|]. apply Z.pow_le_mono_r; lia.
  - destruct (Z.eq_dec e (-1074)); [left; assumption|right].
    replace (Zpos (digits2_pos m)) with 53 in Dlo by lia. exact Dlo.
Qed.

Lemma iter_xO (p d : positive) : Zpos (Pos.iter xO p d) = Zpos p * 2 ^ Zpos d.
Proof.
  revert p. induction d as [|d IH] using Pos.peano_ind; intro p.
  - cbn. lia.
  - rewrite Pos.iter_succ, Pos2Z.inj_xO, IH, Pos2Z.inj_succ, Z.pow_succ_r by lia. lia.
Qed.

(** The double of a positive integer below 2^53 holds it exactly, with a
    full 53-bit mantissa. *)
Lemma of_Z_pos_SF (p : positive) :
  Zpos p < 2 ^ 53 ->
  exists m e,
    Prim2SF (Js.of_Z (Zpos p)) = S754_finite false m e
    /\ e = Zpos (digits2_pos p) - 53
    /\ Zpos m = Zpos p * 2 ^ (- e)
    /\ Zpos (digits2_pos m) = 53.
Proof.
  intro H. unfold Js.of_Z. rewrite of_uint63_spec.
  assert (T : Uint63Axioms.to_Z (Uint63.of_Z (Zpos p)) = Zpos p).
  { rewrite Uint63.of_Z_spec. apply Z.mod_small. 
    change Uint63.wB with (2 ^ 63). 
    assert (2 ^ 53 < 2 ^ 63) by (apply Z.pow_lt_mono_r; lia). lia. }
  rewrite T. cbn [binary_normalize]. unfold binary_round.
  pose proof (digits2_pos_bounds p) as [Dlo Dhi].
  pose proof (digits2_pos_le p 53 H) as D53.
  set (d := Zpos (digits2_pos p)) in *.
  rewrite Z.add_0_r, fexp64.
  replace (Z.max (d - 53) (-1074)) with (d - 53) by lia.
  unfold shl_align. rewrite Z.sub_0_r.
  destruct (d - 53) as [|q|q] eqn:Ed; [| lia |].
  - (* already 53 bits *)
    rewrite binary_round_aux_pos. fold d. rewrite fexp64.
    destruct (Z.leb_spec (Z.max (d + 0 - 53) (-1074) - 0) 0); [|lia].
    cbn [Z.leb Z.compare]. exists p, 0. repeat split; try lia.
  - rewrite binary_round_aux_pos.
    assert (Em : Zpos (Pos.iter xO p q) = Zpos p * 2 ^ Zpos q) by apply iter_xO.
    assert (Dm : Zpos (digits2_pos (Pos.iter xO p q)) = 53).
    { apply digits2_pos_unique. rewrite Em.
      assert (P : 0 < 2 ^ Zpos q) by (apply Z.pow_pos_nonneg; lia).
      replace 53 with (d + Zpos q) by lia.
      replace (d + Zpos q - 1) with (d - 1 + Zpos q) by lia.
      rewrite !Z.pow_add_r by lia. nia. }
    rewrite Dm, fexp64.
    destruct (Z.leb_spec (Z.max (53 + Z.neg q - 53) (-1074) - Z.neg q) 0); [|lia].
    destruct (Z.leb_spec (Z.neg q) 971); [|lia].
    exists (Pos.iter xO p q), (Z.neg q). repeat split; try lia.
    rewrite Em. reflexivity.
Qed.

Lemma of_Z_0_SF : Prim2SF (Js.of_Z 0) = S754_zero false.
Proof. vm_compute. reflexivity. Qed.

Lemma two32_SF :
  Prim2SF 4294967296%float = S754_finite false 4503599627370496 (-20).
Proof. vm_compute. reflexivity. Qed.

Lemma div_eucl_pair (a b : Z) : Z.div_eucl a b = (a / b, a mod b).
Proof. unfold Z.div, Z.modulo. destruct (Z.div_eucl a b); reflexivity. Qed.

(** Dividing by 2^32 only lowers the exponent. *)
Lemma div_two32_SF (x : float) (m : positive) (e : Z) :
  Prim2SF x = S754_finite false m e ->
  Zpos (digits2_pos m) = 53 -> -52 <= e <= 0 ->
  Prim2SF (PrimFloat.div x 4294967296%float) = S754_finite false m (e - 32).
Proof.
  intros Hx Dm He. rewrite FloatAxioms.div_spec, Hx, two32_SF.
  unfold SF64div, SFdiv, SFdiv_core_binary.
  cbn [Zdigits2]. rewrite Dm.
  change (Zpos (digits2_pos 4503599627370496)) with 53.
  rewrite fexp64.
  replace (Z.min (Z.max (53 + e - (53 + -20) - 53) (-1074)) (e - -20)) with (e - 33) by lia.
  replace (e - -20 - (e - 33)) with 53 by lia.
  rewrite Z.shiftl_mul_pow2 by lia.
  rewrite div_eucl_pair.
  replace (Zpos m * 2 ^ 53) with ((2 * Zpos m) * 4503599627370496) by lia.
  rewrite Z.div_mul, Z.mod_mul by lia.
  change (new_location 4503599627370496 0) with loc_Exact.
  change (2 * Zpos m) with (Zpos m~0).
  rewrite binary_round_aux_pos. cbn [digits2_pos]. rewrite Pos2Z.inj_succ, Dm, fexp64.
  replace (Z.max (Z.succ 53 + (e - 33) - 53) (-1074) - (e - 33)) with 1 by lia.
  cbn [Z.leb Z.compare].
  replace (Zpos m~0) with (Zpos m * 2 ^ 1) by lia. rewrite rne_exact by lia.
  cbn [Ieee.round_result xorb].
  pose proof (digits2_pos_bounds m) as [_ Dhi]. rewrite Dm in Dhi.
  destruct (Z.ltb_spec (Zpos m) (2 ^ 53)); [|lia].
  destruct (Z.leb_spec (e - 33 + 1) 971); [|lia].
  f_equal. lia.
Qed.

End Conversions.

Section Products.


Lemma floor_finite_lt (p : positive) (e1 e k N : Z) :
  e < 0 -> 0 <= k -> e1 = e + k ->
  Zpos p * 2 ^ k < N * 2 ^ (- e) ->
  exists v, Ieee.floorSF (S754_finite false p e1) = Some v /\ 0 <= v < N.
Proof.
  intros He Hk -> H. cbn [Ieee.floorSF].
  destruct (Z.leb_spec 0 (e + k)) as [P|P].
  - exists (Zpos p * 2 ^ (e + k)). split; [reflexivity|].
    assert (P1 : 0 < 2 ^ (e + k)) by (apply Z.pow_pos_nonneg; lia).
    assert (P2 : 0 < 2 ^ (- e)) by (apply Z.pow_pos_nonneg; lia).
    replace k with ((e + k) + - e) in H by lia.
    rewrite Z.pow_add_r in H by lia. nia.
  - exists (Zpos p / 2 ^ (- (e + k))). split; [reflexivity|].
    assert (P1 : 0 < 2 ^ (- (e + k))) by (apply Z.pow_pos_nonneg; lia).
    assert (P2 : 0 < 2 ^ k) by (apply Z.pow_pos_nonneg; lia).
    replace (- e) with (- (e + k) + k) in H by lia.
    rewrite Z.pow_add_r in H by lia.
    split; [apply Z.div_pos; lia|].
    apply Z.div_lt_upper_bound; [lia|]. nia.
Qed.

(** The rounded product of two non-negative doubles stays below an
    integer [N] as soon as the exact product does by more than half a
    unit in the last place. *)
Lemma mul_floor_lt (mx my : positive) (ex ey N : Z) :
  valid_binary (S754_finite false mx ex) = true ->
  valid_binary (S754_finite false my ey) = true ->
  ex + ey < 0 -> -53 <= ey ->
  Zpos mx * Zpos my + 2 ^ 52 < N * 2 ^ (- (ex + ey)) ->
  exists v,
    Ieee.floorSF (SF64mul (S754_finite false mx ex) (S754_finite false my ey)) = Some v
    /\ 0 <= v < N.
Proof.
  intros Vx Vy He Hey H.
  destruct (valid_finite _ _ _ Vx) as [[Ex1 Ex2] [Mx _]].
  destruct (valid_finite _ _ _ Vy) as [[Ey1 Ey2] [My _]].
  unfold SF64mul, SFmul. cbn [xorb].
  rewrite binary_round_aux_pos.
  set (m := (mx * my)%positive) in *. set (e := ex + ey) in *.
  assert (Hm : Zpos m = Zpos mx * Zpos my) by (unfold m; lia).
  assert (Dm : Zpos (digits2_pos m) <= 106).
  { apply digits2_pos_le. rewrite Hm. change (2 ^ 106) with (2 ^ 53 * 2 ^ 53). nia. }
  pose proof (digits2_pos_bounds m) as [_ Dhi].
  set (n := fexp prec emax (Zpos (digits2_pos m) + e) - e) in *.
  assert (Hn : n <= 53) by (unfold n, e; rewrite fexp64; lia).
  assert (P2 : 0 < 2 ^ (- e)) by (apply Z.pow_pos_nonneg; lia).
  assert (N0 : 0 < N) by nia.
  destruct (Z.leb_spec n 0) as [Hn0|Hn0].
  - destruct (Z.leb_spec e 971); [|lia].
    apply (floor_finite_lt m e e 0 N); try lia; rewrite Z.pow_0_r; lia.
  - destruct (rne_error (Zpos m) n ltac:(lia) Hn0) as [[_ R] [R1 R2]].
    assert (Pn : 0 < 2 ^ n) by (apply Z.pow_pos_nonneg; lia).
    assert (En : 2 ^ n = 2 ^ (n - 1) * 2) by (apply pow2_split; lia).
    assert (Ln : 2 ^ (n - 1) <= 2 ^ 52) by (apply Z.pow_le_mono_r; lia).
    assert (Hq : Zpos m / 2 ^ n < 2 ^ 53).
    { apply Z.div_lt_upper_bound; [lia|].
      rewrite <- Z.pow_add_r by lia.
      eapply Z.lt_le_trans; [exact Dhi|].
      apply Z.pow_le_mono_r; [lia|]. unfold n. rewrite fexp64. lia. }
    assert (Hq0 : 0 <= Zpos m / 2 ^ n) by (apply Z.div_pos; lia).
    destruct (Ieee.rne (Zpos m) n) as [|p1|p1] eqn:Er; [| |lia]; cbn [Ieee.round_result].
    + exists 0. split; [reflexivity|lia].
    + destruct (Z.ltb_spec (Zpos p1) (2 ^ 53)) as [Hlt|Hge].
      * destruct (Z.leb_spec (e + n) 971); [|lia].
        apply (floor_finite_lt p1 (e + n) e n N); try lia.
      * destruct (Z.leb_spec (e + n + 1) 971); [|lia].
        apply (floor_finite_lt _ (e + n + 1) e (n + 1) N); try lia.
        rewrite Z.pow_add_r by lia.
        assert (Zpos p1 = 2 ^ 53) by lia.
        change (Zpos 4503599627370496) with (2 ^ 52).
        change (2 ^ 53) with (2 ^ 52 * 2 ^ 1) in *. nia.
Qed.

End Products.

Section Comparisons.

Lemma one_SF : Prim2SF 1%float = S754_finite false 4503599627370496 (-52).
Proof. vm_compute. reflexivity. Qed.

Lemma zero_SF : Prim2SF 0%float = S754_zero false.
Proof. vm_compute. reflexivity. Qed.

Lemma SFcompare_finite_pos (m1 m2 : positive) (e1 e2 : Z) :
  SFcompare (S754_finite false m1 e1) (S754_finite false m2 e2)
  = Some match e1 ?= e2 with
         | Lt => Lt
         | Gt => Gt
         | Eq => (m1 ?= m2)%positive
         end.
Proof. reflexivity. Qed.

Lemma SFltb_finite_pos (m1 m2 : positive) (e1 e2 : Z) :
  SFltb (S754_finite false m1 e1) (S754_finite false m2 e2) = true
  <-> e1 < e2 \/ (e1 = e2 /\ Zpos m1 < Zpos m2).
Proof.
  unfold SFltb. rewrite SFcompare_finite_pos.
  destruct (Z.compare_spec e1 e2) as [E|E|E];
    [destruct (Pos.compare_spec m1 m2) as [M|M|M]| |];
    split; try discriminate; try lia; auto.
Qed.

Lemma SFleb_finite_pos (m1 m2 : positive) (e1 e2 : Z) :
  SFleb (S754_finite false m1 e1) (S754_finite false m2 e2) = true
  <-> e1 < e2 \/ (e1 = e2 /\ Zpos m1 <= Zpos m2).
Proof.
  unfold SFleb. rewrite SFcompare_finite_pos.
  destruct (Z.compare_spec e1 e2) as [E|E|E];
    [destruct (Pos.compare_spec m1 m2) as [M|M|M]| |];
    split; try discriminate; try lia; auto.
Qed.

(** The doubles in the half-open unit interval. *)
Lemma unit_interval_SF (r : float) :
  PrimFloat.leb 0 r = true -> PrimFloat.ltb r 1 = true ->
  (exists s, Prim2SF r = S754_zero s)
  \/ (exists m e, Prim2SF r = S754_finite false m e
                  /\ e <= -53 /\ Zpos m < 2 ^ 53).
Proof.
  rewrite FloatAxioms.leb_spec, FloatAxioms.ltb_spec, zero_SF, one_SF.
  pose proof (Prim2SF_valid r) as V.
  destruct (Prim2SF r) as [s|s| |s m e]; intros H0 L.
  - left. now exists s.
  - destruct s; [discriminate H0 | discriminate L].
  - discriminate H0.
  - destruct s; [discriminate H0|].
    destruct (valid_finite _ _ _ V) as [_ [M C]].
    right. exists m, e. split; [reflexivity|]. split; [|exact M].
    apply SFltb_finite_pos in L.
    change (Zpos 4503599627370496) with (2 ^ 52) in L. lia.
Qed.

End Comparisons.

(* ================================================================== *)
(** ** The order of doubles, and the hazard before and after its clamp *)
(* ================================================================== *)

Import Ieee.

Section Order.

(** Comparison is antisymmetric, reflexive on numbers, and defined
    between any two numbers. *)
Lemma SFcompare_swap (x y : spec_float) :
  SFcompare y x = option_map CompOpp (SFcompare x y).
Proof.
  destruct x as [sx|sx| |sx mx ex], y as [sy|sy| |sy my ey];
    try destruct sx; try destruct sy; try reflexivity;
    unfold SFcompare; cbn [option_map]; f_equal;
    rewrite (Z.compare_antisym ex ey);
    destruct (ex ?= ey); cbn [CompOpp]; try reflexivity.
  - f_equal. exact (eq_sym (Pos.compare_cont_antisym mx my Eq)).
  - exact (eq_sym (Pos.compare_cont_antisym mx my Eq)).
Qed.

Lemma SFcompare_refl (x : spec_float) :
  x <> S754_nan -> SFcompare x x = Some Eq.
Proof.
  destruct x as [s|s| |s m e]; try destruct s; try reflexivity;
    try congruence; intros _; unfold SFcompare;
    rewrite Z.compare_refl, Pos.compare_cont_refl; reflexivity.
Qed.

Lemma SFcompare_defined (x y : spec_float) :
  x <> S754_nan -> y <> S754_nan -> exists c, SFcompare x y = Some c.
Proof.
  destruct x as [sx|sx| |sx mx ex], y as [sy|sy| |sy my ey];
    try congruence; intros _ _; unfold SFcompare; eexists; reflexivity.
Qed.

(** [x !== x] holds of NaN only. *)
Lemma is_nan_SF (x : float) :
  Js.is_nan x = false <-> Prim2SF x <> S754_nan.
Proof.
  unfold Js.is_nan. rewrite FloatAxioms.eqb_spec. unfold SFeqb.
  split.
  - intros H E. rewrite E in H. discriminate H.
  - intro N. now rewrite SFcompare_refl.
Qed.

Lemma lt_le (x y : float) : Js.lt x y = true -> Js.le x y = true.
Proof.
  unfold Js.lt, Js.le. rewrite FloatAxioms.ltb_spec, FloatAxioms.leb_spec.
  unfold SFltb, SFleb. destruct (SFcompare _ _) as [[| |]|]; congruence.
Qed.

Lemma not_lt_le (x y : float) :
  Js.is_nan x = false -> Js.is_nan y = false ->
  Js.lt x y = false -> Js.le y x = true.
Proof.
  intros Hx Hy. apply is_nan_SF in Hx, Hy. unfold Js.lt, Js.le.
  rewrite FloatAxioms.ltb_spec, FloatAxioms.leb_spec. unfold SFltb, SFleb.
  rewrite (SFcompare_swap (Prim2SF x) (Prim2SF y)).
  destruct (SFcompare_defined _ _ Hx Hy) as [c ->].
  destruct c; cbn; congruence.
Qed.

End Order.

Section Clamp.
Import Js.

(** Clamping any double that is a number lands in the band. *)
Lemma clamp_in_band (p : number) :
  is_nan p = false ->
  Props.in_band (Math_min 0.30%float (Math_max 0.04%float p)) = true.
Proof.
  intro Hp. unfold Props.in_band, Props.pMin, Props.pMax.
  assert (Hq : is_nan (Math_max 0.04%float p) = false
               /\ le 0.04%float (Math_max 0.04%float p) = true).
  { unfold Math_max. change (is_nan 0.04%float) with false. rewrite Hp.
    cbn [orb]. destruct (PrimFloat.ltb 0.04%float p) eqn:L1.
    - split; [exact Hp | now apply lt_le].
    - change (PrimFloat.get_sign 0.04%float) with false.
      destruct (PrimFloat.ltb p 0.04%float); split; reflexivity. }
  destruct Hq as [Nq Lq]. set (q := Math_max 0.04%float p) in *.
  unfold Math_min. change (is_nan 0.30%float) with false. rewrite Nq.
  cbn [orb]. destruct (PrimFloat.ltb 0.30%float q) eqn:L1; [reflexivity|].
  change (PrimFloat.get_sign 0.30%float) with false.
  assert (Le : le q 0.30%float = true) by (apply not_lt_le; [reflexivity | exact Nq | exact L1]).
  destruct (PrimFloat.ltb q 0.30%float); rewrite Lq, Le; reflexivity.
Qed.

End Clamp.

Section NotNaN.
Import Js.

(** Rounding, products with a finite factor and sums with a finite term
    never make a NaN out of numbers. *)
Lemma round_result_not_nan (sx : bool) (m1 e1 : Z) :
  Ieee.round_result sx m1 e1 <> S754_nan.
Proof.
  unfold Ieee.round_result. destruct m1 as [|p|p]; try discriminate.
  destruct (Z.pos p <? 2 ^ 53); [destruct (e1 <=? 971)|destruct (e1 + 1 <=? 971)];
    discriminate.
Qed.

Lemma binary_round_aux_not_nan (sx : bool) (m : positive) (e : Z) :
  binary_round_aux prec emax sx (Zpos m) e loc_Exact <> S754_nan.
Proof.
  rewrite binary_round_aux_pos.
  destruct (_ <=? 0).
  - destruct (e <=? 971); discriminate.
  - apply round_result_not_nan.
Qed.

Lemma binary_normalize_not_nan (z e : Z) (s : bool) :
  binary_normalize prec emax z e s <> S754_nan.
Proof.
  destruct z as [|p|p]; cbn [binary_normalize]; try discriminate;
    unfold binary_round; destruct (shl_align _ _ _) as [mz ez];
    apply binary_round_aux_not_nan.
Qed.


Lemma mul_finite_not_nan (k x : number) :
  finiteSF (Prim2SF k) -> is_nan x = false ->
  is_nan (PrimFloat.mul k x) = false /\ is_nan (PrimFloat.mul x k) = false.
Proof.
  intros Hk Hx. rewrite !is_nan_SF in *. rewrite !FloatAxioms.mul_spec.
  destruct (Prim2SF k) as [| | |sk mk ek]; try contradiction.
  destruct (Prim2SF x) as [sx|sx| |sx mx ex]; try congruence;
    split; try discriminate; unfold SF64mul, SFmul; apply binary_round_aux_not_nan.
Qed.

Lemma add_finite_not_nan (k x : number) :
  finiteSF (Prim2SF k) -> is_nan x = false ->
  is_nan (PrimFloat.add k x) = false.
Proof.
  intros Hk Hx. rewrite !is_nan_SF in *. rewrite FloatAxioms.add_spec.
  destruct (Prim2SF k) as [| | |sk mk ek]; try contradiction.
  destruct (Prim2SF x) as [sx|sx| |sx mx ex]; try congruence; try discriminate.
  unfold SF64add, SFadd. apply binary_normalize_not_nan.
Qed.

Lemma hazard_constants_finite (k : OutcomeController.RunType) :
  finiteSF (Prim2SF (OutcomeController.BASE_PROB k))
  /\ finiteSF (Prim2SF (OutcomeController.GROW_RATE k))
  /\ finiteSF (Prim2SF 0.80%float) /\ finiteSF (Prim2SF 1.10%float).
Proof. destruct k; vm_compute; auto. Qed.

(** The hazard of a step index that is a number is a number in the band. *)
Lemma hazard_in_band (c : OutcomeController.t) (x : number) :
  is_nan x = false ->
  Props.in_band (OutcomeController.getBombProbability c x) = true.
Proof.
  intro Hx. unfold OutcomeController.getBombProbability.
  destruct (hazard_constants_finite (OutcomeController.runType c))
    as (Fb & Fr & F8 & F11).
  pose proof (proj1 (mul_finite_not_nan _ x Fr Hx)) as N1.
  pose proof (add_finite_not_nan _ _ Fb N1) as N2.
  apply clamp_in_band.
  destruct (3 <=? _)%nat; [|destruct (3 <=? _)%nat].
  - exact (proj2 (mul_finite_not_nan _ _ F8 N2)).
  - exact (proj2 (mul_finite_not_nan _ _ F11 N2)).
  - exact N2.
Qed.

Lemma le_not_nan (x y : number) :
  le x y = true -> is_nan x = false /\ is_nan y = false.
Proof.
  unfold le. rewrite FloatAxioms.leb_spec, !is_nan_SF. unfold SFleb.
  destruct (Prim2SF x), (Prim2SF y); cbn [SFcompare]; try discriminate;
    intros _; split; discriminate.
Qed.

End NotNaN.

Section Keys.


Lemma SFcompare_key (x y : spec_float) :
  x <> S754_nan -> y <> S754_nan ->
  match SFcompare x y with
  | Some Lt => key_lt (SFkey x) (SFkey y)
  | Some Eq => SFkey x = SFkey y
  | Some Gt => key_lt (SFkey y) (SFkey x)
  | None => False
  end.
Proof.
  intros Hx Hy.
  destruct x as [sx|sx| |sx mx ex], y as [sy|sy| |sy my ey];
    try congruence; try destruct sx; try destruct sy;
    unfold SFcompare, key_lt, SFkey; cbn [fst snd]; try lia; try reflexivity;
    rewrite Pos.compare_cont_spec; unfold Pos.switch_Eq;
    destruct (Z.compare_spec ex ey); try lia;
    destruct (Pos.compare_spec mx my); cbn [CompOpp]; subst; try lia; reflexivity.
Qed.

End Keys.

Section FloatOrder.
Import Js.


Lemma SFcompare_nan_l (y : spec_float) : SFcompare S754_nan y = None.
Proof. reflexivity. Qed.

Lemma SFcompare_nan_r (x : spec_float) : SFcompare x S754_nan = None.
Proof. destruct x as [s|s| |s m e]; reflexivity. Qed.

Lemma nan_dec (x : spec_float) : {x = S754_nan} + {x <> S754_nan}.
Proof. destruct x; try (right; discriminate). left; reflexivity. Qed.

Lemma key_lt_irrefl (a : Z * Z * Z) : ~ key_lt a a.
Proof. unfold key_lt. lia. Qed.

Lemma key_lt_asym (a b : Z * Z * Z) : key_lt a b -> key_lt b a -> False.
Proof. unfold key_lt. lia. Qed.

Lemma key_lt_trans (a b c : Z * Z * Z) : key_lt a b -> key_lt b c -> key_lt a c.
Proof. unfold key_lt. lia. Qed.

Lemma key_lt_le_trans (a b c : Z * Z * Z) : key_lt a b -> key_le b c -> key_lt a c.
Proof. intros H [L| <-]; [exact (key_lt_trans _ _ _ H L) | exact H]. Qed.

Lemma key_le_lt_trans (a b c : Z * Z * Z) : key_le a b -> key_lt b c -> key_lt a c.
Proof. intros [L| ->] H; [exact (key_lt_trans _ _ _ L H) | exact H]. Qed.

Lemma SFltb_key (X Y : spec_float) :
  SFltb X Y = true
  <-> X <> S754_nan /\ Y <> S754_nan /\ key_lt (SFkey X) (SFkey Y).
Proof.
  unfold SFltb.
  destruct (nan_dec X) as [-> | HX];
    [rewrite SFcompare_nan_l; split; [discriminate | intros (N & _); congruence]|].
  destruct (nan_dec Y) as [-> | HY];
    [rewrite SFcompare_nan_r; split; [discriminate | intros (_ & N & _); congruence]|].
  pose proof (SFcompare_key X Y HX HY) as K.
  destruct (SFcompare X Y) as [[| |]|]; [| | |contradiction].
  - split; [discriminate|]. intros (_ & _ & H). rewrite K in H.
    now apply key_lt_irrefl in H.
  - split; auto.
  - split; [discriminate|]. intros (_ & _ & H). exfalso.
    exact (key_lt_asym _ _ H K).
Qed.

Lemma SFleb_key (X Y : spec_float) :
  SFleb X Y = true
  <-> X <> S754_nan /\ Y <> S754_nan /\ key_le (SFkey X) (SFkey Y).
Proof.
  unfold SFleb.
  destruct (nan_dec X) as [-> | HX];
    [rewrite SFcompare_nan_l; split; [discriminate | intros (N & _); congruence]|].
  destruct (nan_dec Y) as [-> | HY];
    [rewrite SFcompare_nan_r; split; [discriminate | intros (_ & N & _); congruence]|].
  pose proof (SFcompare_key X Y HX HY) as K.
  destruct (SFcompare X Y) as [[| |]|]; [| | |contradiction].
  - split; auto. intros _. repeat split; auto. now right.
  - split; auto. intros _. repeat split; auto. now left.
  - split; [discriminate|]. intros (_ & _ & [H | H]); exfalso.
    + exact (key_lt_asym _ _ H K).
    + rewrite H in K. now apply key_lt_irrefl in K.
Qed.

Lemma lt_key (x y : number) :
  lt x y = true
  <-> Prim2SF x <> S754_nan /\ Prim2SF y <> S754_nan
      /\ key_lt (SFkey (Prim2SF x)) (SFkey (Prim2SF y)).
Proof. unfold lt. rewrite FloatAxioms.ltb_spec. apply SFltb_key. Qed.

Lemma le_key (x y : number) :
  le x y = true
  <-> Prim2SF x <> S754_nan /\ Prim2SF y <> S754_nan
      /\ key_le (SFkey (Prim2SF x)) (SFkey (Prim2SF y)).
Proof. unfold le. rewrite FloatAxioms.leb_spec. apply SFleb_key. Qed.

End FloatOrder.

Section Scaling.

(** Rounding a mantissa of more than 53 bits in the normal range. *)
Lemma round_normal (sx : bool) (M : positive) (e d : Z) :
  Zpos (digits2_pos M) = d -> 53 < d -> -1074 <= d + e - 53 ->
  binary_round_aux prec emax sx (Zpos M) e loc_Exact
  = Ieee.round_result sx (Ieee.rne (Zpos M) (d - 53)) (e + (d - 53))
  /\ Zpos M / 2 ^ (d - 53) <= Ieee.rne (Zpos M) (d - 53) <= Zpos M / 2 ^ (d - 53) + 1
  /\ 2 ^ 52 <= Zpos M / 2 ^ (d - 53) < 2 ^ 53.
Proof.
  intros Hd H53 Hn. rewrite binary_round_aux_pos, Hd, fexp64.
  replace (Z.max (d + e - 53) (-1074) - e) with (d - 53) by lia.
  destruct (Z.leb_spec (d - 53) 0); [lia|].
  split; [reflexivity|].
  destruct (rne_error (Zpos M) (d - 53) ltac:(lia) ltac:(lia)) as [_ R].
  split; [exact R|].
  pose proof (digits2_pos_bounds M) as [Dlo Dhi]. rewrite Hd in Dlo, Dhi.
  assert (Pn : 0 < 2 ^ (d - 53)) by (apply Z.pow_pos_nonneg; lia).
  split.
  - apply Z.div_le_lower_bound; [lia|].
    rewrite <- Z.pow_add_r by lia.
    replace (d - 53 + 52) with (d - 1) by lia. exact Dlo.
  - apply Z.div_lt_upper_bound; [lia|].
    rewrite <- Z.pow_add_r by lia.
    replace (d - 53 + 53) with d by lia. exact Dhi.
Qed.

Lemma digits_product (a b : positive) :
  2 ^ 52 <= Zpos a < 2 ^ 53 -> 2 ^ 52 <= Zpos b < 2 ^ 53 ->
  (Zpos (a * b) < 2 ^ 105 /\ Zpos (digits2_pos (a * b)) = 105)
  \/ (2 ^ 105 <= Zpos (a * b) /\ Zpos (digits2_pos (a * b)) = 106).
Proof.
  intros Ha Hb. rewrite Pos2Z.inj_mul.
  assert (L : 2 ^ 104 <= Zpos a * Zpos b).
  { change (2 ^ 104) with (2 ^ 52 * 2 ^ 52). nia. }
  assert (U : Zpos a * Zpos b < 2 ^ 106).
  { change (2 ^ 106) with (2 ^ 53 * 2 ^ 53). nia. }
  destruct (Z_lt_le_dec (Zpos a * Zpos b) (2 ^ 105)) as [C|C]; [left|right];
    (split; [exact C|]); apply digits2_pos_unique; rewrite Pos2Z.inj_mul; lia.
Qed.

(** Four fifths of a double of at least 1/16 is a smaller double, still
    above 0.04. *)
Lemma mul_080_SF (mp : positive) (ep : Z) :
  valid_binary (S754_finite false mp ep) = true -> -56 <= ep ->
  exists m e,
    SF64mul (S754_finite false mp ep) (S754_finite false 7205759403792794 (-53))
    = S754_finite false m e
    /\ (e < ep \/ (e = ep /\ Zpos m < Zpos mp))
    /\ (-57 < e \/ (e = -57 /\ 5764607523034235 < Zpos m)).
Proof.
  intros V He. destruct (valid_finite _ _ _ V) as [[_ E2] [M1 [C|M0]]]; [lia|].
  unfold SF64mul, SFmul. cbn [xorb].
  set (M := (mp * 7205759403792794)%positive).
  assert (HM : Zpos M = Zpos mp * 7205759403792794) by (unfold M; lia).
  destruct (digits_product mp 7205759403792794 ltac:(lia) ltac:(lia)) as [[B D]|[B D]];
    fold M in B, D.
  - destruct (round_normal false M (ep + -53) 105 D ltac:(lia) ltac:(lia))
      as (R & [R1 R2] & [Q1 Q2]).
    rewrite R. replace (105 - 53) with 52 in * by lia.
    pose proof (Z.mul_div_le (Zpos M) (2 ^ 52) ltac:(lia)) as F1.
    pose proof (Z.mul_succ_div_gt (Zpos M) (2 ^ 52) ltac:(lia)) as F2.
    destruct (Ieee.rne (Zpos M) 52) as [|p1|p1]; try lia.
    cbn [Ieee.round_result].
    destruct (Z.ltb_spec (Zpos p1) (2 ^ 53)).
    + destruct (Z.leb_spec (ep + -53 + 52) 971); [|lia].
      exists p1, (ep + -53 + 52). split; [reflexivity|]. split; lia.
    + destruct (Z.leb_spec (ep + -53 + 52 + 1) 971); [|lia].
      exists 4503599627370496%positive, (ep + -53 + 52 + 1).
      split; [reflexivity|]. split; lia.
  - destruct (round_normal false M (ep + -53) 106 D ltac:(lia) ltac:(lia))
      as (R & [R1 R2] & [Q1 Q2]).
    rewrite R. replace (106 - 53) with 53 in * by lia.
    pose proof (Z.mul_div_le (Zpos M) (2 ^ 53) ltac:(lia)) as F1.
    pose proof (Z.mul_succ_div_gt (Zpos M) (2 ^ 53) ltac:(lia)) as F2.
    destruct (Ieee.rne (Zpos M) 53) as [|p1|p1]; try lia.
    cbn [Ieee.round_result].
    destruct (Z.ltb_spec (Zpos p1) (2 ^ 53)); [|lia].
    destruct (Z.leb_spec (ep + -53 + 53) 971); [|lia].
    exists p1, (ep + -53 + 53). split; [reflexivity|]. split; lia.
Qed.

(** Eleven tenths of a double of at least 1/16 is a larger double, or
    overflows to infinity. *)
Lemma mul_110_SF (mp : positive) (ep : Z) :
  valid_binary (S754_finite false mp ep) = true -> -56 <= ep ->
  SF64mul (S754_finite false mp ep) (S754_finite false 4953959590107546 (-52))
  = S754_infinity false
  \/ exists m e,
      SF64mul (S754_finite false mp ep) (S754_finite false 4953959590107546 (-52))
      = S754_finite false m e
      /\ (ep < e \/ (e = ep /\ Zpos mp < Zpos m)).
Proof.
  intros V He. destruct (valid_finite _ _ _ V) as [[_ E2] [M1 [C|M0]]]; [lia|].
  unfold SF64mul, SFmul. cbn [xorb].
  set (M := (mp * 4953959590107546)%positive).
  assert (HM : Zpos M = Zpos mp * 4953959590107546) by (unfold M; lia).
  destruct (digits_product mp 4953959590107546 ltac:(lia) ltac:(lia)) as [[B D]|[B D]];
    fold M in B, D.
  - destruct (round_normal false M (ep + -52) 105 D ltac:(lia) ltac:(lia))
      as (R & [R1 R2] & [Q1 Q2]).
    rewrite R. replace (105 - 53) with 52 in * by lia.
    pose proof (Z.mul_div_le (Zpos M) (2 ^ 52) ltac:(lia)) as F1.
    pose proof (Z.mul_succ_div_gt (Zpos M) (2 ^ 52) ltac:(lia)) as F2.
    destruct (Ieee.rne (Zpos M) 52) as [|p1|p1]; try lia.
    cbn [Ieee.round_result].
    destruct (Z.ltb_spec (Zpos p1) (2 ^ 53)).
    + destruct (Z.leb_spec (ep + -52 + 52) 971); [|lia].
      right. exists p1, (ep + -52 + 52). split; [reflexivity|]. lia.
    + destruct (Z.leb_spec (ep + -52 + 52 + 1) 971); [|now left].
      right. exists 4503599627370496%positive, (ep + -52 + 52 + 1).
      split; [reflexivity|]. lia.
  - destruct (round_normal false M (ep + -52) 106 D ltac:(lia) ltac:(lia))
      as (R & [R1 R2] & [Q1 Q2]).
    rewrite R. replace (106 - 53) with 53 in * by lia.
    destruct (Ieee.rne (Zpos M) 53) as [|p1|p1]; try lia.
    cbn [Ieee.round_result].
    destruct (Z.ltb_spec (Zpos p1) (2 ^ 53)).
    + destruct (Z.leb_spec (ep + -52 + 53) 971); [|now left].
      right. exists p1, (ep + -52 + 53). split; [reflexivity|]. lia.
    + destruct (Z.leb_spec (ep + -52 + 53 + 1) 971); [|now left].
      right. exists 4503599627370496%positive, (ep + -52 + 53 + 1).
      split; [reflexivity|]. lia.
Qed.

End Scaling.

Section RawHazard.
Import Js.


Lemma le_0_nonneg (x : number) : le 0%float x = true -> nonnegSF (Prim2SF x).
Proof.
  unfold le. rewrite FloatAxioms.leb_spec, zero_SF.
  destruct (Prim2SF x) as [s|s| |s m e]; try destruct s; cbn;
    try discriminate; auto.
Qed.

Lemma round_result_nonneg (m1 e1 : Z) : nonnegSF (Ieee.round_result false m1 e1).
Proof.
  unfold Ieee.round_result. destruct m1 as [|p|p]; try exact I.
  destruct (Z.pos p <? 2 ^ 53); [destruct (e1 <=? 971)|destruct (e1 + 1 <=? 971)];
    exact I.
Qed.

Lemma mul_nonneg (m : positive) (e : Z) (X : spec_float) :
  nonnegSF X -> nonnegSF (SF64mul (S754_finite false m e) X).
Proof.
  destruct X as [s|s| |s mx ex]; try destruct s; cbn [nonnegSF];
    try contradiction; intros _; try exact I.
  unfold SF64mul, SFmul. cbn [xorb]. rewrite binary_round_aux_pos.
  destruct (_ <=? 0); [destruct (_ <=? 971); exact I|].
  apply round_result_nonneg.
Qed.

Lemma shl_align_fst (mx : positive) (ex ez : Z) :
  ez <= ex -> Zpos (fst (shl_align mx ex ez)) = Zpos mx * 2 ^ (ex - ez).
Proof.
  intro H. unfold shl_align. destruct (ez - ex) as [|d|d] eqn:E; cbn [fst]; try lia.
  - replace (ex - ez) with 0 by lia. lia.
  - rewrite iter_xO. f_equal. f_equal. lia.
Qed.

(** Adding a non-negative double to one of at least 1/16 keeps it there. *)
Lemma add_sixteenth (mb : positive) (eb : Z) (T : spec_float) :
  valid_binary (S754_finite false mb eb) = true -> -56 <= eb ->
  nonnegSF T ->
  sixteenthSF (SF64add (S754_finite false mb eb) T).
Proof.
  intros V He HT. destruct (valid_finite _ _ _ V) as [[_ E2] [M1 [C|M0]]]; [lia|].
  destruct T as [s|s| |s mt et]; try destruct s; cbn [nonnegSF] in HT;
    try contradiction; unfold SF64add, SFadd.
  1, 2: right; exists mb, eb; split; [reflexivity | exact He].
  1: left; reflexivity.
  cbn [cond_Zopp]. set (ez := Z.min eb et).
  pose proof (shl_align_fst mb eb ez ltac:(unfold ez; lia)) as HA.
  set (A := fst (shl_align mb eb ez)) in *.
  set (B := fst (shl_align mt et ez)).
  change (Zpos A + Zpos B) with (Zpos (A + B)).
  cbn [binary_normalize]. unfold binary_round.
  pose proof (digits2_pos_bounds (A + B)) as [Dlo Dhi].
  set (d := Zpos (digits2_pos (A + B))) in *.
  assert (P1 : 0 < 2 ^ (eb - ez)) by (apply Z.pow_pos_nonneg; unfold ez; lia).
  assert (Hd : 53 + (eb - ez) <= d).
  { destruct (Z_lt_le_dec d (53 + (eb - ez))) as [L|]; [|assumption].
    assert (2 ^ d <= 2 ^ (52 + (eb - ez))) by (apply Z.pow_le_mono_r; lia).
    rewrite Z.pow_add_r in H by (unfold ez; lia).
    rewrite Pos2Z.inj_add in Dhi. nia. }
  rewrite fexp64.
  replace (Z.max (d + ez - 53) (-1074)) with (d + ez - 53) by lia.
  unfold shl_align.
  destruct (d + ez - 53 - ez) as [|q|q] eqn:Eq; try lia.
  - (* the sum already has 53 bits *)
    rewrite binary_round_aux_pos. fold d. rewrite fexp64.
    destruct (Z.leb_spec (Z.max (d + ez - 53) (-1074) - ez) 0); [|lia].
    destruct (ez <=? 971); [right|left; reflexivity].
    exists (A + B)%positive, ez. split; [reflexivity|lia].
  - rewrite binary_round_aux_pos. fold d. rewrite fexp64.
    destruct (Z.leb_spec (Z.max (d + ez - 53) (-1074) - ez) 0); [lia|].
    replace (Z.max (d + ez - 53) (-1074) - ez) with (d - 53) by lia.
    destruct (rne_error (Zpos (A + B)) (d - 53) ltac:(lia) ltac:(lia)) as [_ [R1 _]].
    assert (Q : 2 ^ 52 <= Zpos (A + B) / 2 ^ (d - 53)).
    { apply Z.div_le_lower_bound; [apply Z.pow_pos_nonneg; lia|].
      rewrite <- Z.pow_add_r by lia.
      replace (d - 53 + 52) with (d - 1) by lia. exact Dlo. }
    destruct (Ieee.rne (Zpos (A + B)) (d - 53)) as [|p1|p1]; try lia.
    cbn [Ieee.round_result].
    destruct (Z.pos p1 <? 2 ^ 53).
    + destruct (_ <=? 971); [right|left; reflexivity].
      eexists _, _. split; [reflexivity|lia].
    + destruct (_ <=? 971); [right|left; reflexivity].
      eexists _, _. split; [reflexivity|lia].
Qed.

Lemma hazard_bases_SF (k : OutcomeController.RunType) :
  exists mb eb mr er,
    Prim2SF (OutcomeController.BASE_PROB k) = S754_finite false mb eb
    /\ -56 <= eb
    /\ Prim2SF (OutcomeController.GROW_RATE k) = S754_finite false mr er.
Proof.
  destruct k; vm_compute; eexists _, _, _, _; repeat split; discriminate.
Qed.

(** Before the streak factor and the clamp, the hazard of a non-negative
    step index is at least 1/16. *)
Lemma raw_hazard_sixteenth (k : OutcomeController.RunType) (x : number) :
  le 0%float x = true ->
  sixteenthSF
    (Prim2SF (PrimFloat.add (OutcomeController.BASE_PROB k)
                (PrimFloat.mul (OutcomeController.GROW_RATE k) x))).
Proof.
  intro Hx. destruct (hazard_bases_SF k) as (mb & eb & mr & er & Hb & He & Hr).
  rewrite FloatAxioms.add_spec, FloatAxioms.mul_spec.
  pose proof (Prim2SF_valid (OutcomeController.BASE_PROB k)) as V.
  rewrite Hb in *. rewrite Hr.
  apply add_sixteenth; [exact V | exact He |].
  apply mul_nonneg. now apply le_0_nonneg.
Qed.

End RawHazard.

Section StreakFactors.
Import Js.

Lemma c004_SF : Prim2SF 0.04%float = S754_finite false 5764607523034235 (-57).
Proof. vm_compute. reflexivity. Qed.

Lemma c030_SF : Prim2SF 0.30%float = S754_finite false 5404319552844595 (-54).
Proof. vm_compute. reflexivity. Qed.

Lemma c080_SF : Prim2SF 0.80%float = S754_finite false 7205759403792794 (-53).
Proof. vm_compute. reflexivity. Qed.

Lemma c110_SF : Prim2SF 1.10%float = S754_finite false 4953959590107546 (-52).
Proof. vm_compute. reflexivity. Qed.

Lemma lt_le_trans (a b c : number) :
  lt a b = true -> le b c = true -> lt a c = true.
Proof.
  rewrite !lt_key, le_key. intros (Na & _ & H1) (_ & Nc & H2).
  repeat split; auto. exact (key_lt_le_trans _ _ _ H1 H2).
Qed.

Lemma sixteenth_above_pMin (p : number) :
  sixteenthSF (Prim2SF p) -> lt 0.04%float p = true.
Proof.
  intro H. apply lt_key. rewrite c004_SF.
  destruct H as [-> | (m & e & -> & He)];
    (split; [discriminate|]); (split; [discriminate|]);
    unfold key_lt, SFkey; cbn [fst snd]; lia.
Qed.

(** The mercy factor: strictly down, unless everything is infinite, and
    still above 0.04. *)
Lemma mercy_factor (p : number) :
  sixteenthSF (Prim2SF p) ->
  let q := PrimFloat.mul p 0.80%float in
  lt 0.04%float q = true /\ le q p = true
  /\ (lt q 0.30%float = true -> lt q p = true).
Proof.
  intros H q. subst q. rewrite !lt_key, le_key.
  rewrite FloatAxioms.mul_spec, c080_SF, c004_SF, c030_SF.
  pose proof (Prim2SF_valid p) as V.
  destruct H as [E | (m & e & E & He)]; rewrite E in *.
  - cbn [SF64mul SFmul xorb]. unfold key_le, key_lt, SFkey; cbn [fst snd].
    repeat split; try discriminate; try lia; auto;
      try (intros (_ & _ & K); lia).
  - destruct (mul_080_SF m e V He) as (m1 & e1 & -> & Lp & L4).
    unfold key_le, key_lt, SFkey; cbn [fst snd].
    repeat split; try discriminate; try lia; try (left; lia).
Qed.

(** The correction factor: strictly up, unless everything is infinite. *)
Lemma correction_factor (p : number) :
  sixteenthSF (Prim2SF p) ->
  let w := PrimFloat.mul p 1.10%float in
  lt 0.04%float w = true /\ le p w = true
  /\ (lt p 0.30%float = true -> lt p w = true).
Proof.
  intros H w. subst w. rewrite !lt_key, le_key.
  rewrite FloatAxioms.mul_spec, c110_SF, c004_SF, c030_SF.
  pose proof (Prim2SF_valid p) as V.
  destruct H as [E | (m & e & E & He)]; rewrite E in *.
  - cbn [SF64mul SFmul xorb]. unfold key_le, key_lt, SFkey; cbn [fst snd].
    repeat split; try discriminate; try lia; auto;
      try (intros (_ & _ & K); lia).
  - destruct (mul_110_SF m e V He) as [-> | (m1 & e1 & -> & Lp)];
      unfold key_le, key_lt, SFkey; cbn [fst snd];
      repeat split; try discriminate; try lia; try (left; lia).
Qed.

(** Above 0.04 the clamp only cuts at 0.30. *)
Lemma clamp_above_pMin (y : number) :
  lt 0.04%float y = true ->
  Math_min 0.30%float (Math_max 0.04%float y)
  = if lt 0.30%float y then 0.30%float else y.
Proof.
  intro H. assert (N : is_nan y = false).
  { apply is_nan_SF. apply lt_key in H. tauto. }
  unfold Math_max. change (is_nan 0.04%float) with false. rewrite N.
  cbn [orb]. unfold lt in H. rewrite H.
  unfold Math_min. change (is_nan 0.30%float) with false. rewrite N.
  cbn [orb]. unfold lt. destruct (PrimFloat.ltb 0.30%float y); [reflexivity|].
  change (PrimFloat.get_sign 0.30%float) with false.
  destruct (PrimFloat.ltb y 0.30%float); reflexivity.
Qed.

(** Cutting at 0.30 keeps the order, and keeps it strict below 0.30. *)
Lemma cut_monotone (a b : number) :
  le a b = true ->
  (lt a 0.30%float = true -> lt a b = true) ->
  let ca := if lt 0.30%float a then 0.30%float else a in
  let cb := if lt 0.30%float b then 0.30%float else b in
  le ca cb = true /\ (lt ca 0.30%float = true -> lt ca cb = true).
Proof.
  intros Hab Hs ca cb. subst ca cb.
  assert (Na : is_nan a = false /\ is_nan b = false) by (now apply le_not_nan).
  destruct Na as [Na Nb].
  destruct (lt 0.30%float a) eqn:La; destruct (lt 0.30%float b) eqn:Lb.
  - split; [reflexivity|]. intro H. vm_compute in H. discriminate H.
  - rewrite (lt_le_trans _ _ _ La Hab) in Lb. discriminate Lb.
  - split; [apply not_lt_le; [reflexivity | exact Na | exact La]|]. auto.
  - split; [exact Hab | exact Hs].
Qed.

End StreakFactors.

Section StreakGeneral.
Import Js OutcomeController.

Lemma streak_regime_nonneg (k : RunType) (x : number) :
  le 0%float x = true ->
  let plain := getBombProbability (Props.controller_in k 0 0) x in
  let mercy := getBombProbability (Props.controller_in k 3 0) x in
  let corr := getBombProbability (Props.controller_in k 0 3) x in
  (le Props.pMin mercy = true /\ le mercy plain = true
   /\ (lt mercy Props.pMax = true -> lt mercy plain = true))
  /\ (le corr Props.pMax = true /\ le plain corr = true
      /\ (lt plain Props.pMax = true -> lt plain corr = true)).
Proof.
  intros Hx plain mercy corr.
  assert (Nx : is_nan x = false) by (apply (le_not_nan _ _ Hx)).
  pose proof (hazard_in_band (Props.controller_in k 3 0) x Nx) as Bm.
  pose proof (hazard_in_band (Props.controller_in k 0 3) x Nx) as Bc.
  fold mercy in Bm. fold corr in Bc.
  unfold Props.in_band in Bm, Bc. apply andb_true_iff in Bm, Bc.
  pose proof (raw_hazard_sixteenth k x Hx) as S.
  destruct (mercy_factor _ S) as (M1 & M2 & M3).
  destruct (correction_factor _ S) as (C1 & C2 & C3).
  pose proof (sixteenth_above_pMin _ S) as P1.
  subst plain mercy corr.
  unfold getBombProbability, Props.controller_in in *.
  cbn [runType consecutiveLosses consecutiveWins Nat.leb] in *.
  set (p := PrimFloat.add (BASE_PROB k) (PrimFloat.mul (GROW_RATE k) x)) in *.
  rewrite (clamp_above_pMin _ P1), (clamp_above_pMin _ M1), (clamp_above_pMin _ C1) in *.
  unfold Props.pMax.
  destruct (cut_monotone _ _ M2 M3) as [A1 A2].
  destruct (cut_monotone _ _ C2 C3) as [B1 B2].
  repeat split; tauto.
Qed.

End StreakGeneral.

(* ================================================================== *)
(** ** The generator is a function of its seed *)
(* ================================================================== *)

Section RngFacts.
Import Js.

Lemma chance_fst (p : number) (r : Rng.t) :
  fst (Rng.chance p r) = fst (Rng.next r).
Proof. unfold Rng.chance. destruct (Rng.next r); reflexivity. Qed.

Lemma advance_add (a b : nat) (r : Rng.t) :
  Rng.advance (a + b) r = Rng.advance b (Rng.advance a r).
Proof.
  revert r. induction a as [|a IH]; intro r; cbn [Nat.add Rng.advance]; [reflexivity|].
  apply IH.
Qed.

Lemma outputs_length (n : nat) (r : Rng.t) :
  List.length (Rng.outputs n r) = n.
Proof.
  revert r. induction n as [|n IH]; intro r; cbn [Rng.outputs]; [reflexivity|].
  destruct (Rng.next r) as [r' x] eqn:E. cbn [List.length]. now rewrite IH.
Qed.

Lemma outputs_nth (n i : nat) (r : Rng.t) :
  (i < n)%nat ->
  nth_error (Rng.outputs n r) i = Some (snd (Rng.next (Rng.advance i r))).
Proof.
  revert i r. induction n as [|n IH]; intros i r Hi; [lia|].
  cbn [Rng.outputs]. destruct (Rng.next r) as [r' x] eqn:E.
  destruct i as [|i]; cbn [nth_error Rng.advance].
  - now rewrite E.
  - rewrite E. cbn [fst]. apply IH. lia.
Qed.

(** Only the low 32 bits of the state matter. *)
Lemma next_state_mod (r1 r2 : Rng.t) :
  ToInt32 (Rng.state r1) = ToInt32 (Rng.state r2) ->
  snd (Rng.next r1) = snd (Rng.next r2)
  /\ Rng.state (fst (Rng.next r1)) = Rng.state (fst (Rng.next r2)).
Proof.
  intro H. unfold Rng.next, Rng.next_bits.
  cbv beta iota zeta delta [fst snd]. rewrite H. split; reflexivity.
Qed.

End RngFacts.

(** C3. Two generators constructed independently with the same seed
    return the same values: for every [N] their first [N] outputs are the
    same list, whatever [Math.random] would have supplied to either
    constructor, and the value at draw index [i] is the one [next]
    returns after [i] earlier calls on the seeded state. *)
Theorem rng_same_seed_same_outputs :
  forall (s fresh1 fresh2 : Z) (N : nat),
    Rng.outputs N (Rng.new (Some s) fresh1) = Rng.outputs N (Rng.new (Some s) fresh2)
    /\ List.length (Rng.outputs N (Rng.new (Some s) fresh1)) = N
    /\ forall i, (i < N)%nat ->
         nth_error (Rng.outputs N (Rng.new (Some s) fresh1)) i
         = Some (snd (Rng.next (Rng.advance i (Rng.mk s s)))).
Proof.
  intros s f1 f2 N. split; [reflexivity|]. split.
  - apply outputs_length.
  - intros i Hi. now rewrite outputs_nth.
Qed.

(* ================================================================== *)
(** ** Round resolution of the discrete engine *)
(* ================================================================== *)

Section ResolveRound.
Import ProbabilityController.

Lemma rollPlaneOutcome_fst (r : Rng.t) :
  fst (rollPlaneOutcome r) = fst (Rng.next r).
Proof. unfold rollPlaneOutcome. destruct (Rng.next r); reflexivity. Qed.

Lemma randomTower_fst (r : Rng.t) :
  fst (randomTower r) = fst (Rng.next r).
Proof.
  unfold randomTower. pose proof (chance_fst 0.5%float r) as H.
  destruct (Rng.chance 0.5%float r); cbn [fst] in *. exact H.
Qed.

End ResolveRound.

(** C2. In the record [resolveRound] returns, [destroyed[side]] is true
    exactly when the first plane names the side, or the second plane
    (present exactly when triggered) names it, or the collapse targets it;
    [selectedTowerWins] is the negation of [destroyed[selectedTower]].
    Both are the stated functions of the three recorded draws. *)
Theorem resolveRound_destroyed_derived :
  forall (selectedTower : ProbabilityController.TowerId) (r : Rng.t),
    let res := snd (ProbabilityController.resolveRound selectedTower r) in
    (forall side,
        ProbabilityController.at_tower (ProbabilityController.destroyed res) side
        = Props.derived_destroyed (ProbabilityController.firstPlane res)
            (ProbabilityController.secondPlane res)
            (ProbabilityController.collapsedTower res) side)
    /\ ProbabilityController.selectedTowerWins res
       = negb (ProbabilityController.at_tower
                 (ProbabilityController.destroyed res) selectedTower)
    /\ (ProbabilityController.secondPlaneTriggered res = true
        <-> ProbabilityController.secondPlane res <> None)
    /\ (ProbabilityController.collapseTriggered res = true
        <-> ProbabilityController.collapsedTower res <> None).
Proof.
  intros sel r. unfold ProbabilityController.resolveRound.
  destruct (Rng.chance _ r) as [r1 c].
  destruct c.
  - destruct (ProbabilityController.randomTower r1) as [r2 w].
    destruct (ProbabilityController.rollPlaneOutcome r2) as [r3 f].
    destruct f.
    + cbn. repeat split; try congruence; intros; destruct w, sel; try destruct side; reflexivity.
    + cbn. repeat split; try congruence; intros; destruct w, sel; try destruct side; reflexivity.
    + destruct (Rng.chance _ r3) as [r4 t]. destruct t.
      * destruct (ProbabilityController.rollPlaneOutcome r4) as [r5 o].
        cbn. repeat split; try congruence;
          intros; destruct o, w, sel; try destruct side; reflexivity.
      * cbn. repeat split; try congruence;
          intros; destruct w, sel; try destruct side; reflexivity.
  - destruct (ProbabilityController.rollPlaneOutcome r1) as [r3 f].
    destruct f.
    + cbn. repeat split; try congruence; intros; destruct sel; try destruct side; reflexivity.
    + cbn. repeat split; try congruence; intros; destruct sel; try destruct side; reflexivity.
    + destruct (Rng.chance _ r3) as [r4 t]. destruct t.
      * destruct (ProbabilityController.rollPlaneOutcome r4) as [r5 o].
        cbn. repeat split; try congruence;
          intros; destruct o, sel; try destruct side; reflexivity.
      * cbn. repeat split; try congruence;
          intros; destruct sel; try destruct side; reflexivity.
Qed.

Section ResolveRoundDraws.
Import ProbabilityController.

Local Ltac name_draw E :=
  match type of E with
  | Rng.chance ?p ?r = (?r1, _) =>
      let H := fresh "D" in
      assert (H : r1 = Rng.advance 1 r)
        by (pose proof (chance_fst p r) as H; rewrite E in H; exact H);
      subst r1; clear E
  | rollPlaneOutcome ?r = (?r1, _) =>
      let H := fresh "D" in
      assert (H : r1 = Rng.advance 1 r)
        by (pose proof (rollPlaneOutcome_fst r) as H; rewrite E in H; exact H);
      subst r1; clear E
  | randomTower ?r = (?r1, _) =>
      let H := fresh "D" in
      assert (H : r1 = Rng.advance 1 r)
        by (pose proof (randomTower_fst r) as H; rewrite E in H; exact H);
      subst r1; clear E
  end.

Lemma resolveRound_advance (selectedTower : TowerId) (r : Rng.t) :
  fst (resolveRound selectedTower r)
  = Rng.advance (Props.draws_of (snd (resolveRound selectedTower r))) r.
Proof.
  unfold resolveRound.
  destruct (Rng.chance _ r) as [r1 c] eqn:E1. name_draw E1.
  destruct c.
  - destruct (randomTower _) as [r2 w] eqn:E2. name_draw E2.
    destruct (rollPlaneOutcome _) as [r3 f] eqn:E3. name_draw E3.
    destruct f; try (cbn [fst snd Props.draws_of firstPlane collapseTriggered
                            secondPlaneTriggered Nat.add];
                     rewrite <- !advance_add; reflexivity).
    destruct (Rng.chance _ _) as [r4 t] eqn:E4. name_draw E4.
    destruct t.
    + destruct (rollPlaneOutcome _) as [r5 o] eqn:E5. name_draw E5.
      cbn [fst snd Props.draws_of firstPlane collapseTriggered
             secondPlaneTriggered Nat.add].
      rewrite <- !advance_add. reflexivity.
    + cbn [fst snd Props.draws_of firstPlane collapseTriggered
             secondPlaneTriggered Nat.add].
      rewrite <- !advance_add. reflexivity.
  - destruct (rollPlaneOutcome _) as [r3 f] eqn:E3. name_draw E3.
    destruct f; try (cbn [fst snd Props.draws_of firstPlane collapseTriggered
                            secondPlaneTriggered Nat.add];
                     rewrite <- !advance_add; reflexivity).
    destruct (Rng.chance _ _) as [r4 t] eqn:E4. name_draw E4.
    destruct t.
    + destruct (rollPlaneOutcome _) as [r5 o] eqn:E5. name_draw E5.
      cbn [fst snd Props.draws_of firstPlane collapseTriggered
             secondPlaneTriggered Nat.add].
      rewrite <- !advance_add. reflexivity.
    + cbn [fst snd Props.draws_of firstPlane collapseTriggered
             secondPlaneTriggered Nat.add].
      rewrite <- !advance_add. reflexivity.
Qed.

Lemma draws_of_bounds (res : RoundResolution) :
  (2 <= Props.draws_of res <= 5)%nat.
Proof.
  unfold Props.draws_of.
  destruct (collapseTriggered res), (firstPlane res), (secondPlaneTriggered res);
    cbn; lia.
Qed.

End ResolveRoundDraws.

(** C6 (as the code has it). [resolveRound] is a total function, so every
    call returns; it leaves the generator where between two and five
    calls of [next] put it: the collapse draw and the first plane always,
    one more for the tower of a collapse, one more for the double-plane
    draw after a miss, one more for the second plane. *)
Theorem resolveRound_draws_at_most_five :
  forall (selectedTower : ProbabilityController.TowerId) (r : Rng.t),
    exists (r' : Rng.t) (res : ProbabilityController.RoundResolution),
      ProbabilityController.resolveRound selectedTower r = (r', res)
      /\ r' = Rng.advance (Props.draws_of res) r
      /\ (2 <= Props.draws_of res <= 5)%nat.
Proof.
  intros sel r.
  pose proof (resolveRound_advance sel r) as H.
  destruct (ProbabilityController.resolveRound sel r) as [r' res].
  exists r', res. cbn [fst snd] in H.
  repeat split; try exact H; apply draws_of_bounds.
Qed.

(** C6 (as stated) fails: from seed 2814 a round takes a collapse, its
    tower, a miss, the double-plane draw and a second plane, five calls of
    [next]; the generator is not where three or fewer calls leave it. *)
Lemma resolveRound_three_draws_exceeded :
  let r := Rng.new (Some 2814) 0 in
  fst (ProbabilityController.resolveRound ProbabilityController.A r) = Rng.advance 5 r
  /\ ~ (exists k, (k <= 3)%nat
          /\ fst (ProbabilityController.resolveRound ProbabilityController.A r)
             = Rng.advance k r).
Proof.
  split; [vm_compute; reflexivity|].
  intros [k [Hk H]].
  destruct k as [|[|[|[|k]]]]; [| | | |lia]; vm_compute in H; discriminate H.
Qed.

(* ================================================================== *)
(** ** Streak memory of the hazard engine *)
(* ================================================================== *)

Section Streaks.
Import OutcomeController.

Lemma exec_verdict (k : call) (c : t) :
  is_verdict k = true -> Props.exactly_one (exec k c).
Proof.
  destruct k; cbn [is_verdict]; try discriminate; intros _;
    cbn [exec]; unfold Props.exactly_one, onRoundWon, onRoundLost;
    cbn [consecutiveWins consecutiveLosses]; [left | right]; split; congruence.
Qed.

Lemma exec_other (k : call) (c : t) :
  is_verdict k = false ->
  consecutiveWins (exec k c) = consecutiveWins c
  /\ consecutiveLosses (exec k c) = consecutiveLosses c.
Proof.
  destruct k; cbn [is_verdict]; try discriminate; intros _; cbn [exec].
  - unfold startRound. destruct (Rng.next (rng c)). split; reflexivity.
  - split; reflexivity.
  - unfold isBomb. destruct (Rng.chance _ (rng c)). split; reflexivity.
Qed.

Lemma exec_keeps_exactly_one (k : call) (c : t) :
  Props.exactly_one c -> Props.exactly_one (exec k c).
Proof.
  intro H. destruct (is_verdict k) eqn:V.
  - now apply exec_verdict.
  - destruct (exec_other k c V) as [Hw Hl].
    unfold Props.exactly_one in *. rewrite Hw, Hl. exact H.
Qed.

Lemma run_keeps_exactly_one (ks : list call) (c : t) :
  Props.exactly_one c -> Props.exactly_one (run ks c).
Proof.
  revert c. induction ks as [|k ks IH]; intros c H; [exact H|].
  change (run (k :: ks) c) with (run ks (exec k c)).
  apply IH. now apply exec_keeps_exactly_one.
Qed.

Lemma run_streaks (ks : list call) (c : t) :
  Props.both_zero c ->
  if existsb is_verdict ks
  then Props.exactly_one (run ks c)
  else Props.both_zero (run ks c).
Proof.
  revert c. induction ks as [|k ks IH]; intros c H; [exact H|].
  cbn [existsb]. change (run (k :: ks) c) with (run ks (exec k c)).
  destruct (is_verdict k) eqn:V; cbn [orb].
  - apply run_keeps_exactly_one. now apply exec_verdict.
  - apply IH. destruct (exec_other k c V) as [Hw Hl].
    unfold Props.both_zero in *. rewrite Hw, Hl. exact H.
Qed.

End Streaks.

(** C4. Run any sequence of calls on a freshly constructed controller.
    If the sequence holds an [onRoundWon] or [onRoundLost], exactly one of
    [consecutiveWins] and [consecutiveLosses] is nonzero afterwards;
    otherwise both are still zero, as they are after construction. *)
Theorem streak_exclusivity :
  forall (r : Rng.t) (ks : list OutcomeController.call),
    if existsb OutcomeController.is_verdict ks
    then Props.exactly_one (OutcomeController.run ks (OutcomeController.new r))
    else Props.both_zero (OutcomeController.run ks (OutcomeController.new r)).
Proof.
  intros r ks. apply run_streaks. split; reflexivity.
Qed.

(* ================================================================== *)
(** ** The hazard probability *)
(* ================================================================== *)

Section Hazard.
Import Js OutcomeController.

(** The hazard reads the run type and whether each streak has reached
    three, nothing else. *)
Lemma hazard_regime (c : t) (x : number) :
  getBombProbability c x
  = getBombProbability
      (Props.controller_in (runType c)
         (if (3 <=? consecutiveLosses c)%nat then 3 else 0)
         (if (3 <=? consecutiveWins c)%nat then 3 else 0)) x.
Proof.
  unfold getBombProbability, Props.controller_in.
  cbn [runType consecutiveLosses consecutiveWins].
  destruct (3 <=? consecutiveLosses c)%nat, (3 <=? consecutiveWins c)%nat;
    reflexivity.
Qed.

(** After three losses the wins are not looked at. *)
Lemma mercy_ignores_wins (k : RunType) (w : nat) (x : number) :
  getBombProbability (Props.controller_in k 3 w) x
  = getBombProbability (Props.controller_in k 3 0) x.
Proof. reflexivity. Qed.

(** Integer step indices are doubles that are not below zero. *)
Lemma of_Z_nonneg (i : Z) :
  0 <= i < 2 ^ 53 -> le 0%float (of_Z i) = true.
Proof.
  intros [H0 H1]. destruct i as [|p|p]; [vm_compute; reflexivity| |lia].
  destruct (of_Z_pos_SF p H1) as (m & e & Hx & _).
  apply le_key. rewrite Hx, zero_SF.
  split; [discriminate|]. split; [discriminate|].
  left. unfold key_lt, SFkey. cbn [fst snd]. lia.
Qed.

End Hazard.

(** C1. For every run type, every streak state and every step index in
    [0, 1000] the bomb probability lies in the closed band from 0.04 to
    0.30: for every double in that interval, and so at every integer
    index 0 .. 1000. *)
Theorem hazard_clamp_invariant :
  forall c : OutcomeController.t,
    (forall x : Js.number,
        Js.le 0%float x = true -> Js.le x 1000%float = true ->
        Js.le 0.04%float (OutcomeController.getBombProbability c x) = true
        /\ Js.le (OutcomeController.getBombProbability c x) 0.30%float = true)
    /\ (forall i : Z,
           0 <= i <= 1000 ->
           Js.le 0.04%float
             (OutcomeController.getBombProbability c (Js.of_Z i)) = true
           /\ Js.le (OutcomeController.getBombProbability c (Js.of_Z i))
                0.30%float = true).
Proof.
  intro c. split.
  - intros x H0 _.
    pose proof (hazard_in_band c x (proj2 (le_not_nan _ _ H0))) as H.
    unfold Props.in_band in H. apply andb_true_iff in H. exact H.
  - intros i Hi.
    assert (H0 : Js.le 0%float (Js.of_Z i) = true).
    { apply of_Z_nonneg. split; [lia|].
      eapply Z.le_lt_trans; [exact (proj2 Hi) | reflexivity]. }
    pose proof (hazard_in_band c _ (proj2 (le_not_nan _ _ H0))) as H.
    unfold Props.in_band in H. apply andb_true_iff in H. exact H.
Qed.

Lemma hazard_clamp_invariant_witness :
  let c := Props.controller_in OutcomeController.long 7 0 in
  (Js.le 0.04%float (OutcomeController.getBombProbability c 12.5%float) = true
   /\ Js.le (OutcomeController.getBombProbability c 12.5%float) 0.30%float = true)
  /\ (Js.le 0.04%float (OutcomeController.getBombProbability c (Js.of_Z 12)) = true
      /\ Js.le (OutcomeController.getBombProbability c (Js.of_Z 12)) 0.30%float
         = true).
Proof.
  destruct (hazard_clamp_invariant (Props.controller_in OutcomeController.long 7 0))
    as [Hx Hi].
  split.
  - apply (Hx 12.5%float); reflexivity.
  - apply (Hi 12). lia.
Defined.

(** C5 (as stated) fails: in a medium run at step 10 the plain hazard is
    already clamped to 0.30, and so are the hazard after three losses and
    the hazard after three wins; neither is strictly below or above it. *)
Lemma hazard_streak_not_strict :
  let plain := OutcomeController.getBombProbability
                 (Props.controller_in OutcomeController.medium 0 0) (Js.of_Z 10) in
  let mercy := OutcomeController.getBombProbability
                 (Props.controller_in OutcomeController.medium 3 0) (Js.of_Z 10) in
  let corr := OutcomeController.getBombProbability
                (Props.controller_in OutcomeController.medium 0 3) (Js.of_Z 10) in
  Js.lt mercy plain = false /\ Js.lt plain corr = false
  /\ mercy = plain /\ corr = plain.
Proof. vm_compute. repeat split; reflexivity. Qed.

(** C5 (as the code has it). For every run type and every step index
    that is not below zero, compared with the hazard of a controller in
    the same run type with no streak of three: after three or more losses
    the hazard is at least 0.04, never above the plain value, and strictly
    below it exactly when it is itself below 0.30; after three or more
    wins (and fewer than three losses) it is at most 0.30, never below the
    plain value, and strictly above it exactly when the plain value is
    below 0.30. *)
Theorem hazard_streak_bounds :
  forall (c c0 : OutcomeController.t) (x : Js.number),
    OutcomeController.runType c0 = OutcomeController.runType c ->
    (OutcomeController.consecutiveLosses c0 < 3)%nat ->
    (OutcomeController.consecutiveWins c0 < 3)%nat ->
    Js.le 0%float x = true ->
    let plain := OutcomeController.getBombProbability c0 x in
    let p := OutcomeController.getBombProbability c x in
    ((3 <= OutcomeController.consecutiveLosses c)%nat ->
       Js.le 0.04%float p = true /\ Js.le p plain = true
       /\ (Js.lt p plain = true <-> Js.lt p 0.30%float = true))
    /\ ((3 <= OutcomeController.consecutiveWins c)%nat ->
        (OutcomeController.consecutiveLosses c < 3)%nat ->
          Js.le p 0.30%float = true /\ Js.le plain p = true
          /\ (Js.lt plain p = true <-> Js.lt plain 0.30%float = true)).
Proof.
  intros c c0 x Hk Hl0 Hw0 Hx plain p. subst plain p.
  rewrite (hazard_regime c0), (hazard_regime c), Hk.
  apply Nat.leb_gt in Hl0, Hw0. rewrite Hl0, Hw0.
  destruct (streak_regime_nonneg (OutcomeController.runType c) x Hx)
    as [(M1 & M2 & M3) (C1 & C2 & C3)].
  pose proof (hazard_in_band
                (Props.controller_in (OutcomeController.runType c) 0 0) x
                (proj2 (le_not_nan _ _ Hx))) as B.
  unfold Props.in_band in B. apply andb_true_iff in B. destruct B as [_ B].
  unfold Props.pMin, Props.pMax in *.
  split.
  - intro Hl. apply Nat.leb_le in Hl. rewrite Hl.
    assert (E : OutcomeController.getBombProbability
                  (Props.controller_in (OutcomeController.runType c) 3
                     (if (3 <=? OutcomeController.consecutiveWins c)%nat
                      then 3%nat else 0%nat)) x
                = OutcomeController.getBombProbability
                    (Props.controller_in (OutcomeController.runType c) 3 0) x)
      by apply mercy_ignores_wins.
    rewrite E. split; [exact M1|]. split; [exact M2|].
    split; [|exact M3].
    intro L. exact (lt_le_trans _ _ _ L B).
  - intros Hw Hl. apply Nat.leb_le in Hw. apply Nat.leb_gt in Hl.
    rewrite Hw, Hl. split; [exact C1|]. split; [exact C2|].
    split; [|exact C3].
    intro L. exact (lt_le_trans _ _ _ L C1).
Qed.

Lemma hazard_streak_bounds_witness :
  let c := Props.controller_in OutcomeController.short 4 0 in
  let c0 := Props.controller_in OutcomeController.short 1 0 in
  let plain := OutcomeController.getBombProbability c0 (Js.of_Z 1) in
  let p := OutcomeController.getBombProbability c (Js.of_Z 1) in
  ((3 <= OutcomeController.consecutiveLosses c)%nat ->
     Js.le 0.04%float p = true /\ Js.le p plain = true
     /\ (Js.lt p plain = true <-> Js.lt p 0.30%float = true))
  /\ ((3 <= OutcomeController.consecutiveWins c)%nat ->
      (OutcomeController.consecutiveLosses c < 3)%nat ->
        Js.le p 0.30%float = true /\ Js.le plain p = true
        /\ (Js.lt plain p = true <-> Js.lt plain 0.30%float = true)).
Proof.
  apply (hazard_streak_bounds
           (Props.controller_in OutcomeController.short 4 0)
           (Props.controller_in OutcomeController.short 1 0) (Js.of_Z 1)).
  - reflexivity.
  - cbn; lia.
  - cbn; lia.
  - reflexivity.
Defined.

(** C9 (as stated) fails at step 5: in a medium run with no streak the
    code adds the doubles 0.14 and 0.03 * 5; the sum rounds to
    0.29000000000000004, which is not the double 0.29. *)
Lemma hazard_medium_step5_not_029 :
  let p5 := OutcomeController.getBombProbability
              (OutcomeController.new (Rng.new (Some 1) 0)) (Js.of_Z 5) in
  PrimFloat.eqb p5 0.29%float = false
  /\ p5 <> 0.29%float
  /\ Js.lt 0.29%float p5 = true.
Proof.
  cbv zeta. split; [vm_compute; reflexivity|]. split.
  - intro H. apply (f_equal Prim2SF) in H. vm_compute in H. discriminate H.
  - vm_compute. reflexivity.
Qed.

(** C9 (as the code has it). In a medium run with no streak of three the
    hazard at step 0 is 0.14; at step 5 it is 0.29000000000000004, the
    double next above 0.29; at step 10 it is 0.30, the raw 0.44 clamped. *)
Theorem hazard_medium_scenario :
  forall c : OutcomeController.t,
    OutcomeController.runType c = OutcomeController.medium ->
    (OutcomeController.consecutiveLosses c < 3)%nat ->
    (OutcomeController.consecutiveWins c < 3)%nat ->
    OutcomeController.getBombProbability c (Js.of_Z 0) = 0.14%float
    /\ OutcomeController.getBombProbability c (Js.of_Z 5) = 0.29000000000000004%float
    /\ OutcomeController.getBombProbability c (Js.of_Z 5) = PrimFloat.next_up 0.29%float
    /\ OutcomeController.getBombProbability c (Js.of_Z 10) = 0.30%float
    /\ PrimFloat.add 0.14%float (PrimFloat.mul 0.03%float (Js.of_Z 10)) = 0.44%float.
Proof.
  intros c Hk Hl Hw. rewrite !(hazard_regime c), Hk.
  apply Nat.leb_gt in Hl, Hw. rewrite Hl, Hw.
  vm_compute. repeat split; reflexivity.
Qed.

Lemma hazard_medium_scenario_witness :
  let c := OutcomeController.new (Rng.new (Some 1) 0) in
  OutcomeController.getBombProbability c (Js.of_Z 0) = 0.14%float
  /\ OutcomeController.getBombProbability c (Js.of_Z 5) = 0.29000000000000004%float
  /\ OutcomeController.getBombProbability c (Js.of_Z 5) = PrimFloat.next_up 0.29%float
  /\ OutcomeController.getBombProbability c (Js.of_Z 10) = 0.30%float
  /\ PrimFloat.add 0.14%float (PrimFloat.mul 0.03%float (Js.of_Z 10)) = 0.44%float.
Proof.
  apply (hazard_medium_scenario (OutcomeController.new (Rng.new (Some 1) 0))).
  - reflexivity.
  - cbn; lia.
  - cbn; lia.
Defined.

(* ================================================================== *)
(** ** The values [next] returns *)
(* ================================================================== *)

Section NextValue.
Import Js.

Lemma next_bits_range (r : Rng.t) : 0 <= snd (Rng.next_bits r) < 2 ^ 32.
Proof.
  unfold Rng.next_bits. cbv beta iota zeta delta [snd].
  unfold ushr at 1. change (0 mod 32) with 0. rewrite Z.shiftr_0_r.
  unfold ToUint32. apply Z.mod_pos_bound. reflexivity.
Qed.

Lemma next_snd_bits (r : Rng.t) :
  snd (Rng.next r) = PrimFloat.div (of_Z (snd (Rng.next_bits r))) 4294967296%float.
Proof. unfold Rng.next. destruct (Rng.next_bits r); reflexivity. Qed.

(** An unsigned 32-bit integer divided by 2^32, decoded: zero, or its
    bits as a 53-bit mantissa at an exponent of at most -53. *)
Lemma u32_fraction_SF (u : Z) :
  0 <= u < 2 ^ 32 ->
  (u = 0 /\ Prim2SF (PrimFloat.div (of_Z u) 4294967296%float) = S754_zero false)
  \/ (exists m e,
         Prim2SF (PrimFloat.div (of_Z u) 4294967296%float) = S754_finite false m e
         /\ -84 <= e <= -53
         /\ Zpos m * 2 ^ 32 = u * 2 ^ (- e)
         /\ 2 ^ 52 <= Zpos m < 2 ^ 53).
Proof.
  intros [H0 H1]. destruct u as [|p|p]; [left | right | lia].
  - split; [reflexivity | vm_compute; reflexivity].
  - assert (Hp : Zpos p < 2 ^ 53)
      by (eapply Z.lt_trans; [exact H1 | reflexivity]).
    destruct (of_Z_pos_SF p Hp) as (m & e & Hx & He & Hm & Dm).
    pose proof (digits2_pos_le p 32 H1) as D32.
    pose proof (digits2_pos_bounds m) as [Dlo Dhi]. rewrite Dm in Dlo, Dhi.
    exists m, (e - 32). split; [|split; [|split]].
    + apply div_two32_SF; [exact Hx | exact Dm | lia].
    + lia.
    + rewrite Hm. replace (- (e - 32)) with (- e + 32) by lia.
      rewrite Z.pow_add_r by lia. lia.
    + exact (conj Dlo Dhi).
Qed.

Lemma next_value_SF (r : Rng.t) :
  Prim2SF (snd (Rng.next r)) = S754_zero false
  \/ (exists m e,
         Prim2SF (snd (Rng.next r)) = S754_finite false m e
         /\ -84 <= e <= -53
         /\ Zpos m * 2 ^ 32 <= (2 ^ 32 - 1) * 2 ^ (- e)
         /\ 2 ^ 52 <= Zpos m < 2 ^ 53).
Proof.
  rewrite next_snd_bits. pose proof (next_bits_range r) as R.
  destruct (u32_fraction_SF _ R) as [[_ Z0]|(m & e & Hx & He & Hm & Dm)];
    [left; exact Z0 | right].
  exists m, e. repeat split; try assumption; try lia.
  rewrite Hm. apply Z.mul_le_mono_nonneg_r; [|lia].
  apply Z.pow_nonneg. lia.
Qed.

Lemma next_ge_0 (r : Rng.t) : le 0%float (snd (Rng.next r)) = true.
Proof.
  unfold le. rewrite FloatAxioms.leb_spec, zero_SF.
  destruct (next_value_SF r) as [Z0|(m & e & Hx & _)]; [rewrite Z0|rewrite Hx];
    reflexivity.
Qed.

Lemma next_lt_1 (r : Rng.t) : lt (snd (Rng.next r)) 1%float = true.
Proof.
  unfold lt. rewrite FloatAxioms.ltb_spec, one_SF.
  destruct (next_value_SF r) as [Z0|(m & e & Hx & He & _)]; [rewrite Z0|rewrite Hx].
  - reflexivity.
  - apply SFltb_finite_pos. lia.
Qed.

Lemma chance_snd (p : number) (r : Rng.t) :
  snd (Rng.chance p r) = lt (snd (Rng.next r)) p.
Proof. unfold Rng.chance. destruct (Rng.next r); reflexivity. Qed.

Lemma chance_nonpositive (p : number) (r : Rng.t) :
  le p 0%float = true -> snd (Rng.chance p r) = false.
Proof.
  rewrite chance_snd. unfold le, lt.
  rewrite FloatAxioms.leb_spec, FloatAxioms.ltb_spec, zero_SF.
  destruct (next_value_SF r) as [Z0|(m & e & Hx & _)]; [rewrite Z0|rewrite Hx];
    destruct (Prim2SF p) as [s|s| |s mp ep]; try destruct s;
      intro H; try discriminate H; reflexivity.
Qed.

Lemma chance_at_least_one (p : number) (r : Rng.t) :
  le 1%float p = true -> snd (Rng.chance p r) = true.
Proof.
  rewrite chance_snd. unfold le, lt.
  rewrite FloatAxioms.leb_spec, FloatAxioms.ltb_spec, one_SF.
  destruct (next_value_SF r) as [Z0|(m & e & Hx & He & _)]; [rewrite Z0|rewrite Hx];
    destruct (Prim2SF p) as [s|s| |s mp ep]; try destruct s;
      intro H; try discriminate H; try reflexivity.
  apply SFleb_finite_pos in H. apply SFltb_finite_pos. lia.
Qed.

End NextValue.

(** C8. Whatever the state, [next] returns an unsigned 32-bit integer
    divided by 2^32, and that value is at least 0 and below 1; so
    [chance(p)] is false for every [p <= 0] and true for every [p >= 1]. *)
Theorem next_unit_interval_chance_degenerate :
  forall r : Rng.t,
    (exists u, 0 <= u < 2 ^ 32
               /\ snd (Rng.next r) = PrimFloat.div (Js.of_Z u) 4294967296%float)
    /\ Js.le 0%float (snd (Rng.next r)) = true
    /\ Js.lt (snd (Rng.next r)) 1%float = true
    /\ (forall p, Js.le p 0%float = true -> snd (Rng.chance p r) = false)
    /\ (forall p, Js.le 1%float p = true -> snd (Rng.chance p r) = true).
Proof.
  intro r. split; [|split; [|split; [|split]]].
  - exists (snd (Rng.next_bits r)). split;
      [apply next_bits_range | apply next_snd_bits].
  - apply next_ge_0.
  - apply next_lt_1.
  - intros p Hp. now apply chance_nonpositive.
  - intros p Hp. now apply chance_at_least_one.
Qed.

Lemma next_unit_interval_chance_degenerate_witness :
  let r := Rng.new (Some 1) 0 in
  snd (Rng.chance (-0.5)%float r) = false
  /\ snd (Rng.chance 1.5%float r) = true.
Proof.
  destruct (next_unit_interval_chance_degenerate (Rng.new (Some 1) 0))
    as (_ & _ & _ & H0 & H1).
  split; [apply H0 | apply H1]; reflexivity.
Defined.

(* ================================================================== *)
(** ** Picking by a scaled draw *)
(* ================================================================== *)

Section Picking.
Import Js.

Lemma index_in_range {T : Type} (arr : list T) (k : Z) :
  0 <= k < Z.of_nat (List.length arr) ->
  index arr (Some k) = nth_error arr (Z.to_nat k)
  /\ exists v, nth_error arr (Z.to_nat k) = Some v.
Proof.
  intro H. unfold index. destruct (Z.ltb_spec k 0); [lia|].
  split; [reflexivity|].
  destruct (nth_error arr (Z.to_nat k)) as [v|] eqn:E; [now exists v|].
  apply nth_error_None in E. lia.
Qed.

Lemma fourteen_SF :
  Prim2SF (of_Z (Z.of_nat (List.length Card.SAFE_CARDS)))
  = S754_finite false 7881299347898368 (-49).
Proof. vm_compute. reflexivity. Qed.

(** A double in [0, 1) times the number of safe cards, floored, is one
    of 0 .. 13. *)
Lemma safe_card_index (r : number) :
  le 0%float r = true -> lt r 1%float = true ->
  exists k,
    Math_floor (PrimFloat.mul r (of_Z (Z.of_nat (List.length Card.SAFE_CARDS)))) = Some k
    /\ 0 <= k < 14.
Proof.
  intros H0 H1. unfold Math_floor.
  rewrite FloatAxioms.mul_spec, fourteen_SF.
  pose proof (Prim2SF_valid r) as V.
  destruct (unit_interval_SF r H0 H1) as [[s Hz]|(m & e & Hx & He & Hm)].
  - rewrite Hz. exists 0. split; [reflexivity|lia].
  - rewrite Hx in *. apply mul_floor_lt; try lia; try assumption; try reflexivity.
    replace (- (e + -49)) with (49 + - e) by lia.
    rewrite Z.pow_add_r by lia.
    assert (P : 2 ^ 53 <= 2 ^ (- e)) by (apply Z.pow_le_mono_r; lia).
    change (2 ^ 49) with 562949953421312. change (2 ^ 52) with 4503599627370496.
    change (2 ^ 53) with 9007199254740992 in *. lia.
Qed.

Lemma safe_cards_not_bombs :
  Forall (fun c => Card.isBomb c = false) Card.SAFE_CARDS.
Proof. repeat constructor. Qed.

Lemma pickSafeCard_safe (r : number) :
  le 0%float r = true -> lt r 1%float = true ->
  exists c, Card.pickSafeCard r = Some c
            /\ In c Card.SAFE_CARDS /\ Card.isBomb c = false.
Proof.
  intros H0 H1. destruct (safe_card_index r H0 H1) as (k & Hk & Rk).
  unfold Card.pickSafeCard. rewrite Hk.
  destruct (index_in_range Card.SAFE_CARDS k ltac:(cbn; lia)) as [E [c Hc]].
  exists c. rewrite E. split; [exact Hc|].
  apply nth_error_In in Hc. split; [exact Hc|].
  exact (proj1 (Forall_forall _ _) safe_cards_not_bombs c Hc).
Qed.

(** The length of an array as a double. *)
Lemma length_SF (L : Z) :
  0 < L < 2 ^ 32 ->
  exists m e,
    Prim2SF (of_Z L) = S754_finite false m e
    /\ -52 <= e <= 0 /\ Zpos m = L * 2 ^ (- e) /\ 2 ^ 52 <= Zpos m.
Proof.
  intros [H0 H1]. destruct L as [|p|p]; try lia.
  assert (Hp : Zpos p < 2 ^ 53) by (eapply Z.lt_trans; [exact H1 | reflexivity]).
  destruct (of_Z_pos_SF p Hp) as (m & e & Hx & He & Hm & Dm).
  pose proof (digits2_pos_le p 32 H1).
  pose proof (digits2_pos_bounds m) as [Dlo _]. rewrite Dm in Dlo.
  exists m, e. repeat split; try assumption; lia.
Qed.

Lemma pick_index {T : Type} (arr : list T) (r : Rng.t) :
  Z.of_nat (List.length arr) < 2 ^ 32 ->
  exists k,
    Math_floor (PrimFloat.mul (snd (Rng.next r))
                  (of_Z (Z.of_nat (List.length arr)))) = Some k
    /\ (arr = [] -> k = 0)
    /\ (arr <> [] -> 0 <= k < Z.of_nat (List.length arr)).
Proof.
  intro HL. unfold Math_floor. rewrite FloatAxioms.mul_spec.
  pose proof (Prim2SF_valid (snd (Rng.next r))) as Vx.
  destruct arr as [|a arr].
  - cbn [List.length Z.of_nat]. rewrite of_Z_0_SF.
    exists 0. split; [|split; [reflexivity|congruence]].
    destruct (next_value_SF r) as [Z0|(m & e & Hx & _)]; [rewrite Z0|rewrite Hx];
      reflexivity.
  - set (L := Z.of_nat (List.length (a :: arr))) in *.
    assert (Lpos : 0 < L) by (unfold L; cbn [List.length]; lia).
    destruct (length_SF L (conj Lpos HL)) as (my & ey & Hy & Hey & Hmy & My).
    pose proof (Prim2SF_valid (of_Z L)) as Vy. rewrite Hy in *.
    destruct (next_value_SF r) as [Z0|(m & e & Hx & He & Hm & Dm)].
    + rewrite Z0. exists 0. split; [reflexivity|]. split; [discriminate|lia].
    + rewrite Hx in *.
      destruct (mul_floor_lt m my e ey L Vx Vy) as (v & Hv & Rv); try lia.
      * replace (- (e + ey)) with (- e + - ey) by lia.
        rewrite Z.pow_add_r by lia.
        assert (PA : 2 ^ 53 <= 2 ^ (- e)) by (apply Z.pow_le_mono_r; lia).
        set (A := 2 ^ (- e)) in *. set (B := 2 ^ (- ey)) in *.
        change (2 ^ 53) with 9007199254740992 in *.
        change (2 ^ 52) with 4503599627370496 in *.
        change (2 ^ 32) with 4294967296 in *.
        replace (L * (A * B)) with (A * Zpos my) by (rewrite Hmy; ring).
        assert (S1 : Zpos m * Zpos my * 4294967296
                     <= (4294967296 - 1) * (A * Zpos my)) by nia.
        assert (S2 : 9007199254740992 * 4503599627370496 <= A * Zpos my) by nia.
        lia.
      * exists v. split; [exact Hv|]. split; [discriminate|intros _; exact Rv].
Qed.

End Picking.

(** C7 (as stated) fails on the empty array: [pick] consumes one draw and
    returns [undefined]; nothing is thrown. *)
Lemma pick_empty_does_not_fail :
  let r := Rng.new (Some 1) 0 in
  Rng.pick (@nil nat) r = Js.Returned (Rng.advance 1 r, None)
  /\ Rng.pick (@nil nat) r <> Js.Thrown Js.InvalidArgument.
Proof.
  cbv zeta. split; [vm_compute; reflexivity|].
  unfold Rng.pick. destruct (Rng.next _). discriminate.
Qed.

(** C7 (as the code has it). [pick] never fails.  It consumes one draw
    [x] and returns the element at index [floor(x * len)]: on the empty
    array that index is 0 and the result is [undefined]; on a non-empty
    array (of fewer than 2^32 elements, as arrays of the language are) the
    index is at least 0 and below the length, so an element is returned. *)
Theorem pick_index_valid_or_undefined :
  forall (T : Type) (arr : list T) (r : Rng.t),
    Z.of_nat (List.length arr) < 2 ^ 32 ->
    exists k,
      Js.Math_floor (PrimFloat.mul (snd (Rng.next r))
                       (Js.of_Z (Z.of_nat (List.length arr)))) = Some k
      /\ Rng.pick arr r = Js.Returned (fst (Rng.next r), nth_error arr (Z.to_nat k))
      /\ (arr = [] -> k = 0 /\ nth_error arr (Z.to_nat k) = None)
      /\ (arr <> [] ->
          0 <= k < Z.of_nat (List.length arr)
          /\ exists v, nth_error arr (Z.to_nat k) = Some v).
Proof.
  intros T arr r HL.
  destruct (pick_index arr r HL) as (k & Hk & He & Hne).
  exists k. split; [exact Hk|]. split; [|split].
  - unfold Rng.pick. destruct (Rng.next r) as [r' x]. cbn [fst snd] in *.
    rewrite Hk. f_equal. f_equal.
    destruct arr as [|a arr].
    + rewrite (He eq_refl). reflexivity.
    + apply index_in_range. apply Hne. discriminate.
  - intro E. subst arr. rewrite (He eq_refl). split; reflexivity.
  - intro N. split; [now apply Hne|].
    apply index_in_range. now apply Hne.
Qed.

Lemma pick_index_valid_or_undefined_witness :
  exists k,
    Js.Math_floor (PrimFloat.mul (snd (Rng.next (Rng.new (Some 1) 0)))
                     (Js.of_Z (Z.of_nat (List.length [10; 20; 30])))) = Some k
    /\ Rng.pick [10; 20; 30] (Rng.new (Some 1) 0)
       = Js.Returned (fst (Rng.next (Rng.new (Some 1) 0)),
                      nth_error [10; 20; 30] (Z.to_nat k))
    /\ ([10; 20; 30] = [] -> k = 0 /\ nth_error [10; 20; 30] (Z.to_nat k) = None)
    /\ ([10; 20; 30] <> [] ->
        0 <= k < Z.of_nat (List.length [10; 20; 30])
        /\ exists v, nth_error [10; 20; 30] (Z.to_nat k) = Some v).
Proof.
  apply (pick_index_valid_or_undefined Z [10; 20; 30] (Rng.new (Some 1) 0)).
  cbn. lia.
Defined.

(** C10. For every double [r] with [0 <= r < 1], [pickSafeCard(r)]
    returns a card of [SAFE_CARDS], whose [isBomb] is false; so
    [nextCard(swipeIndex)] returns a card, and that card is the bomb card
    exactly when the controller's [isBomb(swipeIndex)] answers true. *)
Theorem pickSafeCard_in_bounds_nextCard_bomb_iff :
  (forall r : Js.number,
      Js.le 0%float r = true -> Js.lt r 1%float = true ->
      exists c, Card.pickSafeCard r = Some c
                /\ In c Card.SAFE_CARDS /\ Card.isBomb c = false)
  /\ (forall (swipeIndex : Js.number) (e : ReelEngine.t),
         exists card,
           snd (ReelEngine.nextCard swipeIndex e) = Some card
           /\ Card.isBomb card
              = snd (OutcomeController.isBomb swipeIndex (ReelEngine.controller e))
           /\ (card = Card.BOMB_CARD
               <-> snd (OutcomeController.isBomb swipeIndex (ReelEngine.controller e))
                   = true)).
Proof.
  split; [exact pickSafeCard_safe|].
  intros i e. unfold ReelEngine.nextCard, ReelEngine.controller.
  destruct (OutcomeController.isBomb i (ReelEngine.outcomeController e)) as [c' b].
  cbn [snd]. destruct b.
  - exists Card.BOMB_CARD. cbn [snd]. repeat split; reflexivity.
  - unfold ReelEngine.safePick.
    pose proof (next_ge_0 (ReelEngine.rng {| ReelEngine.outcomeController := c' |})) as G.
    pose proof (next_lt_1 (ReelEngine.rng {| ReelEngine.outcomeController := c' |})) as L.
    destruct (Rng.next (ReelEngine.rng {| ReelEngine.outcomeController := c' |}))
      as [r' x].
    cbn [snd] in *.
    destruct (pickSafeCard_safe x G L) as (c & Hc & _ & Hb).
    exists c. split; [exact Hc|]. split; [exact Hb|].
    split; [|discriminate].
    intro E. subst c. discriminate Hb.
Qed.

Lemma pickSafeCard_in_bounds_nextCard_bomb_iff_witness :
  exists c, Card.pickSafeCard 0.5%float = Some c
            /\ In c Card.SAFE_CARDS /\ Card.isBomb c = false.
Proof.
  apply (proj1 pickSafeCard_in_bounds_nextCard_bomb_iff 0.5%float); reflexivity.
Defined.

(* ================================================================== *)
(** ** Further properties of the generator *)
(* ================================================================== *)

Section Cycle.
Import Js.

Lemma ToInt32_add_l (a b : Z) : ToInt32 (ToInt32 a + b) = ToInt32 (a + b).
Proof.
  unfold ToInt32. f_equal.
  replace ((a + 2 ^ 31) mod 2 ^ 32 - 2 ^ 31 + b + 2 ^ 31)
    with ((a + 2 ^ 31) mod 2 ^ 32 + b) by ring.
  rewrite Z.add_mod_idemp_l by lia. f_equal. ring.
Qed.

Lemma ToInt32_eq_mod (a b : Z) :
  ToInt32 a = ToInt32 b <-> exists q, a - b = 2 ^ 32 * q.
Proof.
  unfold ToInt32. split.
  - intros H. exists ((a + 2 ^ 31) / 2 ^ 32 - (b + 2 ^ 31) / 2 ^ 32).
    pose proof (Z.div_mod (a + 2 ^ 31) (2 ^ 32) ltac:(lia)).
    pose proof (Z.div_mod (b + 2 ^ 31) (2 ^ 32) ltac:(lia)).
    lia.
  - intros [q H]. f_equal.
    replace (a + 2 ^ 31) with (b + 2 ^ 31 + q * 2 ^ 32) by lia.
    apply Z.mod_add. lia.
Qed.

(** [next] moves the state by a constant, modulo 2^32. *)
Lemma next_state (r : Rng.t) :
  Rng.state (fst (Rng.next r)) = ToInt32 (Rng.state r + Cycle.golden)
  /\ Rng.seed (fst (Rng.next r)) = Rng.seed r.
Proof.
  unfold Rng.next, Rng.next_bits. cbn [fst Rng.state Rng.seed].
  split; [apply ToInt32_add_l | reflexivity].
Qed.

Lemma advance_state (k : nat) (r : Rng.t) :
  ToInt32 (Rng.state (Rng.advance k r))
  = ToInt32 (Rng.state r + Z.of_nat k * Cycle.golden)
  /\ Rng.seed (Rng.advance k r) = Rng.seed r.
Proof.
  revert r. induction k as [|k IH]; intros r.
  - cbn [Rng.advance]. split; [f_equal; lia | reflexivity].
  - cbn [Rng.advance]. destruct (IH (fst (Rng.next r))) as [IH1 IH2].
    destruct (next_state r) as [N1 N2].
    rewrite IH1, IH2, N1, N2, ToInt32_add_l. split; [f_equal; lia | reflexivity].
Qed.

Lemma advance_S_state (k : nat) (r : Rng.t) :
  Rng.state (Rng.advance (S k) r)
  = ToInt32 (Rng.state r + Z.of_nat (S k) * Cycle.golden).
Proof.
  replace (S k) with (k + 1)%nat at 1 by lia.
  rewrite advance_add. cbn [Rng.advance].
  destruct (next_state (Rng.advance k r)) as [N1 _]. rewrite N1.
  rewrite <- ToInt32_add_l. destruct (advance_state k r) as [A1 _].
  rewrite A1, ToInt32_add_l. f_equal. lia.
Qed.

End Cycle.

(** X1. The stream of a generator repeats after 2^32 draws: for every
    generator and every [i], the value drawn after [i + 2^32] calls of
    [next] is the value drawn after [i] calls. *)
Theorem rng_stream_repeats_after_2_32 :
  forall (r : Rng.t) (i : nat),
    snd (Rng.next (Rng.advance (i + Cycle.period) r))
    = snd (Rng.next (Rng.advance i r)).
Proof.
  intros r i. apply next_state_mod.
  destruct (advance_state (i + Cycle.period) r) as [A1 _].
  destruct (advance_state i r) as [A2 _].
  rewrite A1, A2. apply ToInt32_eq_mod.
  exists Cycle.golden. unfold Cycle.period.
  rewrite Nat2Z.inj_add, Z2Nat.id by lia. ring.
Qed.

(** X2. The generator goes through all of its 2^32 states before it
    repeats one: the states after [i + 1] and after [j + 1] calls of
    [next] differ whenever [i < j < i + 2^32]. *)
Theorem rng_states_distinct_within_period :
  forall (r : Rng.t) (i j : nat),
    (i < j)%nat -> Z.of_nat j - Z.of_nat i < 2 ^ 32 ->
    Rng.state (Rng.advance (S i) r) <> Rng.state (Rng.advance (S j) r).
Proof.
  intros r i j Hij Hj E.
  rewrite !advance_S_state in E.
  apply ToInt32_eq_mod in E. destruct E as [q E].
  unfold Cycle.golden in E.
  assert (Hd : 0 < Z.of_nat j - Z.of_nat i) by lia.
  set (d := Z.of_nat j - Z.of_nat i) in *.
  assert (E' : d * 1831565813 = 2 ^ 32 * (- q)).
  { subst d. rewrite !Nat2Z.inj_succ in E. lia. }
  assert (E2 : d = 2 ^ 32 * (- q * 3696798301 - d * 1576479847)) by lia.
  lia.
Qed.

Lemma rng_states_distinct_within_period_witness :
  (0 < 1)%nat /\ Z.of_nat 1 - Z.of_nat 0 < 2 ^ 32
  /\ Rng.state (Rng.advance 1 (Rng.new (Some 7) 0))
     <> Rng.state (Rng.advance 2 (Rng.new (Some 7) 0)).
Proof.
  split; [lia|]. split; [lia|].
  apply (rng_states_distinct_within_period (Rng.new (Some 7) 0) 0 1); lia.
Defined.

Section Thresholds.
Import Js.

Lemma pow2_add (a b : Z) : 0 <= a -> 0 <= b -> 2 ^ (a + b) = 2 ^ a * 2 ^ b.
Proof. intros. apply Z.pow_add_r; assumption. Qed.

Lemma pow2_ge_2 (a : Z) : 0 < a -> 2 <= 2 ^ a.
Proof.
  intros H. replace a with (1 + (a - 1)) by lia.
  rewrite pow2_add by lia. pose proof (Z.pow_pos_nonneg 2 (a - 1) ltac:(lia) ltac:(lia)).
  lia.
Qed.

(** A draw [u / 2^32] is below a positive double [c * 2^e] exactly when
    it is so as a rational number. *)
Lemma fraction_lt_iff (u : Z) (c : positive) (e : Z) :
  0 <= u < 2 ^ 32 ->
  valid_binary (S754_finite false c e) = true -> e <= 0 ->
  SFltb (Prim2SF (PrimFloat.div (of_Z u) 4294967296%float)) (S754_finite false c e) = true
  <-> u * 2 ^ (- e) < Zpos c * 2 ^ 32.
Proof.
  intros Hu Hv He.
  apply valid_finite in Hv. destruct Hv as (Hv1 & Hv2 & Hv3).
  assert (Hpe : 0 < 2 ^ (- e)) by (apply Z.pow_pos_nonneg; lia).
  destruct (u32_fraction_SF u Hu) as [[U0 E]|(m & ex & E & Hex & Hm & Hmr)]; rewrite E.
  - subst u. split; [intros _; lia | intros _; reflexivity].
  - rewrite SFltb_finite_pos.
    assert (Hpx : 0 < 2 ^ (- ex)) by (apply Z.pow_pos_nonneg; lia).
    split.
    + intros [L|[L1 L2]].
      * assert (Hc : 2 ^ 52 <= Zpos c) by lia.
        assert (P : 2 ^ (- ex) = 2 ^ (- e) * 2 ^ (e - ex)).
        { rewrite <- pow2_add by lia. f_equal. lia. }
        pose proof (pow2_ge_2 (e - ex) ltac:(lia)) as G.
        set (A := 2 ^ (- e)) in *. set (B := 2 ^ (e - ex)) in *.
        rewrite P in Hm.
        assert (u * A * 2 <= u * A * B) by nia.
        nia.
      * subst ex. nia.
    + intros H.
      destruct (Z.compare_spec ex e) as [Q|Q|Q].
      * right. split; [exact Q|]. subst ex. nia.
      * left. exact Q.
      * exfalso.
        assert (P : 2 ^ (- e) = 2 ^ (- ex) * 2 ^ (ex - e)).
        { rewrite <- pow2_add by lia. f_equal. lia. }
        pose proof (pow2_ge_2 (ex - e) ltac:(lia)) as G.
        set (A := 2 ^ (- ex)) in *. set (B := 2 ^ (ex - e)) in *.
        rewrite P in H.
        assert (Zpos m * 2 ^ 32 * 2 <= Zpos m * 2 ^ 32 * B) by nia.
        assert (u * (A * B) = Zpos m * 2 ^ 32 * B) by nia.
        nia.
Qed.

(** The same as a boolean against an integer threshold [T]. *)
Lemma lt_threshold (x p : number) (u : Z) (c : positive) (e T : Z) :
  0 <= u < 2 ^ 32 ->
  Prim2SF x = Prim2SF (PrimFloat.div (of_Z u) 4294967296%float) ->
  Prim2SF p = S754_finite false c e -> e <= 0 ->
  (forall u, u * 2 ^ (- e) < Zpos c * 2 ^ 32 <-> u < T) ->
  lt x p = (u <? T).
Proof.
  intros Hu Hx Hp He HT. unfold lt.
  assert (H : PrimFloat.ltb x p = true <-> u < T).
  { rewrite FloatAxioms.ltb_spec, Hx, Hp, <- HT.
    apply fraction_lt_iff; [exact Hu| |exact He].
    rewrite <- Hp. apply Prim2SF_valid. }
  destruct (Z.ltb_spec u T) as [L|L].
  - apply H, L.
  - destruct (PrimFloat.ltb x p); [|reflexivity]. exfalso.
    assert (u < T) by (apply H; reflexivity). lia.
Qed.

Lemma chance_threshold (p : number) (r : Rng.t) (c : positive) (e T : Z) :
  Prim2SF p = S754_finite false c e -> e <= 0 ->
  (forall u, u * 2 ^ (- e) < Zpos c * 2 ^ 32 <-> u < T) ->
  snd (Rng.chance p r) = (snd (Rng.next_bits r) <? T).
Proof.
  intros Hp He HT. rewrite chance_snd.
  exact (lt_threshold _ p _ c e T (next_bits_range r)
           (f_equal Prim2SF (next_snd_bits r)) Hp He HT).
Qed.

End Thresholds.

(** X3. [chance(p)] is exact: for a positive double [p = c * 2^e] with
    [e <= 0] (every positive double below 2^53), [chance(p)] returns
    true exactly when the 32-bit value [u] it draws satisfies
    [u / 2^32 < p] as rational numbers, that is
    [u * 2^(-e) < c * 2^32].  Nothing is lost to rounding. *)
Theorem chance_true_iff_draw_below_p :
  forall (p : Js.number) (r : Rng.t) (c : positive) (e : Z),
    Prim2SF p = S754_finite false c e -> e <= 0 ->
    snd (Rng.chance p r) = true
    <-> snd (Rng.next_bits r) * 2 ^ (- e) < Zpos c * 2 ^ 32.
Proof.
  intros p r c e Hp He. rewrite chance_snd, next_snd_bits. unfold Js.lt.
  rewrite FloatAxioms.ltb_spec, Hp.
  apply fraction_lt_iff; [apply next_bits_range| |exact He].
  rewrite <- Hp. apply Prim2SF_valid.
Qed.

Lemma chance_true_iff_draw_below_p_witness :
  Prim2SF 0.5%float = S754_finite false 4503599627370496 (-53)
  /\ -53 <= 0
  /\ (snd (Rng.chance 0.5%float (Rng.new (Some 7) 0)) = true
      <-> snd (Rng.next_bits (Rng.new (Some 7) 0)) * 2 ^ (- (-53))
          < Zpos 4503599627370496 * 2 ^ 32).
Proof.
  split; [reflexivity|]. split; [lia|].
  apply (chance_true_iff_draw_below_p 0.5%float (Rng.new (Some 7) 0)
           4503599627370496 (-53)); [reflexivity | lia].
Defined.

Section ScaledDraws.
Import Js.

(** The product of a draw [u / 2^32] with an integer [L] of at most 21
    bits is exact, so its floor is the integer quotient. *)
Lemma scaled_floor_exact (u L : Z) :
  0 <= u < 2 ^ 32 -> 0 < L <= 2 ^ 21 ->
  Math_floor (PrimFloat.mul (PrimFloat.div (of_Z u) 4294967296%float) (of_Z L))
  = Some (u * L / 2 ^ 32).
Proof.
  intros Hu HL. unfold Math_floor. rewrite FloatAxioms.mul_spec.
  destruct (length_SF L ltac:(lia)) as (my & ey & Ey & Hey & Hmy & Hmy52).
  pose proof (Prim2SF_valid (of_Z L)) as Vy. rewrite Ey in Vy.
  destruct (valid_finite _ _ _ Vy) as (_ & Hmy53 & _).
  rewrite Ey.
  destruct (u32_fraction_SF u Hu) as [[U0 E]|(m & e & E & He & Hm & Hmr)]; rewrite E.
  - subst u. reflexivity.
  - unfold SF64mul, SFmul. cbn [xorb].
    assert (Hu0 : 0 < u).
    { destruct (Z.eq_dec u 0) as [->|]; [|lia]. rewrite Z.mul_0_l in Hm. lia. }
    assert (Hpe : 0 < 2 ^ (- e)) by (apply Z.pow_pos_nonneg; lia).
    assert (Hpy : 0 < 2 ^ (- ey)) by (apply Z.pow_pos_nonneg; lia).
    set (k := - e - ey - 32).
    assert (Hk : 21 <= k) by (subst k; lia).
    assert (Hpk : 0 < 2 ^ k) by (apply Z.pow_pos_nonneg; lia).
    assert (HM : Zpos (m * my) = u * L * 2 ^ k).
    { rewrite Pos2Z.inj_mul.
      assert (P : 2 ^ (- e) * 2 ^ (- ey) = 2 ^ k * 2 ^ 32).
      { rewrite <- !pow2_add by lia. f_equal. subst k. lia. }
      apply (Z.mul_reg_r _ _ (2 ^ 32)); [lia|].
      rewrite Hmy.
      replace (Zpos m * (L * 2 ^ (- ey)) * 2 ^ 32)
        with (Zpos m * 2 ^ 32 * L * 2 ^ (- ey)) by ring.
      rewrite Hm.
      replace (u * 2 ^ (- e) * L * 2 ^ (- ey))
        with (u * L * (2 ^ (- e) * 2 ^ (- ey))) by ring.
      rewrite P. ring. }
    assert (HuL : 0 < u * L < 2 ^ 53) by nia.
    pose proof (digits2_pos_bounds (m * my)) as DB.
    set (d := Zpos (digits2_pos (m * my))) in *.
    assert (Hd : d = 105 \/ d = 106).
    { destruct (digits_product m my ltac:(lia) ltac:(lia)) as [[_ D]|[_ D]];
        subst d; rewrite D; [left|right]; reflexivity. }
    assert (Hn : d - 53 <= k).
    { assert (2 ^ (d - 1) < 2 ^ (53 + k)).
      { rewrite (pow2_add 53 k) by lia.
        apply Z.le_lt_trans with (u * L * 2 ^ k); [lia|].
        apply Z.mul_lt_mono_pos_r; lia. }
      apply Z.pow_lt_mono_r_iff in H; lia. }
    destruct (round_normal false (m * my) (e + ey) d eq_refl ltac:(lia) ltac:(lia))
      as (R & _ & Q).
    rewrite R.
    assert (HMq : Zpos (m * my) = (u * L * 2 ^ (k - (d - 53))) * 2 ^ (d - 53)).
    { rewrite HM.
      replace (2 ^ k) with (2 ^ (k - (d - 53)) * 2 ^ (d - 53))
        by (rewrite <- pow2_add by lia; f_equal; lia).
      ring. }
    rewrite HMq in Q |- *.
    rewrite Z.div_mul in Q by (apply Z.pow_nonzero; lia).
    assert (Hpkn : 0 < 2 ^ (k - (d - 53))) by (apply Z.pow_pos_nonneg; lia).
    rewrite rne_exact by first [lia | apply Z.mul_nonneg_nonneg; lia].
    unfold Ieee.round_result.
    destruct (u * L * 2 ^ (k - (d - 53))) as [|q|q] eqn:Eq; try lia.
    destruct (Z.ltb_spec (Zpos q) (2 ^ 53)) as [_|]; [|lia].
    destruct (Z.leb_spec (e + ey + (d - 53)) 971) as [_|]; [|lia].
    cbn [Ieee.floorSF].
    destruct (Z.leb_spec 0 (e + ey + (d - 53))) as [|_]; [lia|].
    f_equal. rewrite <- Eq.
    replace (- (e + ey + (d - 53))) with (32 + (k - (d - 53))) by (subst k; lia).
    rewrite pow2_add by lia.
    apply Z.div_mul_cancel_r; lia.
Qed.

Lemma next_scaled_floor (r : Rng.t) (L : Z) :
  0 < L <= 2 ^ 21 ->
  Math_floor (PrimFloat.mul (snd (Rng.next r)) (of_Z L))
  = Some (snd (Rng.next_bits r) * L / 2 ^ 32)
  /\ 0 <= snd (Rng.next_bits r) * L / 2 ^ 32 < L.
Proof.
  intros HL. pose proof (next_bits_range r) as R.
  rewrite next_snd_bits. split; [apply scaled_floor_exact; assumption|].
  split.
  - apply Z.div_pos; nia.
  - apply Z.div_lt_upper_bound; nia.
Qed.

(** Whatever the width of the span, the scaled draw stays below it. *)
Lemma next_scaled_floor_range (r : Rng.t) (L : Z) :
  0 < L < 2 ^ 32 ->
  exists k, Math_floor (PrimFloat.mul (snd (Rng.next r)) (of_Z L)) = Some k
            /\ 0 <= k < L.
Proof.
  intros HL.
  destruct (pick_index (repeat tt (Z.to_nat L)) r) as (k & Hk & _ & Hr).
  - rewrite repeat_length, Z2Nat.id; lia.
  - rewrite repeat_length, Z2Nat.id in * by lia.
    exists k. split; [exact Hk|]. apply Hr.
    intros E. apply (f_equal (@List.length unit)) in E.
    rewrite repeat_length in E. cbn in E. lia.
Qed.

Lemma int_snd (min max : Z) (r : Rng.t) :
  snd (Rng.int min max r)
  = match Math_floor (PrimFloat.mul (snd (Rng.next r)) (of_Z (max - min + 1))) with
    | Some k => Some (k + min)
    | None => None
    end
  /\ fst (Rng.int min max r) = Rng.advance 1 r.
Proof.
  unfold Rng.int. cbn [Rng.advance]. destruct (Rng.next r) as [r' x]. split; reflexivity.
Qed.

Lemma pickSafeCard_exact (r : Rng.t) :
  let i := Z.to_nat (snd (Rng.next_bits r) * 14 / 2 ^ 32) in
  exists c,
    nth_error Card.SAFE_CARDS i = Some c
    /\ Card.pickSafeCard (snd (Rng.next r)) = Some c
    /\ Card.isBomb c = false.
Proof.
  intros i. subst i.
  assert (L14 : Z.of_nat (List.length Card.SAFE_CARDS) = 14) by reflexivity.
  destruct (next_scaled_floor r 14 ltac:(lia)) as (Hk & Hr).
  rewrite <- L14 in Hr at 2.
  destruct (index_in_range Card.SAFE_CARDS _ Hr) as (I1 & c & I2).
  exists c. split; [exact I2|]. split.
  - unfold Card.pickSafeCard. rewrite L14, Hk, I1. exact I2.
  - apply nth_error_In in I2.
    pose proof safe_cards_not_bombs as SB.
    rewrite Forall_forall in SB. exact (SB c I2).
Qed.

End ScaledDraws.

(** X4. [int(min, max)] returns an integer of the closed range
    [min .. max] and costs one draw, for integers [min <= max] that are
    fewer than 2^32 apart.  (Between -2^52 and 2^52 the integer
    arithmetic of the model is the double arithmetic of the source.) *)
Theorem int_within_bounds :
  forall (min max : Z) (r : Rng.t),
    - 2 ^ 52 <= min -> max <= 2 ^ 52 ->
    min <= max -> max - min + 1 < 2 ^ 32 ->
    exists k,
      snd (Rng.int min max r) = Some k /\ min <= k <= max
      /\ fst (Rng.int min max r) = Rng.advance 1 r.
Proof.
  intros min max r _ _ Hle Hw.
  destruct (int_snd min max r) as [S1 S2].
  destruct (next_scaled_floor_range r (max - min + 1) ltac:(lia)) as (k & Hk & Hr).
  exists (k + min). rewrite S1, Hk. split; [reflexivity|]. split; [lia|exact S2].
Qed.

Lemma int_within_bounds_witness :
  exists k,
    snd (Rng.int 1 6 (Rng.new (Some 7) 0)) = Some k /\ 1 <= k <= 6
    /\ fst (Rng.int 1 6 (Rng.new (Some 7) 0)) = Rng.advance 1 (Rng.new (Some 7) 0).
Proof.
  apply (int_within_bounds 1 6 (Rng.new (Some 7) 0)); lia.
Defined.



(** X6. On a non-empty array of at most 2^21 elements, [pick] returns
    the element at index [floor(u * length / 2^32)] for the 32-bit value
    [u] drawn, never [undefined], and costs one draw. *)
Theorem pick_returns_scaled_index :
  forall (T : Type) (arr : list T) (r : Rng.t),
    arr <> [] -> Z.of_nat (List.length arr) <= 2 ^ 21 ->
    exists v,
      nth_error arr
        (Z.to_nat (snd (Rng.next_bits r) * Z.of_nat (List.length arr) / 2 ^ 32))
      = Some v
      /\ Rng.pick arr r = Js.Returned (Rng.advance 1 r, Some v).
Proof.
  intros T arr r Hne Hlen.
  assert (HL : 0 < Z.of_nat (List.length arr) <= 2 ^ 21).
  { destruct arr; [contradiction|]. cbn [List.length] in *. lia. }
  destruct (next_scaled_floor r _ HL) as (Hk & Hr).
  destruct (index_in_range arr _ Hr) as (I1 & v & I2).
  exists v. split; [exact I2|].
  unfold Rng.pick. cbn [Rng.advance].
  destruct (Rng.next r) as [r' x]. cbn [snd fst] in *.
  rewrite Hk, I1, I2. reflexivity.
Qed.

Lemma pick_returns_scaled_index_witness :
  exists v,
    nth_error [10; 20; 30]
      (Z.to_nat (snd (Rng.next_bits (Rng.new (Some 7) 0))
                 * Z.of_nat (List.length [10; 20; 30]) / 2 ^ 32))
    = Some v
    /\ Rng.pick [10; 20; 30] (Rng.new (Some 7) 0)
       = Js.Returned (Rng.advance 1 (Rng.new (Some 7) 0), Some v).
Proof.
  apply (pick_returns_scaled_index Z [10; 20; 30] (Rng.new (Some 7) 0)).
  - discriminate.
  - cbn. lia.
Defined.

Section HexFacts.
Import JsString.

Lemma to_radix16_digits (fuel : nat) (n : Z) (acc : string) :
  (0 < fuel)%nat -> 0 <= n < 16 ^ Z.of_nat fuel ->
  exists k,
    (1 <= k <= fuel)%nat
    /\ to_radix16 fuel n acc = Hex.digits k n acc
    /\ n < 16 ^ Z.of_nat k
    /\ (k = 1%nat \/ 16 ^ (Z.of_nat k - 1) <= n).
Proof.
  revert n acc. induction fuel as [|f IH]; intros n acc Hf Hn; [lia|].
  cbn [to_radix16].
  destruct (Z.eqb_spec (n / 16) 0) as [Q|Q].
  - exists 1%nat. split; [lia|]. split; [reflexivity|]. split; [|left; reflexivity].
    pose proof (Z.div_mod n 16 ltac:(lia)). pose proof (Z.mod_pos_bound n 16 ltac:(lia)).
    cbn. lia.
  - assert (Hq : 0 <= n / 16 < 16 ^ Z.of_nat f).
    { split; [apply Z.div_pos; lia|].
      apply Z.div_lt_upper_bound; [lia|].
      rewrite Nat2Z.inj_succ, Z.pow_succ_r in Hn by lia. lia. }
    assert (Hf' : (0 < f)%nat).
    { destruct f; [|lia]. cbn in Hq. lia. }
    destruct (IH (n / 16) (String (digit (n mod 16)) acc) Hf' Hq)
      as (k & Hk & E & Hlt & Hmin).
    exists (S k). split; [lia|]. split; [exact E|].
    pose proof (Z.div_mod n 16 ltac:(lia)) as DM.
    pose proof (Z.mod_pos_bound n 16 ltac:(lia)) as MB.
    split.
    + rewrite Nat2Z.inj_succ, Z.pow_succ_r by lia. lia.
    + right. replace (Z.of_nat (S k) - 1) with (Z.succ (Z.of_nat k - 1)) by lia.
      rewrite Z.pow_succ_r by lia.
      destruct Hmin as [->|Hmin]; [cbn; lia | lia].
Qed.

Lemma digits_add (a b : nat) (n : Z) (acc : string) :
  Hex.digits (a + b) n acc = Hex.digits b (n / 16 ^ Z.of_nat a) (Hex.digits a n acc).
Proof.
  revert n acc. induction a as [|a IH]; intros n acc.
  - cbn [Nat.add Hex.digits]. cbn. now rewrite Z.div_1_r.
  - cbn [Nat.add Hex.digits]. rewrite IH. f_equal.
    rewrite Nat2Z.inj_succ, Z.pow_succ_r, Z.div_div by lia. reflexivity.
Qed.

Lemma replicate_snoc (j : nat) (c : ascii) (acc : string) :
  append (replicate j c) (String c acc) = String c (append (replicate j c) acc).
Proof.
  induction j as [|j IH]; cbn [replicate append]; [reflexivity|]. now rewrite IH.
Qed.

Lemma digits_zero (j : nat) (acc : string) :
  Hex.digits j 0 acc = append (replicate j "0"%char) acc.
Proof.
  revert acc. induction j as [|j IH]; intros acc; [reflexivity|].
  cbn [Hex.digits replicate append].
  change (0 / 16) with 0. change (digit (0 mod 16)) with "0"%char.
  rewrite IH. apply replicate_snoc.
Qed.

Lemma digits_length (k : nat) (n : Z) (acc : string) :
  String.length (Hex.digits k n acc) = (k + String.length acc)%nat.
Proof.
  revert n acc. induction k as [|k IH]; intros n acc; [reflexivity|].
  cbn [Hex.digits]. rewrite IH. cbn [String.length]. lia.
Qed.

Lemma toUpperCase_length (s : string) :
  String.length (toUpperCase s) = String.length s.
Proof. induction s as [|c s IH]; cbn; [reflexivity|]. now rewrite IH. Qed.

Lemma digit_value_upper (d : Z) :
  0 <= d < 16 -> Hex.digit_value (upper (digit d)) = Some d.
Proof.
  intros H.
  assert (C : d = 0 \/ d = 1 \/ d = 2 \/ d = 3 \/ d = 4 \/ d = 5 \/ d = 6 \/ d = 7
              \/ d = 8 \/ d = 9 \/ d = 10 \/ d = 11 \/ d = 12 \/ d = 13 \/ d = 14
              \/ d = 15) by lia.
  repeat (destruct C as [->|C]; [reflexivity|]). subst d. reflexivity.
Qed.

Lemma value_digits (k : nat) (n : Z) (acc : string) (a : Z) :
  0 <= n ->
  Hex.value_from (toUpperCase (Hex.digits k n acc)) a
  = Hex.value_from (toUpperCase acc) (a * 16 ^ Z.of_nat k + n mod 16 ^ Z.of_nat k).
Proof.
  revert n acc. induction k as [|k IH]; intros n acc Hn.
  - cbn [Hex.digits]. f_equal. cbn. rewrite Z.mod_1_r. lia.
  - cbn [Hex.digits]. rewrite IH by (apply Z.div_pos; lia).
    cbn [toUpperCase Hex.value_from].
    rewrite digit_value_upper by (apply Z.mod_pos_bound; lia).
    f_equal.
    rewrite Nat2Z.inj_succ, Z.pow_succ_r by lia.
    assert (P : 0 < 16 ^ Z.of_nat k) by (apply Z.pow_pos_nonneg; lia).
    rewrite (Z.rem_mul_r n 16 (16 ^ Z.of_nat k)) by lia.
    ring.
Qed.

Lemma padded_digits (n : Z) :
  0 <= n < 2 ^ 32 ->
  padStart 8 "0"%char (toString16 n) = Hex.digits 8 n EmptyString.
Proof.
  intros Hn. unfold toString16.
  set (fuel := S (Z.to_nat (Z.log2 n))).
  assert (Hfuel : 0 <= n < 16 ^ Z.of_nat fuel).
  { split; [lia|]. subst fuel. rewrite Nat2Z.inj_succ, Z2Nat.id by apply Z.log2_nonneg.
    destruct (Z.eq_dec n 0) as [->|N0]; [cbn; lia|].
    destruct (Z.log2_spec n ltac:(lia)) as [_ L].
    eapply Z.lt_le_trans; [exact L|].
    pose proof (Z.log2_nonneg n).
    change 16 with (2 ^ 4). rewrite <- Z.pow_mul_r by lia.
    apply Z.pow_le_mono_r; lia. }
  destruct (to_radix16_digits fuel n EmptyString ltac:(subst fuel; lia) Hfuel)
    as (k & Hk & E & Hlt & Hmin).
  rewrite E.
  assert (Hk8 : (k <= 8)%nat).
  { destruct Hmin as [->|Hmin]; [lia|].
    assert (16 ^ (Z.of_nat k - 1) < 16 ^ 8) by (change (16 ^ 8) with (2 ^ 32); lia).
    apply Z.pow_lt_mono_r_iff in H; lia. }
  unfold padStart. rewrite digits_length. cbn [String.length].
  rewrite Nat.add_0_r, <- digits_zero.
  replace 8%nat with (k + (8 - k))%nat at 2 by lia.
  rewrite digits_add. f_equal.
  symmetry. apply Z.div_small. lia.
Qed.

End HexFacts.

(** X7. [getSeedHex()] always returns exactly eight characters, all of
    them digits 0-9 or capitals A-F, and read as a hexadecimal number
    they give back the seed modulo 2^32: seeds that differ modulo 2^32
    are shown differently. *)
Theorem getSeedHex_eight_digits_round_trip :
  forall r : Rng.t,
    String.length (Rng.getSeedHex r) = 8%nat
    /\ Hex.value (Rng.getSeedHex r) = Some (Js.ToUint32 (Rng.seed r)).
Proof.
  intros r. unfold Rng.getSeedHex.
  assert (Hn : 0 <= Js.ToUint32 (Rng.seed r) < 2 ^ 32).
  { unfold Js.ToUint32. apply Z.mod_pos_bound. lia. }
  rewrite padded_digits by exact Hn. split.
  - rewrite toUpperCase_length, digits_length. reflexivity.
  - unfold Hex.value. rewrite value_digits by lia.
    cbn [JsString.toUpperCase Hex.value_from]. f_equal.
    change (16 ^ Z.of_nat 8) with (2 ^ 32). rewrite Z.mod_small by exact Hn. lia.
Qed.

(* ================================================================== *)
(** ** Further properties of the two-tower round *)
(* ================================================================== *)

Section PlaneThresholds.
Import Js ProbabilityController.
Local Open Scope float_scope.

Lemma mul_one_SF (m : positive) (e : Z) :
  valid_binary (S754_finite false m e) = true -> (2 ^ 52 <= Zpos m)%Z ->
  SF64mul (S754_finite false m e) (S754_finite false 4503599627370496 (-52))
  = S754_finite false m e.
Proof.
  intros Hv Hm. apply valid_finite in Hv. destruct Hv as (Hv1 & Hv2 & _).
  unfold SF64mul, SFmul. cbn [xorb].
  assert (D : Zpos (digits2_pos (m * 4503599627370496)) = 105%Z).
  { apply digits2_pos_unique. rewrite Pos2Z.inj_mul. lia. }
  destruct (round_normal false (m * 4503599627370496) (e + -52) 105 D ltac:(lia) ltac:(lia))
    as (R & _ & _).
  rewrite R.
  replace (Zpos (m * 4503599627370496)) with (Zpos m * 2 ^ (105 - 53))%Z
    by (rewrite Pos2Z.inj_mul; lia).
  rewrite rne_exact by lia.
  unfold Ieee.round_result.
  destruct (Z.ltb_spec (Zpos m) (2 ^ 53)) as [_|]; [|lia].
  replace (e + -52 + (105 - 53))%Z with e by lia.
  destruct (Z.leb_spec e 971) as [_|]; [reflexivity | lia].
Qed.

(** The weights of a plane, as the doubles the products and sums give:
    the total is exactly one. *)
Lemma weights_SF :
  Prim2SF (BASE_FIRST_PLANE hitA * hitWeightMultiplier)
  = S754_finite false 8106479329266893 (-54)
  /\ Prim2SF (BASE_FIRST_PLANE hitA * hitWeightMultiplier
              + BASE_FIRST_PLANE hitB * hitWeightMultiplier)
     = S754_finite false 8106479329266893 (-53)
  /\ Prim2SF (BASE_FIRST_PLANE hitA * hitWeightMultiplier
              + BASE_FIRST_PLANE hitB * hitWeightMultiplier
              + BASE_FIRST_PLANE miss * missWeightMultiplier)
     = S754_finite false 4503599627370496 (-52).
Proof. repeat split. Qed.

Lemma collapse_chances_SF :
  Prim2SF getEffectiveCollapseChance = S754_finite false 5044031582654955 (-55)
  /\ Prim2SF BASE_DOUBLE_PLANE_ON_MISS = S754_finite false 7205759403792794 (-56)
  /\ Prim2SF 0.5 = S754_finite false 4503599627370496 (-53).
Proof. repeat split. Qed.

(** Scaling a draw by the total weight leaves it as it is. *)
Lemma scaled_by_total (u : Z) :
  (0 <= u < 2 ^ 32)%Z ->
  Prim2SF (PrimFloat.div (of_Z u) 4294967296
           * (BASE_FIRST_PLANE hitA * hitWeightMultiplier
              + BASE_FIRST_PLANE hitB * hitWeightMultiplier
              + BASE_FIRST_PLANE miss * missWeightMultiplier))
  = Prim2SF (PrimFloat.div (of_Z u) 4294967296).
Proof.
  intros Hu. rewrite FloatAxioms.mul_spec.
  destruct weights_SF as (_ & _ & W). rewrite W.
  pose proof (Prim2SF_valid (PrimFloat.div (of_Z u) 4294967296)) as V.
  destruct (u32_fraction_SF u Hu) as [[U0 E]|(m & ex & E & Hex & Hm & Hmr)];
    rewrite E in *.
  - reflexivity.
  - apply mul_one_SF; [exact V | lia].
Qed.

Lemma rollPlaneOutcome_snd (r : Rng.t) :
  snd (rollPlaneOutcome r) = Draws.plane (snd (Rng.next_bits r)).
Proof.
  unfold rollPlaneOutcome, Draws.plane.
  pose proof (next_snd_bits r) as X.
  pose proof (next_bits_range r) as R.
  destruct (Rng.next r) as [r' x]. cbn [snd fst] in *. subst x.
  destruct weights_SF as (WA & WAB & _).
  rewrite (lt_threshold _ _ _ 8106479329266893 (-54) 1932735284 R
             (scaled_by_total _ R) WA ltac:(lia) ltac:(intros; lia)).
  rewrite (lt_threshold _ _ _ 8106479329266893 (-53) 3865470567 R
             (scaled_by_total _ R) WAB ltac:(lia) ltac:(intros; lia)).
  reflexivity.
Qed.

Lemma randomTower_snd (r : Rng.t) :
  snd (randomTower r) = Draws.tower (snd (Rng.next_bits r)).
Proof.
  unfold randomTower, Draws.tower.
  pose proof (chance_threshold 0.5 r 4503599627370496 (-53) 2147483648
                ltac:(reflexivity) ltac:(lia) ltac:(intros; lia)) as H.
  destruct (Rng.chance 0.5 r) as [r' b]. cbn [snd] in *. rewrite H. reflexivity.
Qed.

End PlaneThresholds.

(** X8. [rollPlaneOutcome] is an integer decision on the 32-bit value
    [u] it draws: [hitA] when [u < 1932735284], [hitB] when
    [1932735284 <= u < 3865470567], [miss] otherwise.  The three weights
    sum to exactly one, so the scaling by their total changes nothing;
    [hitA] gets one value more than [hitB]. *)
Theorem rollPlaneOutcome_integer_thresholds :
  forall r : Rng.t,
    let u := snd (Rng.next_bits r) in
    snd (ProbabilityController.rollPlaneOutcome r)
    = (if u <? 1932735284 then ProbabilityController.hitA
       else if u <? 3865470567 then ProbabilityController.hitB
       else ProbabilityController.miss)
    /\ fst (ProbabilityController.rollPlaneOutcome r) = Rng.advance 1 r.
Proof.
  intros r u. subst u. split.
  - rewrite rollPlaneOutcome_snd. unfold Draws.plane. reflexivity.
  - apply rollPlaneOutcome_fst.
Qed.

Section RoundByDraws.
Import Js ProbabilityController.

Lemma chance_pair (p : number) (r : Rng.t) :
  Rng.chance p r = (Rng.advance 1 r, snd (Rng.chance p r)).
Proof.
  pose proof (chance_fst p r) as F. cbn [Rng.advance].
  destruct (Rng.chance p r) as [r1 b]. cbn [fst snd] in *. now subst r1.
Qed.

Lemma draw_0 (r : Rng.t) : snd (Rng.next_bits r) = Draws.draw r 0.
Proof. unfold Draws.draw. cbn [Rng.advance]. reflexivity. Qed.

Lemma draw_advance (a k : nat) (r : Rng.t) :
  Draws.draw (Rng.advance a r) k = Draws.draw r (a + k).
Proof. unfold Draws.draw. now rewrite advance_add. Qed.

Lemma rollPlaneOutcome_pair (r : Rng.t) :
  rollPlaneOutcome r = (Rng.advance 1 r, Draws.plane (Draws.draw r 0)).
Proof.
  pose proof (rollPlaneOutcome_fst r) as F.
  pose proof (rollPlaneOutcome_snd r) as S.
  rewrite <- draw_0. cbn [Rng.advance].
  destruct (rollPlaneOutcome r) as [r1 o]. cbn [fst snd] in *. now subst.
Qed.

Lemma randomTower_pair (r : Rng.t) :
  randomTower r = (Rng.advance 1 r, Draws.tower (Draws.draw r 0)).
Proof.
  pose proof (randomTower_fst r) as F.
  pose proof (randomTower_snd r) as S.
  rewrite <- draw_0. cbn [Rng.advance].
  destruct (randomTower r) as [r1 o]. cbn [fst snd] in *. now subst.
Qed.

(** What the record of a round always satisfies. *)
Lemma resolveRound_record (selectedTower : TowerId) (r : Rng.t) :
  let res := snd (resolveRound selectedTower r) in
  (secondPlaneTriggered res = true -> firstPlane res = miss)
  /\ (secondPlane res = None <-> secondPlaneTriggered res = false).
Proof.
  intros res. subst res. unfold resolveRound.
  destruct (Rng.chance _ r) as [r1 [|]];
    [destruct (randomTower r1) as [r2 w]|];
    (destruct (rollPlaneOutcome _) as [r3 [| |]];
     [| |destruct (Rng.chance _ r3) as [r4 [|]];
         [destruct (rollPlaneOutcome r4) as [r5 o]|]]);
    cbn; (repeat split; try discriminate; try reflexivity).
Qed.

(** X9. [resolveRound] is an integer decision on the 32-bit values
    [u0, u1, ...] its calls of [next] draw in order.  A collapse is
    triggered exactly when [u0 < 601295422], and then falls on tower A
    exactly when [u1 < 2^31]; the first plane is decided by the next
    value [ui] ([i] is 2 after a collapse, 1 otherwise) with the
    thresholds of [rollPlaneOutcome]; a second plane is triggered exactly
    when the first one missed and [u(i+1) < 429496730], and is then
    decided by [u(i+2)]. *)
Theorem resolveRound_by_integer_draws :
  forall (selectedTower : ProbabilityController.TowerId) (r : Rng.t),
    let res := snd (ProbabilityController.resolveRound selectedTower r) in
    let u := Draws.draw r in
    let collapse := u 0%nat <? 601295422 in
    let i := if collapse then 2%nat else 1%nat in
    let first := Draws.plane (u i) in
    let second := Draws.is_miss first && (u (i + 1)%nat <? 429496730) in
    ProbabilityController.collapseTriggered res = collapse
    /\ ProbabilityController.collapsedTower res
       = (if collapse then Some (Draws.tower (u 1%nat)) else None)
    /\ ProbabilityController.firstPlane res = first
    /\ ProbabilityController.secondPlaneTriggered res = second
    /\ ProbabilityController.secondPlane res
       = (if second then Some (Draws.plane (u (i + 2)%nat)) else None).
Proof.
  intros selectedTower r. cbv zeta.
  destruct collapse_chances_SF as (C1 & C2 & _).
  pose proof (fun r => chance_threshold _ r _ _ 601295422 C1 ltac:(lia) ltac:(intros; lia))
    as TC.
  pose proof (fun r => chance_threshold _ r _ _ 429496730 C2 ltac:(lia) ltac:(intros; lia))
    as TD.
  unfold resolveRound.
  rewrite (chance_pair _ r), (TC r).
  rewrite draw_0.
  destruct (Draws.draw r 0 <? 601295422).
  - rewrite randomTower_pair, rollPlaneOutcome_pair.
    rewrite !draw_advance. cbn [Nat.add].
    destruct (Draws.plane (Draws.draw r 2)) eqn:P; cbn [Draws.is_miss andb snd
      collapseTriggered collapsedTower firstPlane secondPlaneTriggered secondPlane];
      try (repeat split; reflexivity).
    rewrite (chance_pair _ (Rng.advance 1 (Rng.advance 1 (Rng.advance 1 r)))), TD.
    rewrite draw_0.
    rewrite !draw_advance. cbn [Nat.add].
    destruct (Draws.draw r 3 <? 429496730).
    + rewrite rollPlaneOutcome_pair, !draw_advance. cbn [Nat.add snd
        collapseTriggered collapsedTower firstPlane secondPlaneTriggered secondPlane].
      repeat split; reflexivity.
    + cbn [snd collapseTriggered collapsedTower firstPlane secondPlaneTriggered secondPlane].
      repeat split; reflexivity.
  - rewrite rollPlaneOutcome_pair.
    rewrite !draw_advance. cbn [Nat.add].
    destruct (Draws.plane (Draws.draw r 1)) eqn:P; cbn [Draws.is_miss andb snd
      collapseTriggered collapsedTower firstPlane secondPlaneTriggered secondPlane];
      try (repeat split; reflexivity).
    rewrite (chance_pair _ (Rng.advance 1 (Rng.advance 1 r))), TD.
    rewrite draw_0.
    rewrite !draw_advance. cbn [Nat.add].
    destruct (Draws.draw r 2 <? 429496730).
    + rewrite rollPlaneOutcome_pair, !draw_advance. cbn [Nat.add snd
        collapseTriggered collapsedTower firstPlane secondPlaneTriggered secondPlane].
      repeat split; reflexivity.
    + cbn [snd collapseTriggered collapsedTower firstPlane secondPlaneTriggered secondPlane].
      repeat split; reflexivity.
Qed.

End RoundByDraws.

(* ================================================================== *)
(** ** Further properties of the hazard engine *)
(* ================================================================== *)

Section RunTypes.
Import Js OutcomeController.

(** X10. [startRound] decides the run type on the 32-bit value [u] it
    draws: short when [u < 1288490189], medium when
    [1288490189 <= u < 3435973837], long otherwise.  It adds one to the
    round number, costs exactly one draw and leaves both streak counters
    as they were. *)
Theorem startRound_run_type_by_draw :
  forall c : OutcomeController.t,
    let u := snd (Rng.next_bits (OutcomeController.rng c)) in
    OutcomeController.runType (OutcomeController.startRound c)
    = (if u <? 1288490189 then OutcomeController.short
       else if u <? 3435973837 then OutcomeController.medium
       else OutcomeController.long)
    /\ OutcomeController.roundNumber (OutcomeController.startRound c)
       = S (OutcomeController.roundNumber c)
    /\ OutcomeController.consecutiveLosses (OutcomeController.startRound c)
       = OutcomeController.consecutiveLosses c
    /\ OutcomeController.consecutiveWins (OutcomeController.startRound c)
       = OutcomeController.consecutiveWins c
    /\ OutcomeController.rng (OutcomeController.startRound c)
       = Rng.advance 1 (OutcomeController.rng c).
Proof.
  intros c u. subst u. unfold startRound.
  pose proof (next_snd_bits (rng c)) as X.
  pose proof (next_bits_range (rng c)) as R.
  cbn [Rng.advance].
  destruct (Rng.next (rng c)) as [r' x]. cbn [snd fst] in *.
  cbn [runType roundNumber consecutiveLosses consecutiveWins rng].
  repeat split.
  rewrite (lt_threshold x 0.30%float _ 5404319552844595 (-54) 1288490189 R
             (f_equal Prim2SF X) c030_SF ltac:(lia) ltac:(intros; lia)).
  rewrite (lt_threshold x 0.80%float _ 7205759403792794 (-53) 3435973837 R
             (f_equal Prim2SF X) c080_SF ltac:(lia) ltac:(intros; lia)).
  reflexivity.
Qed.

End RunTypes.

Section VerdictCounts.
Import OutcomeController.

Lemma run_app (ks1 ks2 : list call) (c : t) :
  run (ks1 ++ ks2) c = run ks2 (run ks1 c).
Proof. unfold run. apply fold_left_app. Qed.

Lemma run_cons (k : call) (ks : list call) (c : t) :
  run (k :: ks) c = run ks (exec k c).
Proof. reflexivity. Qed.

Lemma exec_counters (k : call) (c : t) :
  consecutiveLosses (exec k c)
  = (if Verdicts.is_lost k then S (consecutiveLosses c)
     else if Verdicts.is_won k then O else consecutiveLosses c)
  /\ consecutiveWins (exec k c)
     = (if Verdicts.is_won k then S (consecutiveWins c)
        else if Verdicts.is_lost k then O else consecutiveWins c).
Proof.
  destruct k; cbn [exec Verdicts.is_lost Verdicts.is_won].
  - unfold startRound. destruct (Rng.next (rng c)). split; reflexivity.
  - split; reflexivity.
  - unfold isBomb. destruct (Rng.chance _ _). split; reflexivity.
  - split; reflexivity.
  - split; reflexivity.
Qed.

Lemma run_without_won (ks : list call) (c : t) :
  Verdicts.count Verdicts.is_won ks = O ->
  consecutiveLosses (run ks c)
  = (consecutiveLosses c + Verdicts.count Verdicts.is_lost ks)%nat.
Proof.
  revert c. induction ks as [|k ks IH]; intros c H.
  - cbn. lia.
  - rewrite run_cons. unfold Verdicts.count in *. cbn [filter] in *.
    destruct (exec_counters k c) as [E _].
    destruct (Verdicts.is_won k) eqn:W; [discriminate H|].
    rewrite (IH _ H), E.
    destruct (Verdicts.is_lost k); cbn [List.length]; lia.
Qed.

Lemma run_without_lost (ks : list call) (c : t) :
  Verdicts.count Verdicts.is_lost ks = O ->
  consecutiveWins (run ks c)
  = (consecutiveWins c + Verdicts.count Verdicts.is_won ks)%nat.
Proof.
  revert c. induction ks as [|k ks IH]; intros c H.
  - cbn. lia.
  - rewrite run_cons. unfold Verdicts.count in *. cbn [filter] in *.
    destruct (exec_counters k c) as [_ E].
    destruct (Verdicts.is_lost k) eqn:W; [discriminate H|].
    rewrite (IH _ H), E.
    destruct (Verdicts.is_won k); cbn [List.length]; lia.
Qed.

End VerdictCounts.

(** X11. The streak counters count the verdicts since the last opposite
    verdict.  After any run of calls followed by [onRoundWon] and then
    by calls among which there is no [onRoundWon], [consecutiveLosses]
    is the number of [onRoundLost] among the latter, whatever calls of
    [startRound], [getBombProbability] and [isBomb] lie between them; the
    same with the two verdicts exchanged; and on a new controller the
    counters count the verdicts since construction. *)
Theorem streak_counters_count_trailing_verdicts :
  forall (pre tail : list OutcomeController.call) (c : OutcomeController.t),
    (Verdicts.count Verdicts.is_won tail = O ->
     OutcomeController.consecutiveLosses
       (OutcomeController.run (pre ++ OutcomeController.CallOnRoundWon :: tail) c)
     = Verdicts.count Verdicts.is_lost tail)
    /\ (Verdicts.count Verdicts.is_lost tail = O ->
        OutcomeController.consecutiveWins
          (OutcomeController.run (pre ++ OutcomeController.CallOnRoundLost :: tail) c)
        = Verdicts.count Verdicts.is_won tail)
    /\ (Verdicts.count Verdicts.is_won tail = O ->
        OutcomeController.consecutiveLosses
          (OutcomeController.run tail (OutcomeController.new (OutcomeController.rng c)))
        = Verdicts.count Verdicts.is_lost tail)
    /\ (Verdicts.count Verdicts.is_lost tail = O ->
        OutcomeController.consecutiveWins
          (OutcomeController.run tail (OutcomeController.new (OutcomeController.rng c)))
        = Verdicts.count Verdicts.is_won tail).
Proof.
  intros pre tail c. repeat split; intros H.
  - rewrite run_app, run_cons, (run_without_won _ _ H). reflexivity.
  - rewrite run_app, run_cons, (run_without_lost _ _ H). reflexivity.
  - rewrite (run_without_won _ _ H). reflexivity.
  - rewrite (run_without_lost _ _ H). reflexivity.
Qed.

Lemma streak_counters_count_trailing_verdicts_witness :
  Verdicts.count Verdicts.is_won
    [OutcomeController.CallOnRoundLost; OutcomeController.CallIsBomb 0%float;
     OutcomeController.CallStartRound; OutcomeController.CallOnRoundLost] = O
  /\ OutcomeController.consecutiveLosses
       (OutcomeController.run
          ([OutcomeController.CallOnRoundLost]
             ++ OutcomeController.CallOnRoundWon
             :: [OutcomeController.CallOnRoundLost; OutcomeController.CallIsBomb 0%float;
                 OutcomeController.CallStartRound; OutcomeController.CallOnRoundLost])
          (OutcomeController.new (Rng.new (Some 7) 0)))
     = 2%nat.
Proof.
  split; [reflexivity|].
  exact (proj1 (streak_counters_count_trailing_verdicts
                  [OutcomeController.CallOnRoundLost]
                  [OutcomeController.CallOnRoundLost; OutcomeController.CallIsBomb 0%float;
                   OutcomeController.CallStartRound; OutcomeController.CallOnRoundLost]
                  (OutcomeController.new (Rng.new (Some 7) 0))) eq_refl).
Defined.

Section BombZones.
Import Js OutcomeController.

Lemma isBomb_snd (i : number) (c : t) :
  snd (isBomb i c) = lt (snd (Rng.next (rng c))) (getBombProbability c i).
Proof.
  unfold isBomb. rewrite <- chance_snd.
  destruct (Rng.chance _ (rng c)). reflexivity.
Qed.

(** X12. Whatever the run type, the streaks and the swipe index (any
    number that is not NaN), the clamp leaves two zones of the 32-bit
    draw [u] where [isBomb] is decided in advance: [u < 171798692]
    (4 percent of the values) is always a bomb, and [u >= 1288490189]
    (70 percent of the values) is never one. *)
Theorem isBomb_sure_zones :
  forall (swipeIndex : Js.number) (c : OutcomeController.t),
    Js.is_nan swipeIndex = false ->
    let u := snd (Rng.next_bits (OutcomeController.rng c)) in
    (u < 171798692 -> snd (OutcomeController.isBomb swipeIndex c) = true)
    /\ (1288490189 <= u -> snd (OutcomeController.isBomb swipeIndex c) = false).
Proof.
  intros i c Hi u. subst u.
  pose proof (hazard_in_band c i Hi) as B. unfold Props.in_band in B.
  apply andb_true_iff in B. destruct B as [B1 B2].
  unfold Props.pMin, Props.pMax in *.
  pose proof (next_bits_range (rng c)) as R.
  pose proof (f_equal Prim2SF (next_snd_bits (rng c))) as X.
  rewrite isBomb_snd. split; intros H.
  - apply lt_le_trans with 0.04%float; [|exact B1].
    rewrite (lt_threshold _ 0.04%float _ 5764607523034235 (-57) 171798692 R X
               c004_SF ltac:(lia) ltac:(intros; lia)).
    apply Z.ltb_lt, H.
  - destruct (lt _ (getBombProbability c i)) eqn:L; [|reflexivity].
    pose proof (lt_le_trans _ _ _ L B2) as L2.
    rewrite (lt_threshold _ 0.30%float _ 5404319552844595 (-54) 1288490189 R X
               c030_SF ltac:(lia) ltac:(intros; lia)) in L2.
    apply Z.ltb_lt in L2. lia.
Qed.

End BombZones.

Lemma isBomb_sure_zones_witness :
  Js.is_nan 2%float = false
  /\ (let u := snd (Rng.next_bits (Rng.new (Some 7) 0)) in
      (u < 171798692 ->
       snd (OutcomeController.isBomb 2%float
              (OutcomeController.new (Rng.new (Some 7) 0))) = true)
      /\ (1288490189 <= u ->
          snd (OutcomeController.isBomb 2%float
                 (OutcomeController.new (Rng.new (Some 7) 0))) = false)).
Proof.
  split; [reflexivity|].
  apply (isBomb_sure_zones 2%float (OutcomeController.new (Rng.new (Some 7) 0))).
  reflexivity.
Defined.

(** X13. What a card costs in draws: [nextCard] advances the generator
    the engine shares with its controller by one draw when it returns
    the bomb and by two when it returns a safe card, and leaves the run
    type, both streak counters and the round number as they were. *)
Theorem nextCard_draws :
  forall (swipeIndex : Js.number) (e : ReelEngine.t),
    let bomb := snd (OutcomeController.isBomb swipeIndex (ReelEngine.controller e)) in
    let e' := fst (ReelEngine.nextCard swipeIndex e) in
    ReelEngine.rng e' = Rng.advance (if bomb then 1 else 2) (ReelEngine.rng e)
    /\ OutcomeController.runType (ReelEngine.controller e')
       = OutcomeController.runType (ReelEngine.controller e)
    /\ OutcomeController.consecutiveLosses (ReelEngine.controller e')
       = OutcomeController.consecutiveLosses (ReelEngine.controller e)
    /\ OutcomeController.consecutiveWins (ReelEngine.controller e')
       = OutcomeController.consecutiveWins (ReelEngine.controller e)
    /\ OutcomeController.roundNumber (ReelEngine.controller e')
       = OutcomeController.roundNumber (ReelEngine.controller e).
Proof.
  intros i [c]. cbv zeta.
  unfold ReelEngine.nextCard, ReelEngine.controller, ReelEngine.rng, ReelEngine.safePick,
    OutcomeController.isBomb.
  cbn [ReelEngine.outcomeController].
  pose proof (chance_fst (OutcomeController.getBombProbability c i) (OutcomeController.rng c)) as F.
  destruct (Rng.chance _ (OutcomeController.rng c)) as [r1 b]. cbn [fst snd] in *.
  destruct b; cbn [fst snd ReelEngine.outcomeController ReelEngine.rng].
  - cbn [OutcomeController.with_rng OutcomeController.rng OutcomeController.runType
         OutcomeController.consecutiveLosses OutcomeController.consecutiveWins
         OutcomeController.roundNumber Rng.advance].
    rewrite F. repeat split.
  - cbn [ReelEngine.rng ReelEngine.outcomeController OutcomeController.with_rng
         OutcomeController.rng].
    destruct (Rng.next r1) as [r2 x] eqn:N2.
    cbn [fst snd ReelEngine.outcomeController OutcomeController.with_rng OutcomeController.rng
         OutcomeController.runType
         OutcomeController.consecutiveLosses OutcomeController.consecutiveWins
         OutcomeController.roundNumber Rng.advance].
    rewrite <- F, N2. repeat split.
Qed.

(** X14. [safePick] returns the safe card at index
    [floor(14 * u / 2^32)] for the 32-bit value [u] it draws: always a
    card of [SAFE_CARDS], never [undefined] and never the bomb, at the
    cost of one draw. *)
Theorem safePick_card_of_draw :
  forall e : ReelEngine.t,
    let u := snd (Rng.next_bits (ReelEngine.rng e)) in
    exists c,
      nth_error Card.SAFE_CARDS (Z.to_nat (u * 14 / 2 ^ 32)) = Some c
      /\ snd (ReelEngine.safePick e) = Some c
      /\ Card.isBomb c = false
      /\ ReelEngine.rng (fst (ReelEngine.safePick e)) = Rng.advance 1 (ReelEngine.rng e).
Proof.
  intros e u. subst u.
  destruct (pickSafeCard_exact (ReelEngine.rng e)) as (c & C1 & C2 & C3).
  exists c. split; [exact C1|].
  unfold ReelEngine.safePick. cbn [Rng.advance].
  destruct (Rng.next (ReelEngine.rng e)) as [r' x]. cbn [fst snd] in *.
  repeat split; assumption.
Qed.

(* ================================================================== *)
(** ** Properties of the simulation *)
(* ================================================================== *)

Section SimulationLoop.
Import ProbabilityController Simulation.

Lemma body_balanced (n : nat) (s : Rng.t * Counters.t) :
  Tally.balanced n (snd s) -> Tally.balanced (S n) (snd (body s)).
Proof.
  destruct s as [r t]. unfold body, Tally.balanced. cbn [snd].
  destruct (Rng.chance _ r) as [r1 b].
  pose proof (resolveRound_record (if b then A else B) r1) as C.
  destruct (resolveRound _ r1) as [r2 res]. cbn [snd] in *.
  destruct C as (C1 & C2).
  intros (H1 & H2 & H3 & H4 & H5).
  destruct (secondPlaneTriggered res) eqn:T.
  - rewrite (C1 eq_refl).
    destruct (secondPlane res) as [o|] eqn:P; [|destruct C2 as [C2 _]; discriminate (C2 eq_refl)].
    destruct o, (selectedTowerWins res), (collapseTriggered res); cbn; lia.
  - destruct C2 as [_ C2]. rewrite (C2 eq_refl).
    destruct (firstPlane res), (selectedTowerWins res), (collapseTriggered res); cbn; lia.
Qed.

Lemma loop_balanced (n k : nat) (s : Rng.t * Counters.t) :
  Tally.balanced k (snd s) -> Tally.balanced (k + n) (snd (loop n s)).
Proof.
  revert k s. induction n as [|n IH]; intros k s H.
  - cbn [loop]. replace (k + 0)%nat with k by lia. exact H.
  - cbn [loop]. replace (k + S n)%nat with (S k + n)%nat by lia.
    apply IH, body_balanced, H.
Qed.

Lemma body_advance (s : Rng.t * Counters.t) :
  exists d, (3 <= d <= 6)%nat /\ fst (body s) = Rng.advance d (fst s).
Proof.
  destruct s as [r t]. unfold body. cbn [fst].
  pose proof (chance_fst 0.5%float r) as F.
  destruct (Rng.chance _ r) as [r1 b]. cbn [fst] in F.
  pose proof (resolveRound_advance (if b then A else B) r1) as R.
  destruct (resolveRound _ r1) as [r2 res]. cbn [fst snd] in *.
  pose proof (draws_of_bounds res) as D.
  exists (1 + Props.draws_of res)%nat. split; [lia|].
  rewrite advance_add. cbn [Rng.advance]. rewrite <- F. exact R.
Qed.

Lemma loop_advance (n : nat) (s : Rng.t * Counters.t) :
  exists d, (3 * n <= d <= 6 * n)%nat /\ fst (loop n s) = Rng.advance d (fst s).
Proof.
  revert s. induction n as [|n IH]; intros s.
  - exists O. split; [lia | reflexivity].
  - cbn [loop]. destruct (IH (body s)) as (d & Hd & E).
    destruct (body_advance s) as (d1 & Hd1 & E1).
    exists (d1 + d)%nat. split; [lia|].
    rewrite E, E1, advance_add. reflexivity.
Qed.

End SimulationLoop.

(** X15. The counters of [simulate(rounds)] balance: every round counts
    one first plane and every double-plane event one more, so
    [hitA + hitB + miss = rounds + doublePlane]; a second plane only
    follows a miss, so [doublePlane <= miss]; and [doublePlane], [wins]
    and [collapse] are at most [rounds]. *)
Theorem simulate_counters_balanced :
  forall rounds : nat,
    let t := snd (Simulation.run rounds) in
    (Simulation.Counters.hitA t + Simulation.Counters.hitB t + Simulation.Counters.miss t
     = rounds + Simulation.Counters.doublePlane t
     /\ Simulation.Counters.doublePlane t <= Simulation.Counters.miss t
     /\ Simulation.Counters.doublePlane t <= rounds
     /\ Simulation.Counters.wins t <= rounds
     /\ Simulation.Counters.collapse t <= rounds)%nat.
Proof.
  intros rounds t. subst t. unfold Simulation.run.
  apply (loop_balanced rounds 0).
  unfold Tally.balanced. cbn. lia.
Qed.

(** X16. [simulate(rounds)] draws between [3 * rounds] and
    [6 * rounds] values from its generator, which it seeds with
    0x5eedc0de: one for the tower picked and two to five for the round. *)
Theorem simulate_draws_between_3_and_6_per_round :
  forall rounds : nat,
    exists d : nat,
      (3 * rounds <= d <= 6 * rounds)%nat
      /\ fst (Simulation.run rounds)
         = Rng.advance d (Rng.new (Some 0x5eedc0de) 0).
Proof.
  intros rounds. unfold Simulation.run.
  destruct (loop_advance rounds (Rng.new (Some 0x5eedc0de) 0, Simulation.Counters.zero))
    as (d & Hd & E).
  exists d. split; [exact Hd | exact E].
Qed.

Section Quotients.
Import Js.

Lemma iter_shr_1_nonneg (p : positive) (mrs : shr_record) :
  0 <= shr_m mrs -> 0 <= shr_m (iter_pos shr_1 p mrs).
Proof.
  assert (S1 : forall mrs, 0 <= shr_m mrs -> 0 <= shr_m (shr_1 mrs)).
  { intros [q r s] H. cbn [shr_m] in H. rewrite shr_1_nonneg by exact H.
    cbn [shr_m]. apply Z.div_pos; lia. }
  revert mrs. induction p as [p IH|p IH|]; intros mrs H; cbn [iter_pos].
  - apply IH, IH, S1, H.
  - apply IH, IH, H.
  - apply S1, H.
Qed.

Lemma shr_fexp_nonneg (m e : Z) (l : location) :
  0 <= m -> 0 <= shr_m (fst (shr_fexp prec emax m e l)).
Proof.
  intros H. unfold shr_fexp, shr.
  assert (H0 : 0 <= shr_m (shr_record_of_loc m l)).
  { destruct l as [|[| |]]; exact H. }
  destruct (fexp prec emax (Zdigits2 m + e) - e); cbn [fst]; try exact H0.
  apply iter_shr_1_nonneg, H0.
Qed.

Lemma round_nearest_even_nonneg (m : Z) (l : location) :
  0 <= m -> 0 <= round_nearest_even m l.
Proof.
  intros H. destruct l as [|[| |]]; cbn [round_nearest_even]; try lia.
  destruct (Z.even m); lia.
Qed.

(** Rounding a quotient that is not negative never gives NaN. *)
Lemma binary_round_aux_nonneg_not_nan (sx : bool) (m e : Z) (l : location) :
  0 <= m -> binary_round_aux prec emax sx m e l <> S754_nan.
Proof.
  intros H. unfold binary_round_aux.
  pose proof (shr_fexp_nonneg m e l H) as H1.
  destruct (shr_fexp prec emax m e l) as [mrs' e']. cbn [fst] in H1.
  pose proof (shr_fexp_nonneg _ e' loc_Exact
                (round_nearest_even_nonneg _ (loc_of_shr_record mrs') H1)) as H2.
  destruct (shr_fexp prec emax _ e' loc_Exact) as [mrs'' e'']. cbn [fst] in H2.
  destruct (shr_m mrs'') as [|p|p]; [discriminate| |lia].
  destruct (e'' <=? emax - prec); discriminate.
Qed.

Lemma SFdiv_finite_not_nan (X : spec_float) (my : positive) (ey : Z) :
  X <> S754_nan -> SFdiv prec emax X (S754_finite false my ey) <> S754_nan.
Proof.
  intros HX. destruct X as [s|s| |s m e]; try discriminate; [congruence|].
  unfold SFdiv, SFdiv_core_binary.
  rewrite div_eucl_pair.
  apply binary_round_aux_nonneg_not_nan.
  apply Z.div_pos; [|lia].
  destruct (e - ey - _) as [|p|p]; [lia| |lia].
  rewrite Z.shiftl_mul_pow2 by lia.
  pose proof (Z.pow_pos_nonneg 2 (Zpos p) ltac:(lia) ltac:(lia)). nia.
Qed.

Lemma of_Z_not_nan (z : Z) : 0 <= z -> Prim2SF (of_Z z) <> S754_nan.
Proof.
  intros H. destruct z as [|p|p]; [| |lia]; unfold of_Z;
    rewrite of_uint63_spec; apply binary_normalize_not_nan.
Qed.

Lemma ratio_nan (c n : nat) :
  Z.of_nat n < 2 ^ 53 ->
  (n = O -> c = O) ->
  is_nan (PrimFloat.div (Simulation.of_nat c) (Simulation.of_nat n)) = (n =? 0)%nat.
Proof.
  intros Hn H0. destruct n as [|n].
  - rewrite (H0 eq_refl). reflexivity.
  - cbn [Nat.eqb]. apply is_nan_SF. rewrite FloatAxioms.div_spec.
    unfold Simulation.of_nat.
    destruct (Z.of_nat (S n)) as [|p|p] eqn:E; try lia.
    destruct (of_Z_pos_SF p Hn) as (m & e & Ep & _).
    rewrite Ep. apply SFdiv_finite_not_nan, of_Z_not_nan. lia.
Qed.

End Quotients.

(** X17. The rates [simulate] reports are NaN exactly when it is asked
    for no round at all: [simulate(0)] divides zero by zero in every
    rate, and for [0 < rounds < 2^53] none of [winRate],
    [effectiveRtp], [hitA], [hitB], [miss], [doublePlane] and
    [collapse] is NaN. *)
Theorem simulate_rates_nan_iff_no_rounds :
  forall rounds : nat,
    Z.of_nat rounds < 2 ^ 53 ->
    let s := Simulation.simulate rounds in
    Js.is_nan (Simulation.winRate s) = (rounds =? 0)%nat
    /\ Js.is_nan (Simulation.effectiveRtp s) = (rounds =? 0)%nat
    /\ Js.is_nan (Simulation.hitA s) = (rounds =? 0)%nat
    /\ Js.is_nan (Simulation.hitB s) = (rounds =? 0)%nat
    /\ Js.is_nan (Simulation.miss s) = (rounds =? 0)%nat
    /\ Js.is_nan (Simulation.doublePlane s) = (rounds =? 0)%nat
    /\ Js.is_nan (Simulation.collapse s) = (rounds =? 0)%nat.
Proof.
  intros n Hn s. subst s. unfold Simulation.simulate.
  cbn [Simulation.winRate Simulation.effectiveRtp Simulation.hitA Simulation.hitB
       Simulation.miss Simulation.doublePlane Simulation.collapse].
  assert (Z0 : n = O -> snd (Simulation.run n) = Simulation.Counters.zero).
  { intros ->. reflexivity. }
  set (t := snd (Simulation.run n)) in *.
  assert (W : Js.is_nan (PrimFloat.div (Simulation.of_nat (Simulation.Counters.wins t))
                           (Simulation.of_nat n)) = (n =? 0)%nat).
  { apply ratio_nan; [exact Hn|]. intros E. rewrite (Z0 E). reflexivity. }
  split; [exact W|]. split.
  - destruct n as [|n].
    + rewrite (Z0 eq_refl). reflexivity.
    + cbn [Nat.eqb] in *.
      apply (mul_finite_not_nan
               (PrimFloat.div ProbabilityController.PAYOUT_ON_WIN ProbabilityController.BET)
               _ I W).
  - repeat split; (apply ratio_nan; [exact Hn|]); intros E; rewrite (Z0 E); reflexivity.
Qed.

Lemma simulate_rates_nan_iff_no_rounds_witness :
  Z.of_nat 1 < 2 ^ 53
  /\ Js.is_nan (Simulation.winRate (Simulation.simulate 1)) = false
  /\ Js.is_nan (Simulation.winRate (Simulation.simulate 0)) = true.
Proof.
  split; [lia|]. split.
  - apply (simulate_rates_nan_iff_no_rounds 1). lia.
  - apply (simulate_rates_nan_iff_no_rounds 0). lia.
Defined.

(* ================================================================== *)
(** ** Properties of the economy *)
(* ================================================================== *)

Section Subtraction.
Import Js.

Lemma nonneg_le_0 (X : spec_float) : nonnegSF X -> SFleb (S754_zero false) X = true.
Proof. destruct X as [s|[|]| |[|] m e]; cbn; intros H; try contradiction; reflexivity. Qed.

Lemma binary_normalize_nonneg (z e : Z) :
  0 <= z -> nonnegSF (binary_normalize prec emax z e false).
Proof.
  intros Hz. destruct z as [|p|p]; [exact I| |lia].
  cbn [binary_normalize]. unfold binary_round.
  destruct (shl_align _ _ _) as [mz ez].
  rewrite binary_round_aux_pos.
  destruct (_ <=? 0).
  - destruct (ez <=? 971); exact I.
  - apply round_result_nonneg.
Qed.

Lemma ten_SF : Prim2SF 10%float = S754_finite false 5629499534213120 (-49).
Proof. reflexivity. Qed.

(** Taking ten from a double that is at least ten leaves a double that
    is at least zero. *)
Lemma sub_ten_nonneg (b : number) :
  le 10%float b = true -> le 0%float (PrimFloat.sub b 10%float) = true.
Proof.
  unfold le. rewrite !FloatAxioms.leb_spec, FloatAxioms.sub_spec, ten_SF, zero_SF.
  pose proof (Prim2SF_valid b) as V.
  destruct (Prim2SF b) as [s|[|]| |[|] m e]; try discriminate; intros H.
  - reflexivity.
  - apply SFleb_finite_pos in H.
    apply nonneg_le_0. unfold SF64sub, SFsub.
    apply binary_normalize_nonneg. cbn [cond_Zopp].
    destruct (valid_finite _ _ _ V) as (V1 & V2 & V3).
    assert (Hmin : Z.min e (-49) = -49) by lia. rewrite Hmin.
    rewrite !shl_align_fst by lia.
    replace (-49 - -49) with 0 by lia. rewrite Z.mul_1_r.
    destruct H as [H|[H1 H2]].
    + assert (P : 2 <= 2 ^ (e - -49)).
      { replace (e - -49) with (1 + (e - -49 - 1)) by lia.
        rewrite Z.pow_add_r by lia.
        pose proof (Z.pow_pos_nonneg 2 (e - -49 - 1) ltac:(lia) ltac:(lia)). lia. }
      nia.
    + subst e. replace (-49 - -49) with 0 by lia. lia.
Qed.

End Subtraction.

(** X18. [Economy.startRound] never overdraws.  When the balance is
    below the round cost of 10, or is NaN, it returns false and changes
    nothing.  Otherwise it returns true, the new balance is the old one
    less 10 and is at least zero, the round value is the stake of 10,
    the multiplier 1 and the swipe count 0; a bomb then takes the round
    value to zero and leaves the balance where [startRound] put it. *)
Theorem economy_startRound_guard :
  forall e : Economy.t,
    (Js.le 10%float (Economy.balance e) = false ->
     Economy.startRound e = (e, false))
    /\ (Js.le 10%float (Economy.balance e) = true ->
        snd (Economy.startRound e) = true
        /\ Economy.balance (fst (Economy.startRound e))
           = PrimFloat.sub (Economy.balance e) 10%float
        /\ Js.le 0%float (Economy.balance (fst (Economy.startRound e))) = true
        /\ Economy.roundValue (fst (Economy.startRound e)) = 10%float
        /\ Economy.multiplier (fst (Economy.startRound e)) = 1%float
        /\ Economy.swipeCount (fst (Economy.startRound e)) = O
        /\ Economy.roundValue (Economy.onBomb (fst (Economy.startRound e))) = 0%float
        /\ Economy.balance (Economy.onBomb (fst (Economy.startRound e)))
           = PrimFloat.sub (Economy.balance e) 10%float).
Proof.
  intros e. unfold Economy.startRound, Economy.canStartRound, Economy.balance,
    Economy._roundCost.
  split; intros H; rewrite H; cbn [negb fst snd].
  - reflexivity.
  - repeat split. cbn [Economy._balance]. apply sub_ten_nonneg, H.
Qed.

Lemma economy_startRound_guard_witness :
  Js.le 10%float (Economy.balance (Economy.new None)) = true
  /\ Js.le 10%float (Economy.balance (Economy.new (Some 5%float))) = false
  /\ Js.le 0%float (Economy.balance (fst (Economy.startRound (Economy.new None)))) = true
  /\ Economy.startRound (Economy.new (Some 5%float)) = (Economy.new (Some 5%float), false).
Proof.
  split; [reflexivity|]. split; [reflexivity|]. split.
  - exact (proj1 (proj2 (proj2 (proj2 (economy_startRound_guard (Economy.new None)) eq_refl)))).
  - exact (proj1 (economy_startRound_guard (Economy.new (Some 5%float))) eq_refl).
Defined.
